(** * Bookmark reconciliation engine: a shallow embedding

    The development follows [WebExtBookmarkService] (the bookmark service of
    the web-extension platform) and the listener toggling of the Chrome
    background page.  Promise chains are modelled in a state-and-rejection
    monad over an explicit [World]; the canonical tree is a rose tree of
    [Bookmark] records; the id mapping table is the persisted sequence of
    [{syncedId, nativeId}] records. *)

From Stdlib Require Import List ZArith Bool String Lia Arith.
Import ListNotations.
Open Scope string_scope.
Open Scope list_scope.
Open Scope Z_scope.

Set Implicit Arguments.

(* ================================================================== *)
(** ** Exceptions and results *)

Inductive Exception : Type :=
| BookmarkNotFoundException
| ContainerNotFoundException
| ContainerChangedException
| NativeBookmarkNotFoundException
| FailedCreateNativeBookmarksException (cause : Exception)
| FailedUpdateNativeBookmarksException (cause : Exception)
| FailedRemoveNativeBookmarksException (cause : Exception)
| AmbiguousSyncRequestException
| NotImplementedException
| TypeError            (* property access on [undefined] *)
| HostError (cause : string).   (* rejection coming from the native host *)

Inductive Result (A : Type) : Type :=
| Resolved (a : A)
| Rejected (e : Exception).

Arguments Resolved {A} a.
Arguments Rejected {A} e.

Definition isResolved {A} (r : Result A) : bool :=
  match r with Resolved _ => true | Rejected _ => false end.

(* ================================================================== *)
(** ** Data model *)

(** [BookmarkContainer] enum (bookmark.enum). *)
Inductive BookmarkContainer : Type := Menu | Mobile | Other | Toolbar.

(** Modelled from the spec: the enum's string values are not part of the
    sources; the spec names four reserved root folders (menu, mobile, other,
    toolbar) that are told apart by their title. *)
Definition containerTitle (c : BookmarkContainer) : string :=
  match c with
  | Menu => "[xbs] Menu"
  | Mobile => "[xbs] Mobile"
  | Other => "[xbs] Other"
  | Toolbar => "[xbs] Toolbar"
  end.

Definition allContainers : list BookmarkContainer := [Menu; Mobile; Other; Toolbar].

(** [BookmarkMetadata]: the fields [addBookmark] reads. *)
Record BookmarkMetadata : Type := mkMetadata {
  m_title : option string;
  m_url : option string;
  m_description : option string;
  m_tags : option (list string);
  m_isSeparator : bool
}.

Unset Elimination Schemes.

(** Canonical [Bookmark].  [children] is optional in the source
    ([bookmark.children ?? undefined]), hence the [option]. *)
Inductive Bookmark : Type :=
  mkBookmark (bid : Z) (btitle : option string) (burl : option string)
             (bdescription : option string) (btags : option (list string))
             (bchildren : option (list Bookmark)).

Definition id (b : Bookmark) : Z :=
  match b with mkBookmark i _ _ _ _ _ => i end.
Definition title (b : Bookmark) : option string :=
  match b with mkBookmark _ t _ _ _ _ => t end.
Definition url (b : Bookmark) : option string :=
  match b with mkBookmark _ _ u _ _ _ => u end.
Definition description (b : Bookmark) : option string :=
  match b with mkBookmark _ _ _ d _ _ => d end.
Definition tags (b : Bookmark) : option (list string) :=
  match b with mkBookmark _ _ _ _ g _ => g end.
Definition children (b : Bookmark) : option (list Bookmark) :=
  match b with mkBookmark _ _ _ _ _ c => c end.

Definition setChildren (c : option (list Bookmark)) (b : Bookmark) : Bookmark :=
  match b with mkBookmark i t u d g _ => mkBookmark i t u d g c end.
Definition setId (i : Z) (b : Bookmark) : Bookmark :=
  match b with mkBookmark _ t u d g c => mkBookmark i t u d g c end.

(** Native [BookmarkTreeNode] of the web-extension API. *)
Inductive NativeBookmark : Type :=
  mkNative (nid : string) (nparentId : option string) (nindex : option Z)
           (ntitle : string) (nurl : option string)
           (nchildren : option (list NativeBookmark)).

Definition n_id (n : NativeBookmark) : string :=
  match n with mkNative i _ _ _ _ _ => i end.
Definition n_parentId (n : NativeBookmark) : option string :=
  match n with mkNative _ p _ _ _ _ => p end.
Definition n_index (n : NativeBookmark) : option Z :=
  match n with mkNative _ _ x _ _ _ => x end.
Definition n_title (n : NativeBookmark) : string :=
  match n with mkNative _ _ _ t _ _ => t end.
Definition n_url (n : NativeBookmark) : option string :=
  match n with mkNative _ _ _ _ u _ => u end.
Definition n_children (n : NativeBookmark) : option (list NativeBookmark) :=
  match n with mkNative _ _ _ _ _ c => c end.

Set Elimination Schemes.

(** The elimination scheme of [Bookmark]: a bookmark and the list of its
    children are treated together. *)
Section BookmarkInduction.

Variable Pn : Bookmark -> Prop.
Variable Pl : list Bookmark -> Prop.
Hypothesis Hnil : Pl [].
Hypothesis Hcons : forall b r, Pn b -> Pl r -> Pl (b :: r).
Hypothesis Hleaf : forall i t u d g, Pn (mkBookmark i t u d g None).
Hypothesis Hnode : forall i t u d g ks, Pl ks -> Pn (mkBookmark i t u d g (Some ks)).

Fixpoint bookmark_ind2 (b : Bookmark) : Pn b :=
  match b with
  | mkBookmark i t u d g None => Hleaf i t u d g
  | mkBookmark i t u d g (Some ks) =>
      Hnode i t u d g
            ((fix go (l : list Bookmark) : Pl l :=
                match l with
                | [] => Hnil
                | k :: r => Hcons (bookmark_ind2 k) (go r)
                end) ks)
  end.

Fixpoint bookmarks_ind2 (l : list Bookmark) : Pl l :=
  match l with
  | [] => Hnil
  | k :: r => Hcons (bookmark_ind2 k) (bookmarks_ind2 r)
  end.

End BookmarkInduction.

(** The same scheme for native nodes. *)
Section NativeInduction.

Variable Pn : NativeBookmark -> Prop.
Variable Pl : list NativeBookmark -> Prop.
Hypothesis Hnil : Pl [].
Hypothesis Hcons : forall n r, Pn n -> Pl r -> Pl (n :: r).
Hypothesis Hleaf : forall i p x t u, Pn (mkNative i p x t u None).
Hypothesis Hnode : forall i p x t u ks, Pl ks -> Pn (mkNative i p x t u (Some ks)).

Fixpoint native_ind2 (n : NativeBookmark) : Pn n :=
  match n with
  | mkNative i p x t u None => Hleaf i p x t u
  | mkNative i p x t u (Some ks) =>
      Hnode i p x t u
            ((fix go (l : list NativeBookmark) : Pl l :=
                match l with
                | [] => Hnil
                | k :: r => Hcons (native_ind2 k) (go r)
                end) ks)
  end.

Fixpoint natives_ind2 (l : list NativeBookmark) : Pl l :=
  match l with
  | [] => Hnil
  | k :: r => Hcons (native_ind2 k) (natives_ind2 r)
  end.

End NativeInduction.

(** The nodes of a native subtree, a parent before its children. *)
Fixpoint nativeFlatten (n : NativeBookmark) : list NativeBookmark :=
  match n with
  | mkNative i p x t u c =>
      mkNative i p x t u c ::
      match c with
      | None => []
      | Some ks => flat_map nativeFlatten ks
      end
  end.

(** [BookmarkIdMapping] (bookmark-id-mapper.interface). *)
Record BookmarkIdMapping : Type := mkMapping {
  syncedId : Z;
  nativeId : string
}.

(** Change payloads (bookmark.interface) of the change types modelled. *)
Record AddNativeBookmarkChangeData : Type :=
  { add_nativeBookmark : NativeBookmark }.
Record RemoveNativeBookmarkChangeData : Type :=
  { remove_nativeBookmark : NativeBookmark }.
Record MoveNativeBookmarkChangeData : Type := mkMove {
  move_id : string;
  move_index : Z;
  move_oldIndex : Z;
  move_oldParentId : string;
  move_parentId : string
}.
Record ReorderNativeBookmarkChangeData : Type := mkReorder {
  reorder_childIds : list string;
  reorder_parentId : string
}.

(** [BookmarkChangeType] enum (bookmark.enum). *)
Module BookmarkChangeType.

Inductive t : Type := Add | ChildrenReordered | Modify | Move | Remove.

End BookmarkChangeType.

(** [globals.SyncType] and the fields of a sync request that the background
    page reads. *)
Module SyncType.

Inductive t : Type := Pull | Push | Both.

End SyncType.

Record SyncData : Type := mkSyncData {
  sd_type : SyncType.t;
  sd_bookmarks : option (list Bookmark)
}.

(* ================================================================== *)
(** ** JavaScript array primitives used by the service *)

Definition optEqb (a b : option string) : bool :=
  match a, b with
  | Some x, Some y => String.eqb x y
  | None, None => true
  | _, _ => false
  end.

(** [Array.prototype.splice(index, 0, x)]: the start position is clamped
    into [0 .. length]; a negative index counts from the end. *)
Definition spliceStart {A} (index : Z) (l : list A) : nat :=
  let len := Z.of_nat (List.length l) in
  Z.to_nat (if index <? 0 then Z.max (len + index) 0 else Z.min index len).

Definition splice {A} (index : Z) (x : A) (l : list A) : list A :=
  firstn (spliceStart index l) l ++ x :: skipn (spliceStart index l) l.

(** [ToIntegerOrInfinity] on an optional number: [undefined] is 0. *)
Definition toInteger (i : option Z) : Z :=
  match i with Some z => z | None => 0 end.

Definition memZ (x : Z) (l : list Z) : bool := existsb (Z.eqb x) l.
Definition memS (x : string) (l : list string) : bool := existsb (String.eqb x) l.

(* ================================================================== *)
(** ** Bookmark helper service

    [BookmarkHelperService] is injected into the service and its file is not
    among the sources; every definition of this module is
    Modelled from the spec: section 3 (a canonical bookmark has an integer id
    unique within the tree and an ordered list of children; a container is a
    root-level bookmark whose title is a reserved name) and section 4.3. *)
Module Helper.

(** A reference to a node of a tree: the child indexes leading to it.
    The source passes JavaScript object references; a write through
    [findBookmarkById]'s result lands at this position. *)
Definition Ref : Type := list nat.

(** Modelled from the spec: [eachBookmark] visits every bookmark of the
    forest, a parent before its children. *)
Fixpoint flatten (b : Bookmark) : list Bookmark :=
  match b with
  | mkBookmark i t u d g c =>
      mkBookmark i t u d g c ::
      match c with
      | None => []
      | Some ks => flat_map flatten ks
      end
  end.

Definition eachBookmark (bookmarks : list Bookmark) : list Bookmark :=
  flat_map flatten bookmarks.

Definition allIds (bookmarks : list Bookmark) : list Z :=
  map id (eachBookmark bookmarks).

(** References into a later element, and into the first one. *)
Definition shift (p : Ref) : Ref :=
  match p with
  | [] => []
  | n :: q => S n :: q
  end.

Definition here (p : Ref) : Ref := 0%nat :: p.

(** Modelled from the spec: [findBookmarkById] returns the bookmark with
    the given id (ids are unique, so the visiting order only matters on
    ill-formed trees; the first match in [eachBookmark] order is taken).
    [findRefIn] searches one bookmark and its descendants; [[]] is the
    bookmark itself. *)
Fixpoint findRefIn (target : Z) (b : Bookmark) : option Ref :=
  match b with
  | mkBookmark i _ _ _ _ c =>
      if i =? target then Some []
      else match c with
           | None => None
           | Some ks =>
               (fix go (l : list Bookmark) : option Ref :=
                  match l with
                  | [] => None
                  | k :: r =>
                      match findRefIn target k with
                      | Some p => Some (here p)
                      | None => option_map shift (go r)
                      end
                  end) ks
           end
  end.

(** Modelled from the spec: the position of the bookmark [findBookmarkById]
    returns.  The reference is relative to the array searched: [[n]] is its
    [n]-th element, [n :: q] is [q] inside the children of that element. *)
Fixpoint findBookmarkRef (target : Z) (bookmarks : list Bookmark) : option Ref :=
  match bookmarks with
  | [] => None
  | k :: r =>
      match findRefIn target k with
      | Some p => Some (here p)
      | None => option_map shift (findBookmarkRef target r)
      end
  end.

Fixpoint deref (bookmarks : list Bookmark) (p : Ref) : option Bookmark :=
  match p with
  | [] => None
  | n :: q =>
      match nth_error bookmarks n with
      | None => None
      | Some b =>
          match q with
          | [] => Some b
          | _ :: _ =>
              match children b with
              | None => None
              | Some ks => deref ks q
              end
          end
      end
  end.

Definition findBookmarkById (target : Z) (bookmarks : list Bookmark) : option Bookmark :=
  match findBookmarkRef target bookmarks with
  | None => None
  | Some p => deref bookmarks p
  end.

Fixpoint mapNth {A} (n : nat) (f : A -> A) (l : list A) : list A :=
  match l, n with
  | [], _ => []
  | x :: r, O => f x :: r
  | x :: r, S m => x :: mapNth m f r
  end.

(** A write through a reference: [f] is applied to the referenced node,
    everything else is kept. *)
Fixpoint updateAt (f : Bookmark -> Bookmark) (bookmarks : list Bookmark) (p : Ref)
  : list Bookmark :=
  match p with
  | [] => bookmarks
  | n :: q =>
      mapNth n (fun b =>
                  match q with
                  | [] => f b
                  | _ :: _ =>
                      match children b with
                      | None => b
                      | Some ks => setChildren (Some (updateAt f ks q)) b
                      end
                  end) bookmarks
  end.

(** Modelled from the spec: a new id is one no bookmark of the tree (and no
    id already handed out, [takenIds]) carries: the successor of the
    largest. *)
Definition maxId (l : list Z) : Z := fold_right Z.max 0 l.

Definition getNewBookmarkId (bookmarks : list Bookmark) (takenIds : list Z) : Z :=
  Z.max (maxId (allIds bookmarks)) (maxId takenIds) + 1.

(** Modelled from the spec: [newBookmark] builds a node from the metadata;
    a bookmark with a url is a leaf, one without is a folder with an empty
    child list, a separator has neither title nor url nor children. *)
Definition newBookmarkWithId (newId : Z) (t u d : option string)
           (g : option (list string)) (isSeparator : bool) : Bookmark :=
  if isSeparator then mkBookmark newId None None None None None
  else match u with
       | Some _ => mkBookmark newId t u d g None
       | None => mkBookmark newId t None d g (Some [])
       end.

Definition newBookmark (t u d : option string) (g : option (list string))
           (isSeparator : bool) (bookmarksToGenerateNewId : list Bookmark) : Bookmark :=
  newBookmarkWithId (getNewBookmarkId bookmarksToGenerateNewId []) t u d g isSeparator.

(** Modelled from the spec: the metadata of a bookmark is the bookmark
    without its identity and position. *)
Definition extractBookmarkMetadata (b : Bookmark) : BookmarkMetadata :=
  mkMetadata (title b) (url b) (description b) (tags b) false.

Definition extractNativeBookmarkMetadata (n : NativeBookmark) : BookmarkMetadata :=
  mkMetadata (Some (n_title n)) (n_url n) None None false.

(** Modelled from the spec: a container is recognised by its reserved
    title. *)
Definition isContainerTitle (t : string) : bool :=
  existsb (fun c => String.eqb t (containerTitle c)) allContainers.

Definition bookmarkIsContainer (n : NativeBookmark) : bool :=
  isContainerTitle (n_title n).

(** Modelled from the spec: [removeBookmarkById] deletes the bookmark with
    the given id together with its subtree. *)
Fixpoint removeIn (target : Z) (b : Bookmark) : Bookmark :=
  match b with
  | mkBookmark i t u d g c =>
      mkBookmark i t u d g
        match c with
        | None => None
        | Some ks =>
            Some ((fix go (l : list Bookmark) : list Bookmark :=
                     match l with
                     | [] => []
                     | k :: r =>
                         if id k =? target then go r
                         else removeIn target k :: go r
                     end) ks)
        end
  end.

Fixpoint removeBookmarkById (target : Z) (bookmarks : list Bookmark) : list Bookmark :=
  match bookmarks with
  | [] => []
  | k :: r =>
      if id k =? target then removeBookmarkById target r
      else removeIn target k :: removeBookmarkById target r
  end.

(** Modelled from the spec: [getContainer] looks a container up by its
    reserved title among the roots.  The add and move paths pass [true]
    as third argument; it is read as create-if-missing, the container
    being appended to the roots as an empty folder with a new id. *)
Definition findContainer (c : BookmarkContainer) (bookmarks : list Bookmark)
  : option Bookmark :=
  find (fun b => optEqb (title b) (Some (containerTitle c))) bookmarks.

Fixpoint findIndexFrom {A} (f : A -> bool) (l : list A) (n : nat) : option nat :=
  match l with
  | [] => None
  | x :: r => if f x then Some n else findIndexFrom f r (S n)
  end.

(** The position of the object [getContainer] returns. *)
Definition containerRef (c : BookmarkContainer) (bookmarks : list Bookmark)
  : option Ref :=
  option_map (fun n => [n])
             (findIndexFrom (fun b => optEqb (title b) (Some (containerTitle c)))
                            bookmarks 0%nat).

Definition getContainer (c : BookmarkContainer) (bookmarks : list Bookmark)
           (createIfNotPresent : bool) : option Bookmark * list Bookmark :=
  match findContainer c bookmarks with
  | Some b => (Some b, bookmarks)
  | None =>
      if createIfNotPresent then
        let b := newBookmark (Some (containerTitle c)) None None None false bookmarks in
        (Some b, bookmarks ++ [b])
      else (None, bookmarks)
  end.

(** Modelled from the spec: a container is a root-level bookmark whose title
    is one of the reserved names (section 3). *)
Definition isContainer (root : Bookmark) : bool :=
  match title root with
  | Some t => isContainerTitle t
  | None => false
  end.

(** Modelled from the spec: the container of a bookmark is the container
    whose subtree holds it (a container is its own container); a root
    without a reserved title is no container, so a bookmark below such a
    root has none. *)
Definition getContainerByBookmarkId (target : Z) (bookmarks : list Bookmark)
  : option Bookmark :=
  find (fun root => isContainer root && memZ target (map id (flatten root))) bookmarks.

End Helper.

(* ================================================================== *)
(** ** Id mapping store

    [BookmarkIdMapperService] is injected and its file is not among the
    sources; the store is kept as the persisted sequence of records. *)
Module IdMapper.

Definition createMapping (s : Z) (n : string) : BookmarkIdMapping :=
  mkMapping s n.

(** Modelled from the spec: [get] looks a mapping up by either key; the
    service calls it as [get(nativeId)] and as [get(null, syncedId)]. *)
Definition get (nativeKey : option string) (syncedKey : option Z)
           (mappings : list BookmarkIdMapping) : option BookmarkIdMapping :=
  match nativeKey, syncedKey with
  | Some n, _ => find (fun m => String.eqb (nativeId m) n) mappings
  | None, Some s => find (fun m => syncedId m =? s) mappings
  | None, None => None
  end.

(** Modelled from the spec: [add] stores the record; the store performs no
    implicit merge or overwrite. *)
Definition add (m : BookmarkIdMapping) (mappings : list BookmarkIdMapping)
  : list BookmarkIdMapping :=
  mappings ++ [m].

(** Modelled from the spec: [remove] accepts one id or a set, matched
    against either side; the service passes synced ids first. *)
Definition remove (syncedIds : list Z) (nativeIds : list string)
           (mappings : list BookmarkIdMapping) : list BookmarkIdMapping :=
  filter (fun m => negb (memZ (syncedId m) syncedIds || memS (nativeId m) nativeIds))
         mappings.

Definition isMapped (mappings : list BookmarkIdMapping) (s : Z) : bool :=
  existsb (fun m => syncedId m =? s) mappings.

End IdMapper.

(* ================================================================== *)
(** ** The world the promise chains run in *)

(** [NativeBookmarks.CreateDetails], [UpdateChangesType] and the
    destination of [bookmarks.move]. *)
Record CreateDetails : Type := mkCreate {
  c_index : option Z;
  c_parentId : option string;
  c_title : option string;
  c_url : option string
}.

Record UpdateChanges : Type := mkUpdate {
  u_title : option string;
  u_url : option string
}.

Record MoveDestination : Type := mkDest {
  d_index : option Z;
  d_parentId : option string
}.

Inductive LogMessage : Type :=
| MsgText (s : string)
| MsgFailedCreate (d : CreateDetails)       (* text followed by JSON.stringify *)
| MsgFailedModify (m : BookmarkMetadata)
| MsgFailedRemove (nativeBookmarkId : string)
| MsgNoMappingForSyncedId (syncedBookmarkId : Z).

(** What a chain does to the outside, in order: writes sent to the native
    host, log lines, listener toggling. *)
Inductive Event : Type :=
| EvCreate (d : CreateDetails)
| EvUpdate (nativeBookmarkId : string) (changes : UpdateChanges)
| EvRemove (nativeBookmarkId : string)
| EvRemoveTree (nativeBookmarkId : string)
| EvMove (nativeBookmarkId : string) (dest : MoveDestination)
| EvLogInfo (m : LogMessage)
| EvLogWarning (m : LogMessage)
| EvDisableListeners
| EvEnableListeners.

Definition isNativeWrite (e : Event) : bool :=
  match e with
  | EvCreate _ | EvUpdate _ _ | EvRemove _ | EvRemoveTree _ | EvMove _ _ => true
  | _ => false
  end.

Definition nativeWrites (l : list Event) : list Event := filter isNativeWrite l.

(** The platform: [PlatformService], the constants of [Globals.Bookmarks]
    and the methods the base class leaves to the platform subclass
    ([getNativeContainerIds], [wasContainerChanged]); none of them is among
    the sources, so they are parameters.  [nativeContainerIds] is the table
    of section 4.6 of the spec (menu and mobile may be absent). *)
Record Platform : Type := mkPlatform {
  getNewTabUrl : string;
  urlIsSupported : string -> bool;
  nativeContainerIds : BookmarkContainer -> option string;
  wasContainerChanged : NativeBookmark -> list Bookmark -> bool;
  HorizontalSeparatorTitle : string;
  VerticalSeparatorTitle : string;
  unsupportedContainers : list string
}.

Section Engine.

(** The native host ([browser.bookmarks]) is an arbitrary state machine. *)
Variable Host : Type.

Record HostApi : Type := mkHostApi {
  host_get : string -> Host -> Result (list NativeBookmark);
  host_getSubTree : string -> Host -> Result (list NativeBookmark);
  host_search : string -> Host -> Result (list NativeBookmark);
  host_create : CreateDetails -> Host -> Result NativeBookmark * Host;
  host_update : string -> UpdateChanges -> Host -> Result NativeBookmark * Host;
  host_remove : string -> Host -> Result unit * Host;
  host_removeTree : string -> Host -> Result unit * Host;
  host_move : string -> MoveDestination -> Host -> Result NativeBookmark * Host
}.

Record World : Type := mkWorld {
  w_host : Host;
  w_idMappings : list BookmarkIdMapping;   (* store of the id mapper *)
  w_syncBookmarksToolbar : bool;           (* settings: sync toolbar *)
  w_syncEnabled : bool;                    (* persisted: sync enabled *)
  w_listeners : bool;                      (* native listeners attached *)
  w_events : list Event                    (* oldest first *)
}.

Definition setHost (h : Host) (w : World) : World :=
  mkWorld h (w_idMappings w) (w_syncBookmarksToolbar w) (w_syncEnabled w)
          (w_listeners w) (w_events w).
Definition setIdMappings (m : list BookmarkIdMapping) (w : World) : World :=
  mkWorld (w_host w) m (w_syncBookmarksToolbar w) (w_syncEnabled w)
          (w_listeners w) (w_events w).
Definition setListeners (b : bool) (w : World) : World :=
  mkWorld (w_host w) (w_idMappings w) (w_syncBookmarksToolbar w) (w_syncEnabled w)
          b (w_events w).
Definition emit (e : Event) (w : World) : World :=
  mkWorld (w_host w) (w_idMappings w) (w_syncBookmarksToolbar w) (w_syncEnabled w)
          (w_listeners w) (w_events w ++ [e]).

(** A promise-returning computation: the settled value and the world it
    leaves. *)
Definition M (A : Type) : Type := World -> Result A * World.

Definition ret {A} (a : A) : M A := fun w => (Resolved a, w).
Definition throw {A} (e : Exception) : M A := fun w => (Rejected e, w).

(** [p.then(k)] *)
Definition bind {A B} (m : M A) (k : A -> M B) : M B :=
  fun w => match m w with
           | (Resolved a, w1) => k a w1
           | (Rejected e, w1) => (Rejected e, w1)
           end.

(** [p.catch(h)] *)
Definition catch {A} (m : M A) (h : Exception -> M A) : M A :=
  fun w => match m w with
           | (Resolved a, w1) => (Resolved a, w1)
           | (Rejected e, w1) => h e w1
           end.

(** [p.finally(f)]: [f] runs on both outcomes; the outcome of [p] is kept
    unless [f] itself rejects. *)
Definition finally {A B} (m : M A) (f : M B) : M A :=
  fun w => match m w with
           | (r, w1) =>
               match f w1 with
               | (Resolved _, w2) => (r, w2)
               | (Rejected e, w2) => (Rejected e, w2)
               end
           end.

(** [$q.all(ps)] for promises created in order: every one is started, the
    first rejection wins. *)
Fixpoint all {A} (ms : list (M A)) : M (list A) :=
  fun w => match ms with
           | [] => (Resolved [], w)
           | m :: r =>
               match m w with
               | (Resolved a, w1) =>
                   match all r w1 with
                   | (Resolved l, w2) => (Resolved (a :: l), w2)
                   | (Rejected e, w2) => (Rejected e, w2)
                   end
               | (Rejected e, w1) => (Rejected e, snd (all r w1))
               end
           end.

Definition logInfo (m : LogMessage) : M unit :=
  fun w => (Resolved tt, emit (EvLogInfo m) w).
Definition logWarning (m : LogMessage) : M unit :=
  fun w => (Resolved tt, emit (EvLogWarning m) w).

Definition syncBookmarksToolbar : M bool :=
  fun w => (Resolved (w_syncBookmarksToolbar w), w).

Definition idMapper_get (nativeKey : option string) (syncedKey : option Z)
  : M (option BookmarkIdMapping) :=
  fun w => (Resolved (IdMapper.get nativeKey syncedKey (w_idMappings w)), w).
Definition idMapper_add (m : BookmarkIdMapping) : M unit :=
  fun w => (Resolved tt, setIdMappings (IdMapper.add m (w_idMappings w)) w).
Definition idMapper_remove (syncedIds : list Z) : M unit :=
  fun w => (Resolved tt, setIdMappings (IdMapper.remove syncedIds [] (w_idMappings w)) w).

Notation "x <- m ;; k" := (bind m (fun x => k))
  (at level 61, m at next level, right associativity).
Notation "m ;;; k" := (bind m (fun _ => k))
  (at level 61, right associativity).

Variable api : HostApi.
Variable P : Platform.

(** *** [browser.bookmarks] *)

Definition browser_get (nativeBookmarkId : string) : M (list NativeBookmark) :=
  fun w => (host_get api nativeBookmarkId (w_host w), w).
Definition browser_getSubTree (nativeBookmarkId : string) : M (list NativeBookmark) :=
  fun w => (host_getSubTree api nativeBookmarkId (w_host w), w).
Definition browser_search (t : string) : M (list NativeBookmark) :=
  fun w => (host_search api t (w_host w), w).
Definition browser_create (d : CreateDetails) : M NativeBookmark :=
  fun w => let (r, h) := host_create api d (w_host w) in
           (r, setHost h (emit (EvCreate d) w)).
Definition browser_update (nativeBookmarkId : string) (c : UpdateChanges) : M NativeBookmark :=
  fun w => let (r, h) := host_update api nativeBookmarkId c (w_host w) in
           (r, setHost h (emit (EvUpdate nativeBookmarkId c) w)).
Definition browser_remove (nativeBookmarkId : string) : M unit :=
  fun w => let (r, h) := host_remove api nativeBookmarkId (w_host w) in
           (r, setHost h (emit (EvRemove nativeBookmarkId) w)).
Definition browser_removeTree (nativeBookmarkId : string) : M unit :=
  fun w => let (r, h) := host_removeTree api nativeBookmarkId (w_host w) in
           (r, setHost h (emit (EvRemoveTree nativeBookmarkId) w)).
Definition browser_move (nativeBookmarkId : string) (d : MoveDestination) : M NativeBookmark :=
  fun w => let (r, h) := host_move api nativeBookmarkId d (w_host w) in
           (r, setHost h (emit (EvMove nativeBookmarkId d) w)).

(** *** Methods the base class leaves to the platform subclass *)

Definition getNativeContainerIds : M (BookmarkContainer -> option string) :=
  ret (nativeContainerIds P).

(** Modelled from the spec: [disableEventListeners] detaches the native
    listeners (section 5). *)
Definition disableEventListeners : M unit :=
  fun w => (Resolved tt, setListeners false (emit EvDisableListeners w)).

(** Modelled from the spec: [enableEventListeners] re-establishes the
    listeners and respects the persisted sync-enabled flag: when sync was
    disabled in the meantime the listeners stay off (section 5). *)
Definition enableEventListeners : M unit :=
  fun w => (Resolved tt, setListeners (w_syncEnabled w) (emit EvEnableListeners w)).

(* ================================================================== *)
(** ** The bookmark service (part_000) *)

(** [angular.copy] is a deep copy: the identity on values (the store model
    of [addBookmark], further down, tells the copy from the original). *)
Definition angular_copy (bookmarks : list Bookmark) : list Bookmark := bookmarks.

(** [UpdateBookmarksResult].  The [bookmark] of a result is the very object
    that sits in its [bookmarks]; [r_ref] is the position of that object, so
    that a later write to it can be carried into the tree. *)
Record UpdateBookmarksResult : Type := mkUpdateResult {
  r_bookmark : Bookmark;
  r_bookmarks : list Bookmark;
  r_ref : Helper.Ref
}.

(** [addBookmark]: [parent] is a reference into the copy and [splice] writes
    through it. *)
Definition addBookmark (bookmarkMetadata : BookmarkMetadata) (parentId : Z)
           (index : Z) (bookmarks : list Bookmark) : Result UpdateBookmarksResult :=
  let updatedBookmarks := angular_copy bookmarks in
  match Helper.findBookmarkRef parentId updatedBookmarks with
  | None => Rejected BookmarkNotFoundException
  | Some parent =>
      let bookmark :=
        Helper.newBookmark (m_title bookmarkMetadata) (m_url bookmarkMetadata)
                           (m_description bookmarkMetadata) (m_tags bookmarkMetadata)
                           (m_isSeparator bookmarkMetadata) bookmarks in
      match Helper.deref updatedBookmarks parent with
      | None => Rejected TypeError
      | Some parentBookmark =>
          match children parentBookmark with
          | None => Rejected TypeError   (* [parent.children] is undefined *)
          | Some kids =>
              Resolved
                (mkUpdateResult bookmark
                   (Helper.updateAt (setChildren (Some (splice index bookmark kids)))
                                    updatedBookmarks parent)
                   (parent ++ [spliceStart index kids]))
          end
      end
  end.

Definition lift {A} (r : Result A) : M A := fun w => (r, w).

(** [checkIfBookmarkChangeShouldBeSynced]; [changedBookmark] may be
    [undefined] when the caller's lookup found nothing. *)
Definition checkIfBookmarkChangeShouldBeSynced (changedBookmark : option Bookmark)
           (bookmarks : list Bookmark) : M bool :=
  syncToolbar <- syncBookmarksToolbar ;;
  match changedBookmark with
  | None => throw TypeError
  | Some changed =>
      match Helper.getContainerByBookmarkId (id changed) bookmarks with
      | None => throw ContainerNotFoundException
      | Some container =>
          if optEqb (title container) (Some (containerTitle Toolbar)) && negb syncToolbar
          then logInfo (MsgText "Not syncing toolbar") ;;; ret false
          else ret true
      end
  end.

Definition truthy (s : option string) : bool :=
  match s with
  | Some x => negb (String.eqb x "")
  | None => false
  end.

(** [getContainerNameFromNativeId]; the empty name is [None]. *)
Definition getContainerNameFromNativeId (nativeBookmarkId : option string)
  : M (option BookmarkContainer) :=
  ids <- getNativeContainerIds ;;
  let menuBookmarksId := ids Menu in
  let mobileBookmarksId := ids Mobile in
  let otherBookmarksId := ids Other in
  let toolbarBookmarksId := ids Toolbar in
  let nativeContainers :=
    [(otherBookmarksId, Other); (toolbarBookmarksId, Toolbar)]
      ++ (if truthy menuBookmarksId then [(menuBookmarksId, Menu)] else [])
      ++ (if truthy mobileBookmarksId then [(mobileBookmarksId, Mobile)] else []) in
  ret (option_map snd
         (find (fun x => optEqb (fst x) nativeBookmarkId) nativeContainers)).

(** [getIdsFromDescendants] *)
Definition getIdsFromDescendants (bookmark : Bookmark) : list Z :=
  match children bookmark with
  | None => []
  | Some [] => []
  | Some ks => map id (Helper.eachBookmark ks)
  end.

(** [getSupportedUrl] *)
Definition getSupportedUrl (u : option string) : M string :=
  match u with
  | None => ret ""
  | Some x =>
      if negb (urlIsSupported P x)
      then logInfo (MsgText ("Bookmark url unsupported: " ++ x)) ;;;
           ret (getNewTabUrl P)
      else ret x
  end.

(** [isNativeBookmarkInToolbarContainer] *)
Definition isNativeBookmarkInToolbarContainer (nativeBookmark : NativeBookmark) : M bool :=
  ids <- getNativeContainerIds ;;
  ret (optEqb (n_parentId nativeBookmark) (ids Toolbar)).

(** [convertNativeBookmarkToSeparator] *)
Definition convertNativeBookmarkToSeparator (bookmark : NativeBookmark) : M NativeBookmark :=
  inToolbar <- isNativeBookmarkInToolbarContainer bookmark ;;
  if (optEqb (n_url bookmark) (Some (getNewTabUrl P))
      && negb inToolbar
      && String.eqb (n_title bookmark) (HorizontalSeparatorTitle P))
     || (inToolbar && String.eqb (n_title bookmark) (VerticalSeparatorTitle P))
  then ret bookmark
  else
    finally
      (disableEventListeners ;;;
       let newTitle :=
         if inToolbar then VerticalSeparatorTitle P else HorizontalSeparatorTitle P in
       if (negb inToolbar && String.eqb (n_title bookmark) (VerticalSeparatorTitle P))
          || (inToolbar && String.eqb (n_title bookmark) (HorizontalSeparatorTitle P))
       then browser_update (n_id bookmark) (mkUpdate (Some newTitle) None)
       else
         let separator :=
           mkCreate (n_index bookmark) (n_parentId bookmark) (Some newTitle)
                    (Some (getNewTabUrl P)) in
         browser_remove (n_id bookmark) ;;; browser_create separator)
      enableEventListeners.

(** [createNativeBookmark] *)
Definition createNativeBookmark (parentId : option string) (t u : option string)
           (index : option Z) : M NativeBookmark :=
  nativeBookmarkInfo <-
    match u with
    | Some _ =>
        supported <- getSupportedUrl u ;;
        ret (mkCreate index parentId t (Some supported))
    | None => ret (mkCreate index parentId t None)
    end ;;
  catch (browser_create nativeBookmarkInfo)
        (fun err =>
           logWarning (MsgFailedCreate nativeBookmarkInfo) ;;;
           throw (FailedCreateNativeBookmarksException err)).

(** [modifyNativeBookmark].  [updateInfo] is built with a title only, so
    [updateInfo.url ?? undefined] is [undefined] at the test. *)
Definition modifyNativeBookmark (nativeBookmarkId : string) (newMetadata : BookmarkMetadata)
  : M NativeBookmark :=
  let updateInfo := mkUpdate (m_title newMetadata) None in
  updateInfo1 <-
    match u_url updateInfo with
    | Some _ =>
        supported <- getSupportedUrl (u_url updateInfo) ;;
        ret (mkUpdate (u_title updateInfo) (Some supported))
    | None => ret updateInfo
    end ;;
  catch (browser_update nativeBookmarkId updateInfo1)
        (fun err =>
           logInfo (MsgFailedModify newMetadata) ;;;
           throw (FailedUpdateNativeBookmarksException err)).

(** [removeNativeBookmarks] *)
Definition removeNativeBookmarks (nativeBookmarkId : string) : M unit :=
  catch (browser_removeTree nativeBookmarkId)
        (fun err =>
           logInfo (MsgFailedRemove nativeBookmarkId) ;;;
           throw (FailedRemoveNativeBookmarksException err)).

(** [convertNativeBookmarkToBookmark]; the [takenIds] array is shared by the
    whole walk, so it is threaded through the children in order. *)
Fixpoint convertNativeBookmarkToBookmark (nativeBookmark : NativeBookmark)
         (bookmarks : list Bookmark) (takenIds : list Z) : Bookmark * list Z :=
  match nativeBookmark with
  | mkNative _ _ _ t u c =>
      let newId := Helper.getNewBookmarkId bookmarks takenIds in
      let takenIds1 := takenIds ++ [newId] in
      let bookmark := Helper.newBookmarkWithId newId (Some t) u None None false in
      match c with
      | Some (k :: r) =>
          let (kids, takenIds2) :=
            (fix go (l : list NativeBookmark) (taken : list Z)
               : list Bookmark * list Z :=
               match l with
               | [] => ([], taken)
               | x :: l' =>
                   let (b, taken1) := convertNativeBookmarkToBookmark x bookmarks taken in
                   let (bs, taken2) := go l' taken1 in
                   (b :: bs, taken2)
               end) (k :: r) takenIds1 in
          (setChildren (Some kids) bookmark, takenIds2)
      | _ => (bookmark, takenIds1)
      end
  end.

(** The [children.map] of [convertNativeBookmarkToBookmark] on its own: the
    nodes are converted in order and share the [takenIds] array. *)
Fixpoint convertNativeBookmarks (nativeBookmarks : list NativeBookmark)
         (bookmarks : list Bookmark) (takenIds : list Z) : list Bookmark * list Z :=
  match nativeBookmarks with
  | [] => ([], takenIds)
  | x :: r =>
      let (b, taken1) := convertNativeBookmarkToBookmark x bookmarks takenIds in
      let (bs, taken2) := convertNativeBookmarks r bookmarks taken1 in
      (b :: bs, taken2)
  end.

(** [createBookmarkFromNativeBookmarkId] *)
Definition createBookmarkFromNativeBookmarkId (nativeBookmarkId : string)
           (bookmarks : list Bookmark) : M Bookmark :=
  results <- browser_get nativeBookmarkId ;;
  match results with
  | [] => throw NativeBookmarkNotFoundException
  | nativeBookmark :: _ =>
      ret (fst (convertNativeBookmarkToBookmark nativeBookmark bookmarks []))
  end.

Fixpoint filteri {A} (f : A -> nat -> bool) (l : list A) (i : nat) : list A :=
  match l with
  | [] => []
  | x :: r => if f x i then x :: filteri f r (S i) else filteri f r (S i)
  end.

(** [countNativeContainersBeforeIndex] *)
Definition countNativeContainersBeforeIndex (parentId : string) (index : Z) : M Z :=
  ids <- getNativeContainerIds ;;
  if negb (optEqb (Some parentId) (ids Other)) then ret 0
  else
    subTree <- browser_getSubTree parentId ;;
    match subTree with
    | [] => throw TypeError
    | root :: _ =>
        match n_children root with
        | None => throw TypeError
        | Some kids =>
            ret (Z.of_nat
                   (List.length
                      (filteri (fun child childIndex =>
                                  (Z.of_nat childIndex <? index)
                                  && Helper.bookmarkIsContainer child)
                               kids 0%nat)))
        end
    end.

(** The first [then] of [processChangeTypeAddOnBookmarks]: the canonical
    parent id the native parent resolves to, [undefined] when the parent is
    not synced.  [getContainer] may push the container onto [bookmarks], so
    the array travels with the id. *)
Definition resolveAddParent (bookmarks : list Bookmark) (nativeBookmark : NativeBookmark)
  : M (option Z * list Bookmark) :=
  containerName <- getContainerNameFromNativeId (n_parentId nativeBookmark) ;;
  match containerName with
  | Some name =>
      match Helper.getContainer name bookmarks true with
      | (Some container, bookmarks1) => ret (Some (id container), bookmarks1)
      | (None, _) => throw TypeError
      end
  | None =>
      idMapping <- idMapper_get (n_parentId nativeBookmark) None ;;
      match idMapping with
      | None =>
          logInfo (MsgText "No id mapping found, skipping sync") ;;;
          ret (None, bookmarks)
      | Some m => ret (Some (syncedId m), bookmarks)
      end
  end.

(** [processChangeTypeAddOnBookmarks]; a promise resolved with [undefined]
    (nothing to sync) is [None]. *)
Definition processChangeTypeAddOnBookmarks (bookmarks : list Bookmark)
           (changeData : AddNativeBookmarkChangeData) : M (option (list Bookmark)) :=
  let nativeBookmark := add_nativeBookmark changeData in
  changedBookmarkIsContainer <- ret (wasContainerChanged P nativeBookmark bookmarks) ;;
  if (changedBookmarkIsContainer : bool) then throw ContainerChangedException
  else
    resolved <- resolveAddParent bookmarks nativeBookmark ;;
    let (resolvedId, bookmarks1) := resolved : option Z * list Bookmark in
    match resolvedId with
    | None => ret None
    | Some parentId =>
        if parentId =? 0 then ret None     (* [!parentId]: 0 is falsy too *)
        else
          let newBookmarkMetadata :=
            Helper.extractNativeBookmarkMetadata nativeBookmark in
          addBookmarkResult <-
            lift (addBookmark newBookmarkMetadata parentId
                              (toInteger (n_index nativeBookmark)) bookmarks1) ;;
          syncThisChange <-
            checkIfBookmarkChangeShouldBeSynced (Some (r_bookmark addBookmarkResult))
                                                (r_bookmarks addBookmarkResult) ;;
          if negb syncThisChange then ret None
          else
            let idMapping :=
              IdMapper.createMapping (id (r_bookmark addBookmarkResult))
                                     (n_id nativeBookmark) in
            idMapper_add idMapping ;;;
            ret (Some (r_bookmarks addBookmarkResult))
    end.

(** Outcome of a reorder: the tree with the parent's children replaced.  A
    child id that [find] does not meet among the parent's children leaves
    [undefined] in the new array; the tree type has no such entry, so that
    outcome is reported apart, with the parent's position and the array. *)
Inductive ReorderOutcome : Type :=
| Reordered (bookmarks : list Bookmark)
| ReorderedWithHoles (bookmarks : list Bookmark) (parent : Helper.Ref)
                     (newChildren : list (option Bookmark)).

Fixpoint allSome {A} (l : list (option A)) : option (list A) :=
  match l with
  | [] => Some []
  | Some x :: r => option_map (cons x) (allSome r)
  | None :: _ => None
  end.

(** The new child array of [processChangeTypeChildrenReorderedOnBookmarks]:
    [childIds.map(childId => parentBookmark.children.find(x => x.id === childId))]. *)
Definition reorderedChildren (kids : list Bookmark) (childIds : list Z)
  : list (option Bookmark) :=
  map (fun childId => find (fun x => id x =? childId) kids) childIds.

(** [idMappings.filter(Boolean).map(m => m.syncedId)] *)
Definition mappedSyncedIds (idMappings : list (option BookmarkIdMapping)) : list Z :=
  flat_map (fun m => match m with Some x => [syncedId x] | None => [] end) idMappings.

(** The first [then] of [processChangeTypeChildrenReorderedOnBookmarks]:
    the parent bookmark, a container or the folder the native parent is
    mapped to; [None] is [undefined]. *)
Definition resolveReorderParent (bookmarks : list Bookmark)
           (changeData : ReorderNativeBookmarkChangeData) : M (option Helper.Ref) :=
  ids <- getNativeContainerIds ;;
  let containerName :=
    find (fun x => optEqb (ids x) (Some (reorder_parentId changeData))) allContainers in
  match containerName with
  | None =>
      idMapping <- idMapper_get (Some (reorder_parentId changeData)) None ;;
      match idMapping with
      | None => throw TypeError      (* [idMapping.syncedId] *)
      | Some m => ret (Helper.findBookmarkRef (syncedId m) bookmarks)
      end
  | Some name => ret (Helper.containerRef name bookmarks)
  end.

(** [processChangeTypeChildrenReorderedOnBookmarks]; the assignment to
    [parentBookmark.children] writes into [bookmarks], which is returned. *)
Definition processChangeTypeChildrenReorderedOnBookmarks (bookmarks : list Bookmark)
           (changeData : ReorderNativeBookmarkChangeData) : M ReorderOutcome :=
  parentBookmark <- resolveReorderParent bookmarks changeData ;;
  idMappings <-
    all (map (fun childId => idMapper_get (Some childId) None)
             (reorder_childIds changeData)) ;;
  let childIds := mappedSyncedIds idMappings in
  match parentBookmark with
  | None => throw TypeError
  | Some parent =>
      match Helper.deref bookmarks parent with
      | None => throw TypeError
      | Some parentNode =>
          match children parentNode, childIds with
          | None, _ :: _ => throw TypeError   (* [undefined.find] *)
          | None, [] => ret (Reordered (Helper.updateAt (setChildren (Some [])) bookmarks parent))
          | Some kids, _ =>
              let newChildren := reorderedChildren kids childIds in
              match allSome newChildren with
              | Some l =>
                  ret (Reordered (Helper.updateAt (setChildren (Some l)) bookmarks parent))
              | None => ret (ReorderedWithHoles bookmarks parent newChildren)
              end
          end
      end
  end.

(** [processChangeTypeRemoveOnBookmarks] *)
Definition processChangeTypeRemoveOnBookmarks (bookmarks : list Bookmark)
           (changeData : RemoveNativeBookmarkChangeData) : M (option (list Bookmark)) :=
  let nativeBookmark := remove_nativeBookmark changeData in
  changedBookmarkIsContainer <- ret (wasContainerChanged P nativeBookmark bookmarks) ;;
  if (changedBookmarkIsContainer : bool) then throw ContainerChangedException
  else
    idMapping <- idMapper_get (Some (n_id nativeBookmark)) None ;;
    match idMapping with
    | None =>
        logInfo (MsgText "No id mapping found, skipping sync") ;;;
        ret None
    | Some mapping =>
        let bookmarkToRemove := Helper.findBookmarkById (syncedId mapping) bookmarks in
        syncThisChange <- checkIfBookmarkChangeShouldBeSynced bookmarkToRemove bookmarks ;;
        if negb syncThisChange then ret None
        else
          match bookmarkToRemove with
          | None => throw TypeError
          | Some toRemove =>
              let descendantsIds := getIdsFromDescendants toRemove in
              let updatedBookmarks :=
                Helper.removeBookmarkById (syncedId mapping) bookmarks in
              let syncedIds := descendantsIds ++ [syncedId mapping] in
              idMapper_remove syncedIds ;;;
              ret (Some updatedBookmarks)
          end
    end.

(** [processChangeTypeMoveOnBookmarks].  [changesMade] is the local flag of
    the source; it travels with the tree of each stage. *)
Definition processChangeTypeMoveOnBookmarks (bookmarks : list Bookmark)
           (changeData : MoveNativeBookmarkChangeData) : M (option (list Bookmark)) :=
  results <- browser_get (move_id changeData) ;;
  match results with
  | [] => throw TypeError     (* [results[0]] is undefined *)
  | movedBookmark :: _ =>
      if Helper.bookmarkIsContainer movedBookmark then
        if negb (String.eqb (move_oldParentId changeData) (move_parentId changeData))
        then throw ContainerChangedException
        else ret None
      else
        movedBookmarkMapping <- idMapper_get (Some (move_id changeData)) None ;;
        parentResolved <-
          (parentNameAsContainer <-
             getContainerNameFromNativeId (Some (move_parentId changeData)) ;;
           match parentNameAsContainer with
           | Some name =>
               match Helper.getContainer name bookmarks true with
               | (Some container, bookmarks1) => ret (Some (id container), bookmarks1)
               | (None, _) => throw TypeError
               end
           | None =>
               m <- idMapper_get (Some (move_parentId changeData)) None ;;
               ret (option_map syncedId m, bookmarks)
           end) ;;
        let (parentMapping, bookmarks1) := parentResolved : option Z * list Bookmark in
        match movedBookmarkMapping, parentMapping with
        | None, None =>
            logInfo (MsgText "No id mappings found, skipping sync") ;;;
            ret None
        | _, _ =>
            bookmarkToRemove <-
              match movedBookmarkMapping with
              | None =>
                  b <- createBookmarkFromNativeBookmarkId (move_id changeData) bookmarks1 ;;
                  ret (Some b)
              | Some mapping =>
                  ret (Helper.findBookmarkById (syncedId mapping) bookmarks1)
              end ;;
            removed <-
              match movedBookmarkMapping with
              | None => ret (bookmarks1, false)
              | Some mapping =>
                  syncThisChange <-
                    checkIfBookmarkChangeShouldBeSynced bookmarkToRemove bookmarks1 ;;
                  if negb syncThisChange then ret (bookmarks1, false)
                  else ret (Helper.removeBookmarkById (syncedId mapping) bookmarks1, true)
              end ;;
            let (bookmarksAfterRemoval, changesMade1) := removed : list Bookmark * bool in
            added <-
              match parentMapping with
              | None => ret (bookmarksAfterRemoval, changesMade1)
              | Some parentSyncedId =>
                  numContainers <-
                    countNativeContainersBeforeIndex (move_parentId changeData)
                                                     (move_index changeData) ;;
                  let index := move_index changeData - numContainers in
                  match bookmarkToRemove with
                  | None => throw TypeError
                  | Some toRemove =>
                      let bookmarkMetadata := Helper.extractBookmarkMetadata toRemove in
                      addBookmarkResult0 <-
                        lift (addBookmark bookmarkMetadata parentSyncedId index
                                          bookmarksAfterRemoval) ;;
                      (* [addBookmarkResult.bookmark.id = bookmarkToRemove.id]
                         writes into the node spliced into the tree *)
                      let addedBookmark := setId (id toRemove) (r_bookmark addBookmarkResult0) in
                      let addedBookmarks :=
                        Helper.updateAt (setId (id toRemove))
                                        (r_bookmarks addBookmarkResult0)
                                        (r_ref addBookmarkResult0) in
                      syncThisChange <-
                        checkIfBookmarkChangeShouldBeSynced (Some addedBookmark)
                                                            addedBookmarks ;;
                      if negb syncThisChange then ret (bookmarksAfterRemoval, changesMade1)
                      else
                        match movedBookmarkMapping with
                        | Some _ => ret (addedBookmarks, true)
                        | None =>
                            let idMapping :=
                              IdMapper.createMapping (id addedBookmark) (move_id changeData) in
                            idMapper_add idMapping ;;;
                            ret (addedBookmarks, true)
                        end
                  end
              end ;;
            let (updatedBookmarks, changesMade) := added : list Bookmark * bool in
            if negb changesMade then ret None else ret (Some updatedBookmarks)
        end
  end.


Section Modify.

(** [modifyBookmarkById] belongs to the bookmark helper service; its file is
    not among the sources and the spec does not describe it, so it is a
    parameter. *)
Variable modifyBookmarkById : Z -> BookmarkMetadata -> list Bookmark -> M (list Bookmark).


End Modify.

(** [getNativeBookmarkByTitle] *)
Definition getNativeBookmarkByTitle (t : string) : M (option NativeBookmark) :=
  if String.eqb t "" then ret None
  else
    results <- browser_search t ;;
    ret (hd_error results).

Fixpoint mapi {A B} (f : A -> nat -> B) (l : list A) (i : nat) : list B :=
  match l with
  | [] => []
  | x :: r => f x i :: mapi f r (S i)
  end.

Definition somes {A} (l : list (option A)) : list A :=
  flat_map (fun o => match o with Some x => [x] | None => [] end) l.

(** [reorderUnsupportedContainers] *)
Definition reorderUnsupportedContainers : M unit :=
  results <- all (map getNativeBookmarkByTitle (unsupportedContainers P)) ;;
  all (mapi (fun container index =>
               browser_move (n_id container)
                            (mkDest (Some (Z.of_nat index)) (n_parentId container)))
            (somes results) 0%nat) ;;;
  ret tt.

(** The tail of [processNativeBookmarkEventsQueue], from the moment
    [executeSync] has resolved:
    [disableEventListeners().then(reorderUnsupportedContainers).then(enableEventListeners)]. *)
Definition reorderAfterSync : M unit :=
  disableEventListeners ;;; reorderUnsupportedContainers ;;; enableEventListeners.

(** [processChangeTypeModifyOnNativeBookmarks] *)
Definition processChangeTypeModifyOnNativeBookmarks (syncedBookmarkId : Z)
           (updateInfo : BookmarkMetadata) : M unit :=
  idMapping <- idMapper_get None (Some syncedBookmarkId) ;;
  match idMapping with
  | None =>
      logWarning (MsgNoMappingForSyncedId syncedBookmarkId) ;;; ret tt
  | Some m =>
      modifyNativeBookmark (nativeId m) updateInfo ;;; ret tt
  end.

(* ================================================================== *)
(** ** Listener toggling of the background page (background.js)

    The calls on [chrome.bookmarks.on*] are taken as total, so the response
    handed to the callback always reports success.  The names are prefixed
    with [bg_] where the bookmark service has a method of the same name. *)

(** [disableEventListeners(sendResponse)] *)
Definition bg_disableEventListeners : M unit :=
  fun w => (Resolved tt, setListeners false (emit EvDisableListeners w)).

(** [enableEventListeners(sendResponse)]: detach first, then attach. *)
Definition bg_enableEventListeners : M unit :=
  bg_disableEventListeners ;;;
  (fun w => (Resolved tt, setListeners true (emit EvEnableListeners w))).

(** [platform.LocalStorage.Get(globals.CacheKeys.SyncEnabled)] *)
Definition getSyncEnabled : M bool :=
  fun w => (Resolved (w_syncEnabled w), w).

(** [toggleEventListeners(enable)]; [None] is a call without argument. *)
Definition toggleEventListeners (enable : option bool) : M unit :=
  syncEnabled <- match enable with
                 | None => getSyncEnabled
                 | Some e => ret e
                 end ;;
  if (syncEnabled : bool) then bg_enableEventListeners else bg_disableEventListeners.

(** The callback style of [chrome.bookmarks]: a failed call still invokes
    its callback, so the chain goes on. *)
Definition ignoreRejection {A} (m : M A) : M (option A) :=
  fun w => match m w with
           | (Resolved a, w1) => (Resolved (Some a), w1)
           | (Rejected _, w1) => (Resolved None, w1)
           end.

(** [convertLocalBookmarkToSeparator].  [LocalBookmarkInToolbar] belongs to
    the platform implementation; it is read as the test of the bookmark
    service, the parent being the toolbar root. *)
Definition convertLocalBookmarkToSeparator (bookmark : NativeBookmark)
  : M (option NativeBookmark) :=
  finally
    (toggleEventListeners (Some false) ;;;
     inToolbar <- isNativeBookmarkInToolbarContainer bookmark ;;
     let newTitle :=
       if (inToolbar : bool) then VerticalSeparatorTitle P else HorizontalSeparatorTitle P in
     let separator :=
       mkCreate (n_index bookmark) (n_parentId bookmark) (Some newTitle)
                (Some (getNewTabUrl P)) in
     ignoreRejection (browser_remove (n_id bookmark)) ;;;
     ignoreRejection (browser_create separator))
    (toggleEventListeners (Some true)).

(** The frame of [syncBookmarks]: listeners are switched off when the sync
    will write native bookmarks, [.finally(toggleEventListeners)] calls the
    toggle without argument.  [sync] stands for [bookmarks.Sync(syncData)]
    with its error handling (the [catch] before the [finally] turns every
    rejection into a response). *)
Definition syncBookmarks {A} (affectsLocalBookmarks : bool) (sync : M A) : M unit :=
  finally
    (catch
       ((if affectsLocalBookmarks then toggleEventListeners (Some false) else ret tt) ;;;
        sync ;;; ret tt)
       (fun _ => ret tt))
    (toggleEventListeners None).

(* ================================================================== *)
(** ** The bookmark service, continued: replaying canonical changes *)

(** [processChangeTypeAddOnNativeBookmarks]: the bookmark is created under
    the native root of the other container, without an index. *)
Definition processChangeTypeAddOnNativeBookmarks (syncedBookmarkId : Z)
           (createInfo : BookmarkMetadata) : M unit :=
  ids <- getNativeContainerIds ;;
  let otherBookmarksId := ids Other in
  newNativeBookmark <-
    createNativeBookmark otherBookmarksId (m_title createInfo) (m_url createInfo) None ;;
  let idMapping := IdMapper.createMapping syncedBookmarkId (n_id newNativeBookmark) in
  idMapper_add idMapping.

(** [processChangeTypeRemoveOnNativeBookmarks]; [remove(id)] is the call of
    the id mapper with one synced id. *)
Definition processChangeTypeRemoveOnNativeBookmarks (syncedBookmarkId : Z) : M unit :=
  idMapping <- idMapper_get None (Some syncedBookmarkId) ;;
  match idMapping with
  | None =>
      logWarning (MsgNoMappingForSyncedId syncedBookmarkId) ;;; ret tt
  | Some m =>
      removeNativeBookmarks (nativeId m) ;;; idMapper_remove [syncedBookmarkId]
  end.

(** [processChangeOnNativeBookmarks]; the [throw] of the default case is a
    rejection here, as every exception is. *)
Definition processChangeOnNativeBookmarks (syncedBookmarkId : Z)
           (changeType : BookmarkChangeType.t) (changeInfo : BookmarkMetadata) : M unit :=
  match changeType with
  | BookmarkChangeType.Add =>
      processChangeTypeAddOnNativeBookmarks syncedBookmarkId changeInfo
  | BookmarkChangeType.Modify =>
      processChangeTypeModifyOnNativeBookmarks syncedBookmarkId changeInfo
  | BookmarkChangeType.Remove =>
      processChangeTypeRemoveOnNativeBookmarks syncedBookmarkId
  | _ => throw AmbiguousSyncRequestException
  end.

(* ================================================================== *)
(** ** The bookmark service, continued: building the id mappings *)

(** [syncedBookmarks[index]], on an array that may be [undefined]; [None]
    is the [undefined] whose property the caller reads next. *)
Definition syncedAt (syncedBookmarks : option (list Bookmark)) (index : nat)
  : option Bookmark :=
  match syncedBookmarks with
  | None => None
  | Some l => nth_error l index
  end.

(** One round of the [reduce] of [mapIds], for the native node [val] and the
    canonical bookmark at its index: the mapping of the node, followed by
    the mappings of its children when it has some.  Reading [.id] or
    [.children] of a missing bookmark is a [TypeError]. *)
Fixpoint mapIdsOfNode (val : NativeBookmark) (synced : option Bookmark)
  : Result (list BookmarkIdMapping) :=
  match val with
  | mkNative valId _ _ _ _ c =>
      match synced with
      | None => Rejected TypeError
      | Some s =>
          let mapping := IdMapper.createMapping (id s) valId in
          match c with
          | Some (k :: r) =>
              match
                (fix go (l : list NativeBookmark) (index : nat)
                   : Result (list BookmarkIdMapping) :=
                   match l with
                   | [] => Resolved []
                   | x :: l' =>
                       match mapIdsOfNode x (syncedAt (children s) index) with
                       | Rejected e => Rejected e
                       | Resolved acc =>
                           match go l' (S index) with
                           | Rejected e => Rejected e
                           | Resolved rest => Resolved (acc ++ rest)
                           end
                       end
                   end) (k :: r) 0%nat
              with
              | Rejected e => Rejected e
              | Resolved sub => Resolved (mapping :: sub)
              end
          | _ => Resolved [mapping]
          end
      end
  end.

(** The [reduce] of [mapIds] from position [index] on. *)
Fixpoint mapIdsFrom (nativeBookmarks : list NativeBookmark)
         (syncedBookmarks : option (list Bookmark)) (index : nat)
  : Result (list BookmarkIdMapping) :=
  match nativeBookmarks with
  | [] => Resolved []
  | val :: r =>
      match mapIdsOfNode val (syncedAt syncedBookmarks index) with
      | Rejected e => Rejected e
      | Resolved acc =>
          match mapIdsFrom r syncedBookmarks (S index) with
          | Rejected e => Rejected e
          | Resolved rest => Resolved (acc ++ rest)
          end
      end
  end.

(** [mapIds], the local function of [buildIdMappings]. *)
Definition mapIds (nativeBookmarks : list NativeBookmark)
           (syncedBookmarks : option (list Bookmark)) : Result (list BookmarkIdMapping) :=
  mapIdsFrom nativeBookmarks syncedBookmarks 0%nat.

(** Modelled from the spec: [set] of the id mapper replaces the persisted
    table (section 6: get/set of the id-mapping table). *)
Definition idMapper_set (mappings : list BookmarkIdMapping) : M unit :=
  fun w => (Resolved tt, setIdMappings mappings w).

(** [node.children?.length === 0] *)
Definition hasNoChildren (node : NativeBookmark) : bool :=
  match n_children node with
  | Some [] => true
  | _ => false
  end.

(** The tail the four blocks of [buildIdMappings] share: the canonical
    container is looked up by title among the roots and, when it has
    children, [mapIds] pairs them with the native nodes ([undefined] nodes
    make [reduce] a [TypeError]). *)
Definition mapContainerIds (c : BookmarkContainer) (nodes : option (list NativeBookmark))
           (bookmarks : list Bookmark) : M (list BookmarkIdMapping) :=
  let container :=
    find (fun x => optEqb (title x) (Some (containerTitle c))) bookmarks in
  match container with
  | Some found =>
      match children found with
      | Some (k :: r) =>
          match nodes with
          | None => throw TypeError
          | Some ns => lift (mapIds ns (Some (k :: r)))
          end
      | _ => ret []
      end
  | None => ret []
  end.

(** [Object.values(nativeContainerIds)] *)
Definition nativeContainerIdValues (ids : BookmarkContainer -> option string)
  : list string :=
  somes (map ids allContainers).

(** [buildIdMappings] *)
Definition buildIdMappings (bookmarks : list Bookmark) : M unit :=
  results <-
    (ids <- getNativeContainerIds ;;
     let menuBookmarksId := ids Menu in
     let mobileBookmarksId := ids Mobile in
     let otherBookmarksId := ids Other in
     let toolbarBookmarksId := ids Toolbar in
     let getMenuBookmarks : M (list BookmarkIdMapping) :=
       match menuBookmarksId with
       | None => ret []
       | Some i =>
           subTree <- browser_getSubTree i ;;
           match subTree with
           | [] => throw TypeError
           | menuBookmarks :: _ =>
               if hasNoChildren menuBookmarks then ret []
               else mapContainerIds Menu (n_children menuBookmarks) bookmarks
           end
       end in
     let getMobileBookmarks : M (list BookmarkIdMapping) :=
       match mobileBookmarksId with
       | None => ret []
       | Some i =>
           subTree <- browser_getSubTree i ;;
           match subTree with
           | [] => throw TypeError
           | mobileBookmarks :: _ =>
               if hasNoChildren mobileBookmarks then ret []
               else mapContainerIds Mobile (n_children mobileBookmarks) bookmarks
           end
       end in
     let getOtherBookmarks : M (list BookmarkIdMapping) :=
       match otherBookmarksId with
       | None => ret []
       | Some i =>
           subTree <- browser_getSubTree i ;;
           match subTree with
           | [] => throw TypeError
           | otherBookmarks :: _ =>
               if hasNoChildren otherBookmarks then ret []
               else
                 match n_children otherBookmarks with
                 | None => throw TypeError       (* [undefined.filter] *)
                 | Some kids =>
                     let nodes :=
                       filter (fun x => negb (memS (n_id x) (nativeContainerIdValues ids)))
                              kids in
                     mapContainerIds Other (Some nodes) bookmarks
                 end
           end
       end in
     let getToolbarBookmarks : M (list BookmarkIdMapping) :=
       match toolbarBookmarksId with
       | None => ret []
       | Some i =>
           results <- browser_getSubTree i ;;
           syncToolbar <- syncBookmarksToolbar ;;
           if negb syncToolbar then ret []
           else
             match results with
             | [] => throw TypeError
             | toolbarBookmarks :: _ =>
                 if hasNoChildren toolbarBookmarks then ret []
                 else mapContainerIds Toolbar (n_children toolbarBookmarks) bookmarks
             end
       end in
     all [getMenuBookmarks; getMobileBookmarks; getOtherBookmarks; getToolbarBookmarks]) ;;
  let combinedMappings := List.concat results in
  idMapper_set combinedMappings.

(* ================================================================== *)
(** ** Restoring bookmarks (background.js) *)

(** [syncData.type === SyncType.Pull || syncData.type === SyncType.Both],
    the test of [syncBookmarks]. *)
Definition typeAffectsLocalBookmarks (t : SyncType.t) : bool :=
  match t with
  | SyncType.Pull | SyncType.Both => true
  | SyncType.Push => false
  end.

Section Restore.

(** [bookmarks.UpgradeContainers], [bookmarks.CheckBookmarksHaveUniqueIds],
    [platform.Bookmarks.AddIds] and [bookmarks.Sync] belong to files that
    are not among the sources: they are arbitrary here. *)
Variable UpgradeContainers : list Bookmark -> M (list Bookmark).
Variable CheckBookmarksHaveUniqueIds : list Bookmark -> bool.
Variable AddIds : list Bookmark -> M (list Bookmark).
Variable Sync : SyncData -> M (list Bookmark).

(** [restoreBookmarks]: the listeners are detached with
    [disableEventListeners], not with the toggle; [restoreData.bookmarks || []]
    is the array or, when it is missing, the empty one. *)
Definition restoreBookmarks (restoreData : SyncData) : M unit :=
  bg_disableEventListeners ;;;
  bookmarksToRestore <-
    (upgradedBookmarks <-
       UpgradeContainers (match sd_bookmarks restoreData with
                          | Some b => b
                          | None => []
                          end) ;;
     if negb (CheckBookmarksHaveUniqueIds upgradedBookmarks)
     then AddIds upgradedBookmarks
     else ret upgradedBookmarks) ;;
  let restoreData1 := mkSyncData (sd_type restoreData) (Some bookmarksToRestore) in
  syncBookmarks (typeAffectsLocalBookmarks (sd_type restoreData1)) (Sync restoreData1).

End Restore.

(** *** Notions used to state properties *)

(** What a conversion of native nodes hands out: the ids of the new
    bookmarks, in the order of the walk, are appended to [takenIds]; each of
    them is larger than every id of the tree and every id taken before. *)
Definition handsOut (bookmarks : list Bookmark) (takenIds : list Z)
           (converted : list Bookmark) (takenIds1 : list Z) : Prop :=
  takenIds1 = takenIds ++ Helper.allIds converted
  /\ (forall x y, In x (Helper.allIds converted) ->
                  In y (Helper.allIds bookmarks) \/ In y takenIds -> y < x)
  /\ NoDup (Helper.allIds converted).

(** A mapping that names a bookmark below the container [c] of the roots. *)
Definition mapsBelowContainer (bookmarks : list Bookmark) (c : BookmarkContainer)
           (m : BookmarkIdMapping) : Prop :=
  exists root, In root bookmarks
               /\ title root = Some (containerTitle c)
               /\ In (syncedId m) (getIdsFromDescendants root).

(** ... below a container that is synced in the world [w]. *)
Definition belowSynced (bookmarks : list Bookmark) (w : World)
           (m : BookmarkIdMapping) : Prop :=
  exists c, mapsBelowContainer bookmarks c m
            /\ (w_syncBookmarksToolbar w = false -> c <> Toolbar).

(** A computation that leaves the world as it is and yields such mappings. *)
Definition readsBelow (bookmarks : list Bookmark) (m : M (list BookmarkIdMapping))
  : Prop :=
  forall w, snd (m w) = w
            /\ forall ms, fst (m w) = Resolved ms -> Forall (belowSynced bookmarks w) ms.

(** The first hit of the title search for each unsupported container, in
    the order of [unsupportedContainers]; a title without a hit gives no
    entry. *)
Definition foundUnsupportedContainers (w : World) : list NativeBookmark :=
  somes (map (fun t =>
                if String.eqb t "" then None
                else match host_search api t (w_host w) with
                     | Resolved results => hd_error results
                     | Rejected _ => None
                     end)
             (unsupportedContainers P)).

(** A computation that sends no write to the native host, leaves the host
    as it is and does not touch the listeners. *)
Definition neverWritesNatively {A} (m : M A) : Prop :=
  forall w, w_host (snd (m w)) = w_host w
            /\ nativeWrites (w_events (snd (m w))) = nativeWrites (w_events w)
            /\ w_listeners (snd (m w)) = w_listeners w.

(** Whether the node lies under the toolbar root, and the separator title of
    its orientation and of the other one. *)
Definition inToolbar (bookmark : NativeBookmark) : bool :=
  optEqb (n_parentId bookmark) (nativeContainerIds P Toolbar).

Definition orientedTitle (bookmark : NativeBookmark) : string :=
  if inToolbar bookmark then VerticalSeparatorTitle P else HorizontalSeparatorTitle P.

Definition staleTitle (bookmark : NativeBookmark) : string :=
  if inToolbar bookmark then HorizontalSeparatorTitle P else VerticalSeparatorTitle P.

Definition isEnable (e : Event) : bool :=
  match e with EvEnableListeners => true | _ => false end.

(** A computation that neither touches the listeners nor runs
    [enableEventListeners]. *)
Definition leavesListeners {A} (m : M A) : Prop :=
  forall w, w_listeners (snd (m w)) = w_listeners w
            /\ filter isEnable (w_events (snd (m w))) = filter isEnable (w_events w).

End Engine.

Arguments leavesListeners {Host A} m.
Arguments neverWritesNatively {Host A} m.

(* ================================================================== *)
(** ** The queue of native events (part_000) *)

Section EventQueue.

(** The arguments a native event comes with. *)
Variable Args : Type.

Record QueuedEvent : Type := mkQueued {
  q_changeType : BookmarkChangeType.t;
  q_eventArgs : Args
}.

(** The queue and the timer field of the service, together with the timers
    of [$timeout] that are pending (handle and delay in ms); handles are
    handed out in order. *)
Record QueueState : Type := mkQueueState {
  nativeBookmarkEventsQueue : list QueuedEvent;
  processNativeBookmarkEventsTimeout : option nat;
  pendingTimeouts : list (nat * Z);
  nextTimeout : nat
}.

(** [$timeout.cancel(handle)]: a pending timer is dropped, a timer that has
    fired is left alone. *)
Definition timeout_cancel (handle : nat) (pending : list (nat * Z)) : list (nat * Z) :=
  filter (fun p => negb (Nat.eqb (fst p) handle)) pending.

(** [queueNativeBookmarkEvent] *)
Definition queueNativeBookmarkEvent (changeType : BookmarkChangeType.t)
           (eventArgs : Args) (s : QueueState) : QueueState :=
  let pending :=
    match processNativeBookmarkEventsTimeout s with
    | Some handle => timeout_cancel handle (pendingTimeouts s)
    | None => pendingTimeouts s
    end in
  mkQueueState (nativeBookmarkEventsQueue s ++ [mkQueued changeType eventArgs])
               (Some (nextTimeout s))
               (pending ++ [(nextTimeout s, 200)])
               (S (nextTimeout s)).

(** The timers that are pending all belong to the handle the service
    keeps: no timer of an earlier call is left running. *)
Definition ownsItsTimers (s : QueueState) : Prop :=
  forall p, In p (pendingTimeouts s) ->
            processNativeBookmarkEventsTimeout s = Some (fst p).

End EventQueue.

(* ================================================================== *)
(** ** Click handlers of notifications (background.js) *)

Section Notifications.

(** The closure a notification runs when it is clicked. *)
Variable Handler : Type.

Record NotificationClickHandler : Type := mkClickHandler {
  h_id : string;
  h_eventHandler : Handler
}.

(** [splice(index, 1)] *)
Definition removeAt {A} (index : nat) (l : list A) : list A :=
  firstn index l ++ skipn (S index) l.

(** [onNotificationClicked]: the handler that is run, if there is one; the
    array of handlers is not changed. *)
Definition onNotificationClicked (notificationId : string)
           (notificationClickHandlers : list NotificationClickHandler) : option Handler :=
  option_map h_eventHandler
             (find (fun x => String.eqb (h_id x) notificationId)
                   notificationClickHandlers).

(** [onNotificationClosed]: the array of handlers afterwards. *)
Definition onNotificationClosed (notificationId : string)
           (notificationClickHandlers : list NotificationClickHandler)
  : list NotificationClickHandler :=
  match Helper.findIndexFrom (fun x => String.eqb (h_id x) notificationId)
                             notificationClickHandlers 0%nat with
  | Some index => removeAt index notificationClickHandlers
  | None => notificationClickHandlers
  end.

End Notifications.

(* ================================================================== *)
(** ** [addBookmark] on a store of JavaScript objects

    The canonical tree is an array of objects, and [addBookmark] writes into
    an array ([splice]).  To tell which array is written, the objects live in
    a store here: a bookmark object is a [CNode] whose [children] field holds
    the address of a [CArray].  Addresses are positions in the store and
    allocation appends. *)
Module Heap.

Definition loc : Type := nat.

Record Node : Type := mkNode {
  o_id : Z;
  o_title : option string;
  o_url : option string;
  o_description : option string;
  o_tags : option (list string);
  o_children : option loc
}.

Inductive Cell : Type :=
| CNode (n : Node)
| CArray (elems : list loc).

Definition Heap : Type := list Cell.

Definition alloc (c : Cell) (h : Heap) : loc * Heap := (List.length h, h ++ [c]).

Fixpoint write (a : loc) (c : Cell) (h : Heap) : Heap :=
  match h, a with
  | [], _ => []
  | _ :: r, O => c :: r
  | x :: r, S n => x :: write n c r
  end.

(** Allocation of a tree of fresh objects (what a deep copy and
    [newBookmark] create). *)
Fixpoint allocBookmark (b : Bookmark) (h : Heap) : loc * Heap :=
  match b with
  | mkBookmark i t u d g c =>
      match c with
      | None => alloc (CNode (mkNode i t u d g None)) h
      | Some ks =>
          let (ls, h1) :=
            (fix go (l : list Bookmark) (h0 : Heap) : list loc * Heap :=
               match l with
               | [] => ([], h0)
               | k :: r =>
                   let (x, h1) := allocBookmark k h0 in
                   let (xs, h2) := go r h1 in
                   (x :: xs, h2)
               end) ks h in
          let (a, h2) := alloc (CArray ls) h1 in
          alloc (CNode (mkNode i t u d g (Some a))) h2
      end
  end.

Fixpoint allocBookmarks (l : list Bookmark) (h : Heap) : list loc * Heap :=
  match l with
  | [] => ([], h)
  | k :: r =>
      let (x, h1) := allocBookmark k h in
      let (xs, h2) := allocBookmarks r h1 in
      (x :: xs, h2)
  end.

Definition allocArray (l : list Bookmark) (h : Heap) : loc * Heap :=
  let (ls, h1) := allocBookmarks l h in
  alloc (CArray ls) h1.

Fixpoint traverse {A B} (f : A -> option B) (l : list A) : option (list B) :=
  match l with
  | [] => Some []
  | x :: r =>
      match f x, traverse f r with
      | Some y, Some ys => Some (y :: ys)
      | _, _ => None
      end
  end.

(** The value of an object: the tree reachable from it.  [fuel] bounds the
    nesting depth; a store with a cycle has no value. *)
Definition readNodeWith (rec : loc -> option (list Bookmark)) (h : Heap) (l : loc)
  : option Bookmark :=
  match nth_error h l with
  | Some (CNode n) =>
      match o_children n with
      | None =>
          Some (mkBookmark (o_id n) (o_title n) (o_url n) (o_description n) (o_tags n) None)
      | Some a =>
          option_map
            (fun ks => mkBookmark (o_id n) (o_title n) (o_url n) (o_description n)
                                  (o_tags n) (Some ks))
            (rec a)
      end
  | _ => None
  end.

Fixpoint readArray (fuel : nat) (h : Heap) (a : loc) : option (list Bookmark) :=
  match fuel with
  | O => None
  | S f =>
      match nth_error h a with
      | Some (CArray ls) => traverse (readNodeWith (readArray f h) h) ls
      | _ => None
      end
  end.

Definition readNode (fuel : nat) (h : Heap) (l : loc) : option Bookmark :=
  readNodeWith (readArray fuel h) h l.

(** Nesting is bounded by the number of cells. *)
Definition fuelFor (h : Heap) : nat := S (List.length h).

(** The object a reference of the tree value denotes. *)
Fixpoint nodeAt (h : Heap) (a : loc) (p : Helper.Ref) : option loc :=
  match p with
  | [] => None
  | n :: q =>
      match nth_error h a with
      | Some (CArray ls) =>
          match nth_error ls n with
          | None => None
          | Some l =>
              match q with
              | [] => Some l
              | _ :: _ =>
                  match nth_error h l with
                  | Some (CNode nd) =>
                      match o_children nd with
                      | Some a1 => nodeAt h a1 q
                      | None => None
                      end
                  | _ => None
                  end
              end
          end
      | _ => None
      end
  end.

(** [angular.copy(bookmarks)]: a deep copy made of fresh objects. *)
Definition copy (a : loc) (h : Heap) : option (loc * Heap) :=
  match readArray (fuelFor h) h a with
  | Some t => Some (allocArray t h)
  | None => None
  end.

(** Modelled from the spec: [findBookmarkById] on the store returns the
    object of the bookmark that carries the id. *)
Definition findBookmarkById (target : Z) (a : loc) (h : Heap) : option loc :=
  match readArray (fuelFor h) h a with
  | Some t =>
      match Helper.findBookmarkRef target t with
      | Some p => nodeAt h a p
      | None => None
      end
  | None => None
  end.

(** [addBookmark] with its reads and writes on the store.  The result holds
    the addresses of [bookmark] and of [bookmarks: updatedBookmarks]. *)
Definition addBookmark (bookmarkMetadata : BookmarkMetadata) (parentId : Z)
           (index : Z) (bookmarks : loc) (h : Heap) : Result (loc * loc) * Heap :=
  match copy bookmarks h with
  | None => (Rejected TypeError, h)
  | Some (updatedBookmarks, h1) =>
      match findBookmarkById parentId updatedBookmarks h1 with
      | None => (Rejected BookmarkNotFoundException, h1)
      | Some parent =>
          match readArray (fuelFor h1) h1 bookmarks with
          | None => (Rejected TypeError, h1)
          | Some t =>
              let (bookmark, h2) :=
                allocBookmark
                  (Helper.newBookmark (m_title bookmarkMetadata) (m_url bookmarkMetadata)
                                      (m_description bookmarkMetadata)
                                      (m_tags bookmarkMetadata)
                                      (m_isSeparator bookmarkMetadata) t) h1 in
              match nth_error h2 parent with
              | Some (CNode nd) =>
                  match o_children nd with
                  | None => (Rejected TypeError, h2)
                  | Some kidsArray =>
                      match nth_error h2 kidsArray with
                      | Some (CArray ls) =>
                          (Resolved (bookmark, updatedBookmarks),
                           write kidsArray (CArray (splice index bookmark ls)) h2)
                      | _ => (Rejected TypeError, h2)
                      end
                  end
              | _ => (Rejected TypeError, h2)
              end
          end
      end
  end.

(** The value of an object of the store: what reading gives with enough
    fuel. *)
Definition valueOfArray (h : Heap) (a : loc) (t : list Bookmark) : Prop :=
  exists F, forall fuel, (F <= fuel)%nat -> readArray fuel h a = Some t.

Definition valueOfNode (h : Heap) (l : loc) (b : Bookmark) : Prop :=
  exists F, forall fuel, (F <= fuel)%nat -> readNode fuel h l = Some b.


(** *** Predicates on stores used in the proofs *)

(** Every address a cell holds is at least [n]. *)
Definition cellAbove (n : nat) (c : Cell) : Prop :=
  match c with
  | CNode nd => match o_children nd with Some a => (n <= a)%nat | None => True end
  | CArray ls => Forall (le n) ls
  end.

Definition above (n : nat) (ext : Heap) : Prop := Forall (cellAbove n) ext.

(** Reading an object only looks at the cells it reaches. *)
Definition agree (h h1 : Heap) : Prop :=
  forall l c, nth_error h l = Some c -> nth_error h1 l = Some c.

(** Two stores hold the same cells at the addresses [lo .. hi - 1]. *)
Definition sameOn (lo hi : nat) (h h1 : Heap) : Prop :=
  forall x, (lo <= x < hi)%nat -> nth_error h1 x = nth_error h x.

(** How allocation lays a tree out: the objects of a bookmark fill the
    cells [lo .. l], the children first, then their array, then the bookmark
    object [l] itself. *)
Fixpoint layNode (h : Heap) (b : Bookmark) (lo : nat) (l : loc) {struct b} : Prop :=
  match b with
  | mkBookmark i t u d g None =>
      l = lo /\ nth_error h l = Some (CNode (mkNode i t u d g None))
  | mkBookmark i t u d g (Some ks) =>
      exists ls a,
        l = S a
        /\ nth_error h l = Some (CNode (mkNode i t u d g (Some a)))
        /\ nth_error h a = Some (CArray ls)
        /\ (fix lay (ks : list Bookmark) (lo : nat) (ls : list loc) {struct ks} : Prop :=
              match ks, ls with
              | [], [] => lo = a
              | k :: ks1, x :: ls1 => layNode h k lo x /\ lay ks1 (S x) ls1
              | _, _ => False
              end) ks lo ls
  end.

(** The elements [ls] of an array fill the cells [lo .. hi - 1]. *)
Fixpoint layList (h : Heap) (ks : list Bookmark) (lo : nat) (ls : list loc) (hi : nat)
  : Prop :=
  match ks, ls with
  | [], [] => lo = hi
  | k :: ks1, x :: ls1 => layNode h k lo x /\ layList h ks1 (S x) ls1 hi
  | _, _ => False
  end.

End Heap.

(* ================================================================== *)
(** ** A small host, platform and tree to run the definitions on *)
Module Sample.

(** A host that keeps a table of nodes; [failMove] makes [move] reject and
    [failCreate] makes [create] reject. *)
Record TableHost : Type := mkTableHost {
  nodes : list NativeBookmark;
  failMove : bool;
  failCreate : bool
}.

Definition lookup (nativeBookmarkId : string) (h : TableHost) : Result (list NativeBookmark) :=
  match find (fun n => String.eqb (n_id n) nativeBookmarkId) (nodes h) with
  | Some n => Resolved [n]
  | None => Rejected (HostError "Can't find bookmark for id.")
  end.

Definition tableApi : HostApi TableHost :=
  mkHostApi
    lookup
    lookup
    (fun t h => Resolved (filter (fun n => String.eqb (n_title n) t) (nodes h)))
    (fun d h =>
       if failCreate h then (Rejected (HostError "Can't create bookmark."), h)
       else (Resolved (mkNative "new" (c_parentId d) (c_index d)
                                (match c_title d with Some t => t | None => "" end)
                                (c_url d) None), h))
    (fun i c h =>
       match lookup i h with
       | Resolved (n :: _) =>
           (Resolved (mkNative (n_id n) (n_parentId n) (n_index n)
                               (match u_title c with Some t => t | None => n_title n end)
                               (match u_url c with Some u => Some u | None => n_url n end)
                               (n_children n)), h)
       | Resolved [] => (Rejected (HostError "Can't find bookmark for id."), h)
       | Rejected e => (Rejected e, h)
       end)
    (fun i h => (Resolved tt, h))
    (fun i h => (Resolved tt, h))
    (fun i d h =>
       if failMove h then (Rejected (HostError "Can't move bookmark."), h)
       else match lookup i h with
            | Resolved (n :: _) => (Resolved n, h)
            | Resolved [] => (Rejected (HostError "Can't find bookmark for id."), h)
            | Rejected e => (Rejected e, h)
            end).

Definition platform : Platform :=
  mkPlatform
    "chrome://newtab/"
    (fun u => String.prefix "http" u)
    (fun c => match c with
              | Toolbar => Some "1"
              | Other => Some "2"
              | Menu | Mobile => None
              end)
    (fun _ _ => false)
    "--------"
    "|"
    ["[xbs] Menu"; "[xbs] Mobile"].

Definition leaf (i : Z) (t u : string) : Bookmark :=
  mkBookmark i (Some t) (Some u) None None None.
Definition folder (i : Z) (t : string) (ks : list Bookmark) : Bookmark :=
  mkBookmark i (Some t) None None None (Some ks).

(** Toolbar holds three bookmarks; Other holds a bookmark and a folder with
    two bookmarks. *)
Definition bookmarkA : Bookmark := leaf 10 "A" "https://a.example".
Definition bookmarkB : Bookmark := leaf 11 "B" "https://b.example".
Definition bookmarkC : Bookmark := leaf 12 "C" "https://c.example".
Definition bookmarkX : Bookmark := leaf 3 "Example" "http://example.com".
Definition folderF : Bookmark :=
  folder 4 "Folder" [leaf 5 "P" "https://p.example"; leaf 6 "Q" "https://q.example"].

Definition tree : list Bookmark :=
  [ folder 1 "[xbs] Toolbar" [bookmarkA; bookmarkB; bookmarkC];
    folder 2 "[xbs] Other" [bookmarkX; folderF] ].

Definition nativeNodes : list NativeBookmark :=
  [ mkNative "1" (Some "0") (Some 0) "Bookmarks bar" None None;
    mkNative "2" (Some "0") (Some 1) "Other bookmarks" None None;
    mkNative "a" (Some "1") (Some 0) "A" (Some "https://a.example") None;
    mkNative "b" (Some "1") (Some 1) "B" (Some "https://b.example") None;
    mkNative "c" (Some "1") (Some 2) "C" (Some "https://c.example") None;
    mkNative "x" (Some "1") (Some 3) "Example" (Some "http://example.com") None;
    mkNative "f" (Some "2") (Some 0) "Folder" None None;
    mkNative "m" (Some "2") (Some 1) "[xbs] Menu" None None ].

Definition host : TableHost := mkTableHost nativeNodes false false.

(** A host that also answers [getSubTree]: the other root holds the menu
    folder, a bookmark and a folder of two bookmarks; the toolbar root holds
    three bookmarks.  On [chromePlatform] the menu folder is the native root
    of the menu container. *)
Definition otherChildren : list NativeBookmark :=
  [ mkNative "m" (Some "2") (Some 0) "[xbs] Menu" None (Some []);
    mkNative "x" (Some "2") (Some 1) "Example" (Some "http://example.com") None;
    mkNative "f" (Some "2") (Some 2) "Folder" None
             (Some [ mkNative "p" (Some "f") (Some 0) "P" (Some "https://p.example") None;
                     mkNative "q" (Some "f") (Some 1) "Q" (Some "https://q.example") None ]) ].

Definition toolbarChildren : list NativeBookmark :=
  [ mkNative "a" (Some "1") (Some 0) "A" (Some "https://a.example") None;
    mkNative "b" (Some "1") (Some 1) "B" (Some "https://b.example") None;
    mkNative "c" (Some "1") (Some 2) "C" (Some "https://c.example") None ].

Definition subTreeApi : HostApi TableHost :=
  mkHostApi
    (host_get tableApi)
    (fun i h =>
       if String.eqb i "2"
       then Resolved [mkNative "2" (Some "0") (Some 1) "Other bookmarks" None
                               (Some otherChildren)]
       else if String.eqb i "1"
            then Resolved [mkNative "1" (Some "0") (Some 0) "Bookmarks bar" None
                                    (Some toolbarChildren)]
            else if String.eqb i "m"
                 then Resolved [mkNative "m" (Some "2") (Some 0) "[xbs] Menu" None
                                         (Some [])]
                 else lookup i h)
    (host_search tableApi)
    (host_create tableApi)
    (host_update tableApi)
    (host_remove tableApi)
    (host_removeTree tableApi)
    (host_move tableApi).

Definition chromePlatform : Platform :=
  mkPlatform
    (getNewTabUrl platform)
    (urlIsSupported platform)
    (fun c => match c with
              | Menu => Some "m"
              | other => nativeContainerIds platform other
              end)
    (wasContainerChanged platform)
    (HorizontalSeparatorTitle platform)
    (VerticalSeparatorTitle platform)
    (unsupportedContainers platform).

Definition world (mappings : list BookmarkIdMapping) (syncToolbar syncEnabled : bool)
  : World TableHost :=
  mkWorld host mappings syncToolbar syncEnabled true [].

Definition fullMappings : list BookmarkIdMapping :=
  [ mkMapping 3 "x"; mkMapping 4 "f"; mkMapping 5 "p"; mkMapping 6 "q" ].


End Sample.

(* ================================================================== *)
(** * Properties *)

(** ** Induction on forests *)


Lemma forest_ind (Pf : list Bookmark -> Prop) :
  Pf [] ->
  (forall i t u d g c r,
      (forall ks, c = Some ks -> Pf ks) -> Pf r -> Pf (mkBookmark i t u d g c :: r)) ->
  forall l, Pf l.
Proof.
  intros Hn Hc.
  apply (bookmarks_ind2 (fun b => forall ks, children b = Some ks -> Pf ks) Pf).
  - exact Hn.
  - intros [i t u d g c] r Hb Hr. apply Hc; [|exact Hr].
    intros ks E. apply Hb. now subst.
  - intros i t u d g ks E. discriminate.
  - intros i t u d g ks Hks ks' E. simpl in E. now inversion E; subst.
Qed.

(** ** The helper service *)

Lemma findRefIn_unfold target i t u d g c :
  Helper.findRefIn target (mkBookmark i t u d g c) =
  if i =? target then Some []
  else match c with
       | None => None
       | Some ks => Helper.findBookmarkRef target ks
       end.
Proof.
  simpl. destruct (i =? target); [reflexivity|].
  destruct c as [ks|]; [|reflexivity].
  induction ks as [|k r IH]; simpl; [reflexivity|].
  destruct (Helper.findRefIn target k); [reflexivity|].
  now rewrite IH.
Qed.

Lemma removeIn_unfold target i t u d g c :
  Helper.removeIn target (mkBookmark i t u d g c) =
  mkBookmark i t u d g (option_map (Helper.removeBookmarkById target) c).
Proof.
  simpl. destruct c as [ks|]; [|reflexivity].
  simpl. do 2 f_equal.
  induction ks as [|k r IH]; simpl; [reflexivity|].
  destruct (id k =? target); now rewrite IH.
Qed.

Lemma flatten_unfold i t u d g c :
  Helper.flatten (mkBookmark i t u d g c) =
  mkBookmark i t u d g c ::
  match c with None => [] | Some ks => Helper.eachBookmark ks end.
Proof. reflexivity. Qed.

Lemma allIds_cons b r :
  Helper.allIds (b :: r) = map id (Helper.flatten b) ++ Helper.allIds r.
Proof. unfold Helper.allIds, Helper.eachBookmark. simpl. now rewrite map_app. Qed.

Lemma flatten_ids i t u d g c :
  map id (Helper.flatten (mkBookmark i t u d g c)) =
  i :: match c with None => [] | Some ks => Helper.allIds ks end.
Proof. rewrite flatten_unfold. simpl. now destruct c. Qed.

Lemma memZ_In x l : memZ x l = true <-> In x l.
Proof.
  unfold memZ. rewrite existsb_exists. split.
  - intros [y [Hy E]]. apply Z.eqb_eq in E. now subst.
  - intros H. exists x. split; [assumption | apply Z.eqb_refl].
Qed.

Lemma memZ_false x l : memZ x l = false <-> ~ In x l.
Proof.
  rewrite <- memZ_In. destruct (memZ x l); split; intros; congruence.
Qed.

(** [findBookmarkById] misses exactly the ids no bookmark of the tree has. *)
Lemma findBookmarkRef_None target l :
  Helper.findBookmarkRef target l = None <-> ~ In target (Helper.allIds l).
Proof.
  pattern l; apply forest_ind; clear l; [|intros i t u d g c r IHc IHr].
  - simpl. split; auto.
  - cbn [Helper.findBookmarkRef]. rewrite findRefIn_unfold, allIds_cons, flatten_ids.
    destruct (Z.eqb_spec i target) as [->|Hne].
    + split; [discriminate|]. intros H. exfalso. apply H. now left.
    + destruct c as [ks|].
      * specialize (IHc ks eq_refl).
        destruct (Helper.findBookmarkRef target ks) eqn:Eks.
        -- split; [discriminate|]. intros H. exfalso.
           assert (Hin : In target (Helper.allIds ks)).
           { destruct (in_dec Z.eq_dec target (Helper.allIds ks)) as [Hi|Hn]; auto.
             apply IHc in Hn. discriminate. }
           apply H. right. apply in_or_app. now left.
        -- assert (Hks : ~ In target (Helper.allIds ks)) by now apply IHc.
           destruct (Helper.findBookmarkRef target r) eqn:Er; simpl.
           ++ split; [discriminate|]. intros H. exfalso.
              assert (Hin : In target (Helper.allIds r)).
              { destruct (in_dec Z.eq_dec target (Helper.allIds r)) as [Hi|Hn]; auto.
                apply IHr in Hn. discriminate. }
              apply H. right. apply in_or_app. now right.
           ++ split; [|reflexivity]. intros _ [E|Hin]; [congruence|].
              apply in_app_or in Hin. destruct Hin as [Hin|Hin]; [now apply Hks|].
              now apply IHr in Hin.
      * destruct (Helper.findBookmarkRef target r) eqn:Er; simpl.
        -- split; [discriminate|]. intros H. exfalso.
           assert (Hin : In target (Helper.allIds r)).
           { destruct (in_dec Z.eq_dec target (Helper.allIds r)) as [Hi|Hn]; auto.
             apply IHr in Hn. discriminate. }
           apply H. right. now simpl.
        -- split; [|reflexivity]. intros _ [E|Hin]; [congruence|].
           simpl in Hin. now apply IHr in Hin.
Qed.

Lemma findBookmarkRef_nonempty target l p :
  Helper.findBookmarkRef target l = Some p -> exists n q, p = n :: q.
Proof.
  revert p. induction l as [|k r IH]; intros p; simpl; [discriminate|].
  destruct (Helper.findRefIn target k) as [q|].
  - intros E. inversion E. unfold Helper.here. eauto.
  - destruct (Helper.findBookmarkRef target r) as [q|]; simpl; [|discriminate].
    intros E. inversion E. destruct (IH q eq_refl) as [n [q' ->]].
    simpl. eauto.
Qed.

Lemma deref_shift k r p :
  Helper.deref (k :: r) (Helper.shift p) = Helper.deref r p.
Proof. destruct p as [|n q]; reflexivity. Qed.

(** A found reference denotes a bookmark that carries the id. *)
Lemma findBookmarkRef_deref target l :
  forall p, Helper.findBookmarkRef target l = Some p ->
            exists b, Helper.deref l p = Some b /\ id b = target.
Proof.
  pattern l; apply forest_ind; clear l; [|intros i t u d g c r IHc IHr]; intros p.
  - discriminate.
  - cbn [Helper.findBookmarkRef]. rewrite findRefIn_unfold.
    destruct (Z.eqb_spec i target) as [->|Hne].
    + intros E. inversion E. simpl. eauto.
    + destruct c as [ks|].
      * destruct (Helper.findBookmarkRef target ks) as [q|] eqn:Eks.
        -- intros E. inversion E. subst p.
           destruct (IHc ks eq_refl q Eks) as [b [Hb Hid]].
           destruct (findBookmarkRef_nonempty _ _ Eks) as [n [q' ->]].
           exists b. split; [|assumption]. simpl. exact Hb.
        -- destruct (Helper.findBookmarkRef target r) as [q|] eqn:Er; simpl; [|discriminate].
           intros E. inversion E. rewrite deref_shift. now apply IHr.
      * destruct (Helper.findBookmarkRef target r) as [q|] eqn:Er; simpl; [|discriminate].
        intros E. inversion E. rewrite deref_shift. now apply IHr.
Qed.

Lemma findBookmarkById_id target l b :
  Helper.findBookmarkById target l = Some b -> id b = target.
Proof.
  unfold Helper.findBookmarkById.
  destruct (Helper.findBookmarkRef target l) as [p|] eqn:E; [|discriminate].
  destruct (findBookmarkRef_deref _ _ E) as [b' [Hb Hid]].
  rewrite Hb. intros H. now inversion H; subst.
Qed.

Lemma findBookmarkById_None target l :
  Helper.findBookmarkById target l = None <-> ~ In target (Helper.allIds l).
Proof.
  rewrite <- findBookmarkRef_None. unfold Helper.findBookmarkById.
  destruct (Helper.findBookmarkRef target l) as [p|] eqn:E.
  - destruct (findBookmarkRef_deref _ _ E) as [b [Hb _]]. rewrite Hb.
    split; discriminate.
  - split; reflexivity.
Qed.

Lemma nth_error_mapNth {A} (g : A -> A) l n :
  nth_error (Helper.mapNth n g l) n = option_map g (nth_error l n).
Proof.
  revert n. induction l as [|x r IH]; intros [|n]; simpl; auto.
Qed.

(** Reading back through the reference a write went through. *)
Lemma deref_updateAt f p :
  forall l, Helper.deref (Helper.updateAt f l p) p = option_map f (Helper.deref l p).
Proof.
  induction p as [|n q IH]; intros l; [reflexivity|].
  cbn [Helper.updateAt Helper.deref]. rewrite nth_error_mapNth.
  destruct (nth_error l n) as [b|]; [|reflexivity].
  cbn [option_map]. destruct q as [|m q']; [reflexivity|].
  destruct (children b) as [ks|] eqn:Ek.
  - destruct b as [i t u d g c]. simpl in Ek. subst c. cbn [setChildren children].
    apply IH.
  - now rewrite Ek.
Qed.

Lemma deref_snoc k :
  forall p l b ks,
    Helper.deref l p = Some b -> children b = Some ks ->
    Helper.deref l (p ++ [k]) = nth_error ks k.
Proof.
  induction p as [|n q IH]; intros l b ks Hd Hk; [discriminate|].
  cbn [Helper.deref app] in *.
  destruct (nth_error l n) as [x|]; [|discriminate].
  destruct q as [|m q'].
  - inversion Hd; subst x. simpl. rewrite Hk.
    destruct (nth_error ks k); reflexivity.
  - cbn [app]. destruct (children x) as [xs|]; [|discriminate].
    change (m :: q' ++ [k]) with ((m :: q') ++ [k]). eapply IH; eauto.
Qed.

(** ** [splice] *)

Lemma spliceStart_le {A} index (l : list A) : (spliceStart index l <= List.length l)%nat.
Proof. unfold spliceStart. destruct (Z.ltb_spec index 0); lia. Qed.

Lemma splice_nth {A} index (x : A) l :
  nth_error (splice index x l) (spliceStart index l) = Some x.
Proof.
  unfold splice. pose proof (spliceStart_le index l) as H.
  rewrite nth_error_app2; rewrite length_firstn, Nat.min_l by assumption; [|lia].
  now rewrite Nat.sub_diag.
Qed.

Lemma spliceStart_in_range {A} index (l : list A) :
  0 <= index <= Z.of_nat (List.length l) -> spliceStart index l = Z.to_nat index.
Proof. intros H. unfold spliceStart. destruct (Z.ltb_spec index 0); lia. Qed.

Lemma splice_length {A} index (x : A) l :
  List.length (splice index x l) = S (List.length l).
Proof.
  unfold splice. rewrite length_app. simpl. rewrite length_firstn, length_skipn.
  pose proof (spliceStart_le index l). lia.
Qed.

(* ================================================================== *)
(** ** [addBookmark] *)

(** C5, as stated, fails on the code: the bookmark is not always at the
    given index.  In the sample tree the container with id 2 has two
    children; adding at index 7 puts the new bookmark at position 2 and
    leaves position 7 empty.  And a parent that exists but has no child
    array (the bookmark with id 3) makes the call fail, with a [TypeError]. *)
Lemma addBookmark_not_always_at_given_index :
  (exists r parent kids,
      addBookmark (mkMetadata (Some "N") (Some "http://n.example") None None false)
                  2 7 Sample.tree = Resolved r
      /\ Helper.findBookmarkById 2 (r_bookmarks r) = Some parent
      /\ children parent = Some kids
      /\ nth_error kids 7 = None
      /\ nth_error kids 2 = Some (r_bookmark r))
  /\ In 3 (Helper.allIds Sample.tree)
  /\ addBookmark (mkMetadata (Some "N") (Some "http://n.example") None None false)
                 3 0 Sample.tree = Rejected TypeError.
Proof.
  split; [|split].
  - eexists. eexists. eexists.
    split; [reflexivity|]. split; [reflexivity|]. split; [reflexivity|].
    split; reflexivity.
  - vm_compute. tauto.
  - reflexivity.
Qed.

(** C5 (amended): [addBookmark] fails with [BookmarkNotFoundException]
    exactly when no bookmark of the tree has the id [parentId].  When the
    parent exists and has a child array, the result holds the new bookmark
    and a tree in which the parent's children are the old ones with the new
    bookmark spliced in: at the given index when it lies between 0 and the
    number of children, otherwise at the position [splice] clamps it to
    (the end for an index past the children, the index counted back from
    the end, and not before the front, for a negative one).  Nothing else
    of the tree differs.  A parent without a child array makes the call
    fail with a [TypeError]. *)
Theorem addBookmark_parent_lookup_and_insertion
        (bookmarkMetadata : BookmarkMetadata) (parentId index : Z)
        (bookmarks : list Bookmark) :
  let created :=
    Helper.newBookmark (m_title bookmarkMetadata) (m_url bookmarkMetadata)
                       (m_description bookmarkMetadata) (m_tags bookmarkMetadata)
                       (m_isSeparator bookmarkMetadata) bookmarks in
  match Helper.findBookmarkById parentId bookmarks with
  | None =>
      ~ In parentId (Helper.allIds bookmarks)
      /\ addBookmark bookmarkMetadata parentId index bookmarks
         = Rejected BookmarkNotFoundException
  | Some parent =>
      In parentId (Helper.allIds bookmarks)
      /\ id parent = parentId
      /\ match children parent with
         | None =>
             addBookmark bookmarkMetadata parentId index bookmarks = Rejected TypeError
         | Some kids =>
             exists p updated,
               Helper.findBookmarkRef parentId bookmarks = Some p
               /\ addBookmark bookmarkMetadata parentId index bookmarks
                  = Resolved (mkUpdateResult created updated (p ++ [spliceStart index kids]))
               /\ Helper.deref updated p
                  = Some (setChildren (Some (splice index created kids)) parent)
               /\ Helper.deref updated (p ++ [spliceStart index kids]) = Some created
               /\ nth_error (splice index created kids) (spliceStart index kids)
                  = Some created
               /\ List.length (splice index created kids) = S (List.length kids)
               /\ (if (0 <=? index) && (index <=? Z.of_nat (List.length kids))
                   then spliceStart index kids = Z.to_nat index
                   else (spliceStart index kids <= List.length kids)%nat)
               /\ updated
                  = Helper.updateAt (setChildren (Some (splice index created kids)))
                                    bookmarks p
               /\ (Z.of_nat (List.length kids) < index ->
                   spliceStart index kids = List.length kids)
               /\ (index < 0 ->
                   spliceStart index kids
                   = Z.to_nat (Z.max (Z.of_nat (List.length kids) + index) 0))
         end
  end.
Proof.
  intros created.
  destruct (Helper.findBookmarkById parentId bookmarks) as [parent|] eqn:Efind.
  - assert (Hin : In parentId (Helper.allIds bookmarks)).
    { destruct (in_dec Z.eq_dec parentId (Helper.allIds bookmarks)) as [H|H]; auto.
      apply findBookmarkById_None in H. congruence. }
    split; [exact Hin|]. split; [now apply findBookmarkById_id in Efind|].
    unfold Helper.findBookmarkById in Efind.
    destruct (Helper.findBookmarkRef parentId bookmarks) as [p|] eqn:Eref; [|discriminate].
    unfold addBookmark, angular_copy. rewrite Eref, Efind.
    destruct (children parent) as [kids|] eqn:Ekids; [|reflexivity].
    exists p. eexists. split; [reflexivity|]. split; [reflexivity|].
    assert (Hd : Helper.deref
                   (Helper.updateAt (setChildren (Some (splice index created kids)))
                                    bookmarks p) p
                 = Some (setChildren (Some (splice index created kids)) parent)).
    { now rewrite deref_updateAt, Efind. }
    split; [exact Hd|].
    split.
    { erewrite deref_snoc; [apply splice_nth | exact Hd |].
      now destruct parent. }
    split; [apply splice_nth|]. split; [apply splice_length|].
    split.
    { destruct ((0 <=? index) && (index <=? Z.of_nat (List.length kids))) eqn:E.
      + apply andb_true_iff in E. destruct E as [E1 E2].
        apply spliceStart_in_range. lia.
      + apply spliceStart_le. }
    split; [reflexivity|].
    unfold spliceStart.
    split; intros H; destruct (Z.ltb_spec index 0); lia.
  - split; [now apply findBookmarkById_None|].
    unfold Helper.findBookmarkById in Efind. unfold addBookmark, angular_copy.
    destruct (Helper.findBookmarkRef parentId bookmarks) as [p|] eqn:Eref; [|reflexivity].
    destruct (findBookmarkRef_deref _ _ Eref) as [b [Hb _]]. congruence.
Qed.

(* ================================================================== *)
(** ** Native writes *)

Section NativeWrites.

Variable Host : Type.
Variable api : HostApi Host.
Variable P : Platform.

Lemma nativeWrites_app l1 l2 : nativeWrites (l1 ++ l2) = nativeWrites l1 ++ nativeWrites l2.
Proof. apply filter_app. Qed.

(** C10: whatever the id and the metadata, [modifyNativeBookmark] sends the
    host one write, an update that carries the new title and no url; the
    url of the metadata does not reach the host. *)
Theorem modifyNativeBookmark_sends_title_only
        (nativeBookmarkId : string) (newMetadata : BookmarkMetadata) (w : World Host) :
  let sent := mkUpdate (m_title newMetadata) None in
  let out := modifyNativeBookmark api P nativeBookmarkId newMetadata w in
  nativeWrites (w_events (snd out))
  = nativeWrites (w_events w) ++ [EvUpdate nativeBookmarkId sent]
  /\ w_host (snd out) = snd (host_update api nativeBookmarkId sent (w_host w))
  /\ fst out
     = match fst (host_update api nativeBookmarkId sent (w_host w)) with
       | Resolved n => Resolved n
       | Rejected e => Rejected (FailedUpdateNativeBookmarksException e)
       end.
Proof.
  intros sent out. subst out sent.
  unfold modifyNativeBookmark, bind, catch, ret, browser_update, logInfo, throw.
  cbn [u_url u_title].
  destruct (host_update api nativeBookmarkId (mkUpdate (m_title newMetadata) None) (w_host w))
    as [[n|e] h]; cbn [fst snd w_events w_host setHost emit];
    rewrite ?nativeWrites_app; cbn [nativeWrites filter isNativeWrite app];
    rewrite ?app_nil_r; auto.
Qed.

(** C9: for every url, [createNativeBookmark] asks the host to create the
    bookmark with the url itself when the platform supports it and with the
    new-tab url otherwise, logging the substitution; the call then succeeds
    or fails as the host's [create] does on those details, so an unsupported
    url does not make it fail, and the host is left in the state that
    [create] produced: the bookmark is created there.  That [create] is the
    only write sent to the host, and the id mappings, the settings and the
    listeners are not touched. *)
Theorem createNativeBookmark_substitutes_unsupported_url
        (parentId t : option string) (u : string) (index : option Z) (w : World Host) :
  let sent :=
    mkCreate index parentId t
             (Some (if urlIsSupported P u then u else getNewTabUrl P)) in
  let substitution :=
    if urlIsSupported P u then []
    else [EvLogInfo (MsgText ("Bookmark url unsupported: " ++ u))] in
  let out := createNativeBookmark api P parentId t (Some u) index w in
  fst out
  = match fst (host_create api sent (w_host w)) with
    | Resolved n => Resolved n
    | Rejected e => Rejected (FailedCreateNativeBookmarksException e)
    end
  /\ w_events (snd out)
     = w_events w ++ substitution ++ EvCreate sent ::
       match fst (host_create api sent (w_host w)) with
       | Resolved _ => []
       | Rejected _ => [EvLogWarning (MsgFailedCreate sent)]
       end
  /\ nativeWrites (w_events (snd out)) = nativeWrites (w_events w) ++ [EvCreate sent]
  /\ w_host (snd out) = snd (host_create api sent (w_host w))
  /\ w_idMappings (snd out) = w_idMappings w
  /\ w_syncBookmarksToolbar (snd out) = w_syncBookmarksToolbar w
  /\ w_syncEnabled (snd out) = w_syncEnabled w
  /\ w_listeners (snd out) = w_listeners w.
Proof.
  intros sent substitution out. subst out substitution sent.
  unfold createNativeBookmark, getSupportedUrl, bind, catch, ret, browser_create,
    logInfo, logWarning, throw.
  destruct (urlIsSupported P u); cbn [negb];
    cbn [fst snd w_events w_host setHost emit];
    match goal with
    | |- context [host_create api ?d ?h] => destruct (host_create api d h) as [[n|e] h1]
    end;
    cbn [fst snd w_events w_host w_idMappings w_syncBookmarksToolbar w_syncEnabled
         w_listeners setHost emit];
    rewrite <- ?app_assoc; cbn [app];
    repeat split; try reflexivity;
    rewrite ?nativeWrites_app; cbn [nativeWrites filter isNativeWrite app];
    rewrite ?app_nil_r; reflexivity.
Qed.

End NativeWrites.

(* ================================================================== *)
(** ** Moving a container *)

Section MoveOfContainer.

Variable Host : Type.
Variable api : HostApi Host.
Variable P : Platform.

(** C6: when the native node that moved is itself a reserved container,
    [processChangeTypeMoveOnBookmarks] rejects with
    [ContainerChangedException] if the old and the new parent differ; if they
    are the same it resolves without a tree to sync, and leaves the world
    (the id mappings among it) as it was. *)
Theorem processChangeTypeMoveOnBookmarks_container
        (bookmarks : list Bookmark) (changeData : MoveNativeBookmarkChangeData)
        (w : World Host) (movedBookmark : NativeBookmark) (others : list NativeBookmark) :
  host_get api (move_id changeData) (w_host w) = Resolved (movedBookmark :: others) ->
  Helper.bookmarkIsContainer movedBookmark = true ->
  (move_oldParentId changeData <> move_parentId changeData ->
   processChangeTypeMoveOnBookmarks api P bookmarks changeData w
   = (Rejected ContainerChangedException, w))
  /\ (move_oldParentId changeData = move_parentId changeData ->
      processChangeTypeMoveOnBookmarks api P bookmarks changeData w
      = (Resolved None, w)).
Proof.
  intros Hget Hcont.
  unfold processChangeTypeMoveOnBookmarks, bind, browser_get.
  rewrite Hget, Hcont. split; intros H.
  - apply String.eqb_neq in H. now rewrite H.
  - apply String.eqb_eq in H. now rewrite H.
Qed.

End MoveOfContainer.

(** The native folder titled as the menu container is repositioned inside
    its parent, then moved to another parent. *)
Lemma processChangeTypeMoveOnBookmarks_container_witness :
  processChangeTypeMoveOnBookmarks Sample.tableApi Sample.platform Sample.tree
      (mkMove "m" 0 1 "2" "1") (Sample.world Sample.fullMappings true true)
  = (Rejected ContainerChangedException, Sample.world Sample.fullMappings true true)
  /\ processChangeTypeMoveOnBookmarks Sample.tableApi Sample.platform Sample.tree
      (mkMove "m" 0 1 "2" "2") (Sample.world Sample.fullMappings true true)
     = (Resolved None, Sample.world Sample.fullMappings true true).
Proof.
  split.
  - apply (processChangeTypeMoveOnBookmarks_container
             Sample.tableApi Sample.platform Sample.tree (mkMove "m" 0 1 "2" "1")
             (Sample.world Sample.fullMappings true true)
             (movedBookmark := mkNative "m" (Some "2") (Some 1) "[xbs] Menu" None None)
             (others := [])); [reflexivity | reflexivity | discriminate].
  - apply (processChangeTypeMoveOnBookmarks_container
             Sample.tableApi Sample.platform Sample.tree (mkMove "m" 0 1 "2" "2")
             (Sample.world Sample.fullMappings true true)
             (movedBookmark := mkNative "m" (Some "2") (Some 1) "[xbs] Menu" None None)
             (others := [])); reflexivity.
Defined.

(* ================================================================== *)
(** ** Separators *)

Section Separators.

Variable Host : Type.
Variable api : HostApi Host.
Variable P : Platform.

(** On a node that carries the new-tab url the three cases are the ones of
    section 4.7: nothing is written when the title is the one of the
    orientation, the title alone is updated when it is the one of the other
    orientation, and the node is removed and created again otherwise. *)
Lemma convertNativeBookmarkToSeparator_on_new_tab_url (bookmark : NativeBookmark)
      (w : World Host) :
  n_url bookmark = Some (getNewTabUrl P) ->
  let out := convertNativeBookmarkToSeparator api P bookmark w in
  nativeWrites (w_events (snd out)) =
  nativeWrites (w_events w) ++
  if String.eqb (n_title bookmark) (orientedTitle P bookmark) then []
  else if String.eqb (n_title bookmark) (staleTitle P bookmark)
       then [EvUpdate (n_id bookmark) (mkUpdate (Some (orientedTitle P bookmark)) None)]
       else [EvRemove (n_id bookmark)]
            ++ match fst (host_remove api (n_id bookmark) (w_host w)) with
               | Resolved _ =>
                   [EvCreate (mkCreate (n_index bookmark) (n_parentId bookmark)
                                       (Some (orientedTitle P bookmark))
                                       (Some (getNewTabUrl P)))]
               | Rejected _ => []
               end.
Proof.
  intros Hurl out. subst out.
  unfold convertNativeBookmarkToSeparator, isNativeBookmarkInToolbarContainer,
    getNativeContainerIds, orientedTitle, staleTitle, inToolbar,
    bind, ret, finally, disableEventListeners, enableEventListeners,
    browser_update, browser_remove, browser_create.
  rewrite Hurl. cbn [optEqb]. rewrite String.eqb_refl.
  destruct (optEqb (n_parentId bookmark) (nativeContainerIds P Toolbar));
    cbn [andb orb negb];
    destruct (String.eqb (n_title bookmark) (VerticalSeparatorTitle P));
    destruct (String.eqb (n_title bookmark) (HorizontalSeparatorTitle P));
    cbn [andb orb negb fst snd w_events w_host setHost setListeners emit];
    rewrite ?app_nil_r; try reflexivity;
    repeat match goal with
           | |- context [host_update api ?a ?b ?c] =>
               destruct (host_update api a b c) as [[?|?] ?]
           | |- context [host_remove api ?a ?c] =>
               destruct (host_remove api a c) as [[?|?] ?]
           | |- context [host_create api ?a ?c] =>
               destruct (host_create api a c) as [[?|?] ?]
           | _ => progress cbn [andb orb negb fst snd w_events w_host setHost
                                  setListeners emit]
           end;
    rewrite ?nativeWrites_app; cbn [nativeWrites filter isNativeWrite app];
    rewrite ?app_nil_r, <- ?app_assoc; reflexivity.
Qed.

(** Under the toolbar root the vertical title alone stops the conversion,
    whatever the url of the node. *)
Lemma convertNativeBookmarkToSeparator_toolbar_title_alone (bookmark : NativeBookmark)
      (w : World Host) :
  inToolbar P bookmark = true ->
  n_title bookmark = VerticalSeparatorTitle P ->
  convertNativeBookmarkToSeparator api P bookmark w = (Resolved bookmark, w).
Proof.
  intros Hin Ht.
  unfold convertNativeBookmarkToSeparator, isNativeBookmarkInToolbarContainer,
    getNativeContainerIds, bind, ret.
  unfold inToolbar in Hin. rewrite Hin, Ht, String.eqb_refl.
  cbn [andb orb negb]. now rewrite andb_false_r.
Qed.

(** Whenever the conversion switches the listeners off, its [finally] runs
    [enableEventListeners]: on every path, a failed write included, the
    listeners end as the persisted flag wants them. *)
Lemma convertNativeBookmarkToSeparator_restores_listeners (bookmark : NativeBookmark)
      (w : World Host) :
  let out := convertNativeBookmarkToSeparator api P bookmark w in
  snd out = w \/ w_listeners (snd out) = w_syncEnabled (snd out).
Proof.
  intros out. subst out.
  unfold convertNativeBookmarkToSeparator, isNativeBookmarkInToolbarContainer,
    getNativeContainerIds, bind, ret, finally, disableEventListeners,
    enableEventListeners, browser_update, browser_remove, browser_create.
  match goal with
  | |- context [if ?c then _ else _] => destruct c
  end; [now left|right].
  match goal with
  | |- context [if ?c then _ else _] => destruct c
  end;
    repeat match goal with
           | |- context [host_update api ?a ?b ?c] =>
               destruct (host_update api a b c) as [[?|?] ?]
           | |- context [host_remove api ?a ?c] =>
               destruct (host_remove api a c) as [[?|?] ?]
           | |- context [host_create api ?a ?c] =>
               destruct (host_create api a c) as [[?|?] ?]
           | _ => progress cbn [fst snd w_events w_host w_listeners w_syncEnabled
                                  setHost setListeners emit]
           end; reflexivity.
Qed.

End Separators.

(** C7 fails on the code at a node that is no separator: a bookmark under
    the toolbar root whose title is the vertical separator title and whose
    url is an ordinary page.  Its url is not the new-tab url, so the claim
    has it removed and created again; the code returns it as it is and
    writes nothing.  Outside the toolbar the same node only gets its title
    updated and keeps its url. *)
Theorem convertNativeBookmarkToSeparator_title_decides_without_url :
  let underToolbar :=
    mkNative "s" (Some "1") (Some 1) "|" (Some "https://example.com") None in
  let underOther :=
    mkNative "s" (Some "2") (Some 1) "|" (Some "https://example.com") None in
  let w := Sample.world [] true true in
  convertNativeBookmarkToSeparator Sample.tableApi Sample.platform underToolbar w
  = (Resolved underToolbar, w)
  /\ nativeWrites
       (w_events
          (snd (convertNativeBookmarkToSeparator Sample.tableApi Sample.platform
                                                 underOther w)))
     = [EvUpdate "s" (mkUpdate (Some "--------") None)].
Proof. split; reflexivity. Qed.

(* ================================================================== *)
(** ** Listener state after the engine's own writes *)

Section Listeners.

Variable Host : Type.
Variable api : HostApi Host.
Variable P : Platform.

(** [syncBookmarks] of the background page ends with
    [.finally(toggleEventListeners)]: whatever the sync did, the listeners
    end as the persisted flag says. *)
Lemma syncBookmarks_respects_sync_enabled {A} (affectsLocalBookmarks : bool)
      (sync : M Host A) (w : World Host) :
  let w1 := snd (syncBookmarks affectsLocalBookmarks sync w) in
  w_listeners w1 = w_syncEnabled w1.
Proof.
  intros w1. subst w1.
  unfold syncBookmarks, finally.
  match goal with
  | |- context [catch ?m ?h w] => destruct (catch m h w) as [r w2]
  end.
  unfold toggleEventListeners, getSyncEnabled, bind,
    bg_enableEventListeners, bg_disableEventListeners.
  destruct (w_syncEnabled w2) eqn:E; unfold bind;
    cbn [fst snd w_listeners w_syncEnabled setListeners emit]; now rewrite E.
Qed.

(** [convertLocalBookmarkToSeparator] of the background page ends with
    [toggleEventListeners(true)]: the listeners end attached, whatever the
    persisted flag says. *)
Lemma convertLocalBookmarkToSeparator_always_enables (bookmark : NativeBookmark)
      (w : World Host) :
  let w1 := snd (convertLocalBookmarkToSeparator api P bookmark w) in
  w_listeners w1 = true /\ w_syncEnabled w1 = w_syncEnabled w.
Proof.
  intros w1. subst w1.
  cbv beta iota zeta delta
      [convertLocalBookmarkToSeparator finally bind ret toggleEventListeners
       bg_enableEventListeners bg_disableEventListeners ignoreRejection
       isNativeBookmarkInToolbarContainer getNativeContainerIds
       browser_remove browser_create].
  repeat match goal with
         | |- context [host_remove api ?a ?c] =>
             destruct (host_remove api a c) as [[?|?] ?]
         | |- context [host_create api ?a ?c] =>
             destruct (host_create api a c) as [[?|?] ?]
         | _ => progress cbn [fst snd w_events w_host w_listeners w_syncEnabled
                                setHost setListeners emit]
         end; split; reflexivity.
Qed.

Lemma leavesListeners_all {A} (ms : list (M Host A)) :
  Forall leavesListeners ms -> leavesListeners (all ms).
Proof.
  induction 1 as [|m r Hm Hr IH]; intros w; cbn [all].
  - now split.
  - destruct (Hm w) as [H1 H2]. destruct (m w) as [[a|e] w1]; cbn [snd] in *.
    + destruct (IH w1) as [H3 H4]. destruct (all r w1) as [[l|e] w2]; cbn [snd] in *;
        split; congruence.
    + destruct (IH w1) as [H3 H4]. split; congruence.
Qed.

Lemma leavesListeners_getNativeBookmarkByTitle t :
  leavesListeners (getNativeBookmarkByTitle api t).
Proof.
  intros w. unfold getNativeBookmarkByTitle, bind, ret, browser_search.
  destruct (String.eqb t ""); [now split|].
  destruct (host_search api t (w_host w)); now split.
Qed.

Lemma leavesListeners_browser_move i d : leavesListeners (browser_move api i d).
Proof.
  intros w. unfold browser_move.
  destruct (host_move api i d (w_host w)) as [r h].
  cbn [snd w_listeners w_events setHost emit]. split; [reflexivity|].
  rewrite filter_app. cbn [filter isEnable]. now rewrite app_nil_r.
Qed.

Lemma Forall_mapi {A B} (Q : B -> Prop) (f : A -> nat -> B) l :
  (forall x i, Q (f x i)) -> forall i, Forall Q (mapi f l i).
Proof. intros H. induction l as [|x r IH]; intros i; simpl; constructor; auto. Qed.

Lemma leavesListeners_reorderUnsupportedContainers :
  leavesListeners (reorderUnsupportedContainers api P).
Proof.
  intros w. unfold reorderUnsupportedContainers, bind.
  assert (H1 : leavesListeners
                 (all (map (getNativeBookmarkByTitle api) (unsupportedContainers P)))).
  { apply leavesListeners_all. apply Forall_forall. intros m Hm.
    apply in_map_iff in Hm. destruct Hm as [t [<- _]].
    apply leavesListeners_getNativeBookmarkByTitle. }
  destruct (H1 w) as [Ha Hb].
  destruct (all (map (getNativeBookmarkByTitle api) (unsupportedContainers P)) w)
    as [[results|e] w1]; cbn [snd] in *; [|now split].
  match goal with
  | |- context [all ?ms w1] =>
      assert (H2 : leavesListeners (all ms))
  end.
  { apply leavesListeners_all. apply Forall_mapi. intros x i.
    apply leavesListeners_browser_move. }
  destruct (H2 w1) as [Hc Hd].
  match goal with
  | |- context [all ?ms w1] => destruct (all ms w1) as [[l|e] w2]
  end; cbn [snd ret] in *; split; congruence.
Qed.

(** When the reorder pass fails after [executeSync], nothing re-establishes
    the listeners: [enableEventListeners] is chained with [then], so it is
    skipped and the listeners stay off whatever the persisted flag says. *)
Lemma reorderAfterSync_failure_leaves_listeners_off (w : World Host) (e : Exception) :
  fst (reorderAfterSync api P w) = Rejected e ->
  w_listeners (snd (reorderAfterSync api P w)) = false
  /\ filter isEnable (w_events (snd (reorderAfterSync api P w)))
     = filter isEnable (w_events w).
Proof.
  unfold reorderAfterSync, bind, disableEventListeners, enableEventListeners.
  pose proof (leavesListeners_reorderUnsupportedContainers
                (setListeners false (emit EvDisableListeners w))) as [H1 H2].
  destruct (reorderUnsupportedContainers api P
              (setListeners false (emit EvDisableListeners w))) as [[u|e1] w1];
    cbn [fst snd] in *; [discriminate|].
  intros _. split; [exact H1|]. rewrite H2.
  cbn [w_events setListeners emit]. rewrite filter_app. cbn [filter isEnable].
  now rewrite app_nil_r.
Qed.

End Listeners.

(** C3 fails on the code on two paths.  After a sync, the reorder of the
    unsupported containers runs between [disableEventListeners] and a
    [then(enableEventListeners)]: when a native move is rejected no cleanup
    runs, and the listeners stay off although sync is still enabled.  In the
    background page, the separator conversion ends with
    [toggleEventListeners(true)]: the listeners are attached again although
    sync was disabled meanwhile. *)
Theorem listener_cleanup_missed_or_unconditional :
  let failing := mkWorld (Sample.mkTableHost Sample.nativeNodes true false)
                         [] true true true [] in
  let afterReorder := reorderAfterSync Sample.tableApi Sample.platform failing in
  let syncDisabled := Sample.world [] true false in
  let afterConversion :=
    convertLocalBookmarkToSeparator Sample.tableApi Sample.platform
      (mkNative "s" (Some "2") (Some 1) "-" None None) syncDisabled in
  (fst afterReorder = Rejected (HostError "Can't move bookmark.")
   /\ w_syncEnabled (snd afterReorder) = true
   /\ w_listeners (snd afterReorder) = false
   /\ w_events (snd afterReorder)
      = [EvDisableListeners; EvMove "m" (mkDest (Some 0) (Some "2"))])
  /\ (w_syncEnabled (snd afterConversion) = false
      /\ w_listeners (snd afterConversion) = true).
Proof. repeat split. Qed.

(* ================================================================== *)
(** ** Reordered children *)

Section Reorder.

Variable Host : Type.
Variable P : Platform.

Lemma all_idMapper_get (childIds : list string) (w : World Host) :
  all (map (fun childId => idMapper_get (Some childId) None) childIds) w
  = (Resolved (map (fun childId => IdMapper.get (Some childId) None (w_idMappings w))
                   childIds), w).
Proof.
  induction childIds as [|c r IH]; [reflexivity|].
  cbn [map all]. unfold idMapper_get at 1. now rewrite IH.
Qed.

Lemma find_by_id_some (kids : list Bookmark) (c : Z) :
  In c (map id kids) -> exists x, find (fun x => id x =? c) kids = Some x.
Proof.
  induction kids as [|k r IH]; simpl; [tauto|].
  intros [E|H].
  - rewrite E, Z.eqb_refl. eauto.
  - destruct (id k =? c); eauto.
Qed.

Lemma reorderedChildren_allSome (kids : list Bookmark) (childIds : list Z) :
  (forall c, In c childIds -> In c (map id kids)) ->
  exists l, allSome (reorderedChildren kids childIds) = Some l
            /\ map id l = childIds
            /\ (forall x, In x l -> In x kids).
Proof.
  induction childIds as [|c r IH]; intros H.
  - exists []. simpl. repeat split; tauto.
  - destruct IH as [l [Hl [Hids Hin]]]; [intros; apply H; now right|].
    destruct (find_by_id_some kids c) as [x Hx]; [apply H; now left|].
    exists (x :: l). unfold reorderedChildren in *. cbn [map allSome].
    rewrite Hx, Hl. cbn [option_map map]. repeat split.
    + apply find_some in Hx. destruct Hx as [_ E]. apply Z.eqb_eq in E. congruence.
    + intros y [<-|Hy]; [|now apply Hin].
      now apply find_some in Hx.
Qed.

(** What the reorder computes when the parent resolves to a bookmark with a
    child array and every mapped id of the native sequence names one of its
    children: the new child array holds exactly those mapped children, in
    the order of the native child-id sequence, and the world is left as it
    was. *)
Theorem processChangeTypeChildrenReorderedOnBookmarks_mapped_in_native_order
        (bookmarks : list Bookmark) (changeData : ReorderNativeBookmarkChangeData)
        (w : World Host) (parent : Helper.Ref) (parentNode : Bookmark)
        (kids : list Bookmark) :
  resolveReorderParent P bookmarks changeData w = (Resolved (Some parent), w) ->
  Helper.deref bookmarks parent = Some parentNode ->
  children parentNode = Some kids ->
  (forall c,
      In c (mappedSyncedIds
              (map (fun childId => IdMapper.get (Some childId) None (w_idMappings w))
                   (reorder_childIds changeData))) ->
      In c (map id kids)) ->
  exists newChildren,
    processChangeTypeChildrenReorderedOnBookmarks P bookmarks changeData w
    = (Resolved (Reordered (Helper.updateAt (setChildren (Some newChildren))
                                            bookmarks parent)), w)
    /\ map id newChildren
       = mappedSyncedIds
           (map (fun childId => IdMapper.get (Some childId) None (w_idMappings w))
                (reorder_childIds changeData))
    /\ (forall x, In x newChildren -> In x kids)
    /\ (forall x, In x kids -> ~ In (id x) (map id newChildren) -> ~ In x newChildren)
    /\ Helper.deref (Helper.updateAt (setChildren (Some newChildren)) bookmarks parent)
                    parent
       = Some (setChildren (Some newChildren) parentNode).
Proof.
  intros Hparent Hderef Hkids Hall.
  destruct (reorderedChildren_allSome kids _ Hall) as [l [Hl [Hids Hin]]].
  exists l. split; [|split; [exact Hids|split; [exact Hin|split]]].
  - unfold processChangeTypeChildrenReorderedOnBookmarks, bind.
    rewrite Hparent, all_idMapper_get, Hderef, Hkids, Hl. reflexivity.
  - intros x _ Hn Hx. apply Hn. now apply in_map.
  - now rewrite deref_updateAt, Hderef.
Qed.

End Reorder.

(** C1: the code breaks the claim on the scenario of the spec.  The toolbar
    container holds A, B and C (ids 10, 11, 12) and only B is mapped; the
    native toolbar root reports the child order a, b, c.  The claim keeps A
    and C at their places; the code assigns [childIds.map(find)] to the
    children of the container, so after the reorder the container holds B
    alone and A and C are no longer in the tree.  The handlers of the other
    change types leave the tree alone when they meet a node without a
    mapping. *)
Lemma reorder_drops_unmapped_children :
  let w := Sample.world [mkMapping 11 "b"] true true in
  exists after,
    processChangeTypeChildrenReorderedOnBookmarks
      Sample.platform Sample.tree (mkReorder ["a"; "b"; "c"] "1") w
    = (Resolved (Reordered after), w)
    /\ Helper.findBookmarkById 10 Sample.tree = Some Sample.bookmarkA
    /\ Helper.findBookmarkById 12 Sample.tree = Some Sample.bookmarkC
    /\ Helper.findBookmarkById 10 after = None
    /\ Helper.findBookmarkById 12 after = None
    /\ option_map children (Helper.findBookmarkById 1 after)
       = Some (Some [Sample.bookmarkB]).
Proof. eexists. repeat split. Qed.

(** All three children are mapped and the native order is C, A, B. *)
Lemma processChangeTypeChildrenReorderedOnBookmarks_witness :
  let w := Sample.world [mkMapping 10 "a"; mkMapping 11 "b"; mkMapping 12 "c"] true true in
  exists newChildren,
    processChangeTypeChildrenReorderedOnBookmarks
      Sample.platform Sample.tree (mkReorder ["c"; "a"; "b"] "1") w
    = (Resolved (Reordered (Helper.updateAt (setChildren (Some newChildren))
                                            Sample.tree [0%nat])), w)
    /\ map id newChildren = [12; 10; 11].
Proof.
  destruct (@processChangeTypeChildrenReorderedOnBookmarks_mapped_in_native_order
              Sample.TableHost
              Sample.platform Sample.tree (mkReorder ["c"; "a"; "b"] "1")
              (Sample.world [mkMapping 10 "a"; mkMapping 11 "b"; mkMapping 12 "c"]
                            true true)
              [0%nat]
              (Sample.folder 1 "[xbs] Toolbar"
                             [Sample.bookmarkA; Sample.bookmarkB; Sample.bookmarkC])
              [Sample.bookmarkA; Sample.bookmarkB; Sample.bookmarkC]
              eq_refl eq_refl eq_refl)
    as [l [H1 [H2 _]]].
  - intros c H. vm_compute in H. vm_compute. tauto.
  - exists l. split; [exact H1 | exact H2].
Defined.

(* ================================================================== *)
(** ** Running a promise chain *)

Lemma bind_run {Host A B} (m : M Host A) (k : A -> M Host B) w :
  bind m k w
  = match m w with
    | (Resolved a, w1) => k a w1
    | (Rejected e, w1) => (Rejected e, w1)
    end.
Proof. reflexivity. Qed.

Lemma optEqb_eq a b : optEqb a b = true <-> a = b.
Proof.
  destruct a as [x|], b as [y|]; cbn [optEqb]; split; try congruence.
  - intros H. apply String.eqb_eq in H. now subst.
  - intros [= ->]. apply String.eqb_refl.
Qed.

(* ================================================================== *)
(** ** The sync-toolbar preference *)

Section ToolbarPreference.

Variable Host : Type.
Variable api : HostApi Host.
Variable P : Platform.
Variable modifyBookmarkById : Z -> BookmarkMetadata -> list Bookmark -> M Host (list Bookmark).






End ToolbarPreference.



(* ================================================================== *)
(** ** Removing a subtree *)

Lemma eachBookmark_app l1 l2 :
  Helper.eachBookmark (l1 ++ l2) = Helper.eachBookmark l1 ++ Helper.eachBookmark l2.
Proof. unfold Helper.eachBookmark. apply flat_map_app. Qed.

Lemma flatten_eq b :
  Helper.flatten b
  = b :: match children b with None => [] | Some ks => Helper.eachBookmark ks end.
Proof. destruct b as [i t u d g c]. apply flatten_unfold. Qed.

(** The bookmarks below a referenced node are a segment of the walk. *)
Lemma deref_segment p :
  forall l b, Helper.deref l p = Some b ->
              exists l1 l2, Helper.eachBookmark l = l1 ++ Helper.flatten b ++ l2.
Proof.
  induction p as [|n q IH]; intros l b H; [discriminate|].
  cbn [Helper.deref] in H.
  destruct (nth_error l n) as [x|] eqn:En; [|discriminate].
  apply nth_error_split in En. destruct En as [pre [post [-> _]]].
  rewrite eachBookmark_app.
  change (Helper.eachBookmark (x :: post))
    with (Helper.flatten x ++ Helper.eachBookmark post).
  destruct q as [|m q'].
  - inversion H; subst x. eauto.
  - destruct (children x) as [ks|] eqn:Ek; [|discriminate].
    destruct (IH ks b H) as [l1 [l2 E]].
    rewrite (flatten_eq x), Ek, E.
    exists (Helper.eachBookmark pre ++ x :: l1), (l2 ++ Helper.eachBookmark post).
    rewrite <- !app_assoc. cbn [app]. now rewrite <- !app_assoc.
Qed.

Lemma getIdsFromDescendants_flatten b :
  map id (Helper.flatten b) = id b :: getIdsFromDescendants b.
Proof.
  rewrite flatten_eq. unfold getIdsFromDescendants.
  destruct (children b) as [[|k r]|]; reflexivity.
Qed.

Lemma findBookmarkById_segment target l b :
  Helper.findBookmarkById target l = Some b ->
  exists i1 i2, Helper.allIds l = i1 ++ (id b :: getIdsFromDescendants b) ++ i2.
Proof.
  unfold Helper.findBookmarkById.
  destruct (Helper.findBookmarkRef target l) as [p|]; [|discriminate].
  intros H. destruct (deref_segment _ _ H) as [l1 [l2 E]].
  exists (map id l1), (map id l2).
  unfold Helper.allIds. now rewrite E, !map_app, getIdsFromDescendants_flatten.
Qed.

Lemma NoDup_segment {A} (l1 l2 l3 : list A) : NoDup (l1 ++ l2 ++ l3) -> NoDup l2.
Proof.
  intros H. apply NoDup_app_remove_l in H. now apply NoDup_app_remove_r in H.
Qed.

(** Counting the mappings a set of ids removes. *)
Lemma filter_split_length {A} (f : A -> bool) (l : list A) :
  List.length l
  = (List.length (filter (fun x => negb (f x)) l) + List.length (filter f l))%nat.
Proof.
  induction l as [|x r IH]; [reflexivity|].
  simpl. destruct (f x); simpl; lia.
Qed.

Lemma count_with_key (a : Z) (f : Z -> bool) (keys : list Z) :
  NoDup keys -> f a = false ->
  List.length (filter (fun k => (a =? k) || f k) keys)
  = ((if memZ a keys then 1 else 0) + List.length (filter f keys))%nat.
Proof.
  intros Hnd Hf. induction Hnd as [|k r Hk Hr IH]; [reflexivity|].
  cbn [filter]. unfold memZ in *. cbn [existsb].
  destruct (Z.eqb_spec a k) as [<-|Hne]; cbn [orb].
  - assert (Hm : existsb (Z.eqb a) r = false) by now apply memZ_false.
    rewrite Hm in IH. rewrite Hf. cbn [List.length]. rewrite IH. lia.
  - destruct (f k); cbn [List.length]; rewrite IH;
      destruct (existsb (Z.eqb a) r); lia.
Qed.

Lemma mapped_count (keys : list Z) (ms : list BookmarkIdMapping) :
  NoDup keys -> NoDup (map syncedId ms) ->
  List.length (filter (fun m => memZ (syncedId m) keys) ms)
  = List.length (filter (IdMapper.isMapped ms) keys).
Proof.
  intros Hk Hm. induction ms as [|m r IH]; cbn [filter map] in *.
  - unfold IdMapper.isMapped. cbn [existsb].
    induction keys; [reflexivity|]. cbn [filter]. apply IHkeys. now inversion Hk.
  - inversion Hm as [|x l Hnin Hnd]; subst.
    assert (Hf : IdMapper.isMapped r (syncedId m) = false).
    { unfold IdMapper.isMapped. apply not_true_is_false. intros He.
      apply existsb_exists in He. destruct He as [y [Hy E]].
      apply Z.eqb_eq in E. apply Hnin. rewrite <- E. now apply in_map. }
    replace (filter (IdMapper.isMapped (m :: r)) keys)
      with (filter (fun k => (syncedId m =? k) || IdMapper.isMapped r k) keys)
      by (apply filter_ext; intros k; reflexivity).
    rewrite (count_with_key _ _ Hk Hf), <- (IH Hnd).
    destruct (memZ (syncedId m) keys); cbn [List.length]; lia.
Qed.

Lemma NoDup_app_disjoint {A} (l1 l2 : list A) :
  NoDup (l1 ++ l2) -> forall a, In a l1 -> ~ In a l2.
Proof.
  induction l1 as [|x r IH]; intros H a Ha; [contradiction|].
  simpl in H. inversion H as [|y l Hx Hr]; subst.
  destruct Ha as [->|Ha]; [|now apply IH].
  intros Hin. apply Hx. apply in_or_app. now right.
Qed.

Lemma filter_keep_all {A} (f : A -> bool) l :
  (forall x, In x l -> f x = true) -> filter f l = l.
Proof.
  induction l as [|x r IH]; intros H; [reflexivity|].
  simpl. rewrite (H x (or_introl eq_refl)). f_equal. apply IH.
  intros y Hy. apply H. now right.
Qed.

Lemma filter_drop_all {A} (f : A -> bool) l :
  (forall x, In x l -> f x = false) -> filter f l = [].
Proof.
  induction l as [|x r IH]; intros H; [reflexivity|].
  simpl. rewrite (H x (or_introl eq_refl)). apply IH.
  intros y Hy. apply H. now right.
Qed.

(** Removing an id no bookmark carries changes nothing. *)
Lemma removeBookmarkById_absent target l :
  ~ In target (Helper.allIds l) -> Helper.removeBookmarkById target l = l.
Proof.
  pattern l; apply forest_ind; clear l; [reflexivity|].
  intros i t u d g c r IHc IHr H.
  rewrite allIds_cons, flatten_ids in H.
  cbn [Helper.removeBookmarkById id].
  destruct (Z.eqb_spec i target) as [->|Hne]; [exfalso; apply H; now left|].
  rewrite removeIn_unfold. rewrite IHr.
  - destruct c as [ks|]; [|reflexivity]. cbn [option_map].
    rewrite (IHc ks eq_refl); [reflexivity|].
    intros Hin. apply H. right. apply in_or_app. now left.
  - intros Hin. apply H. right. apply in_or_app. now right.
Qed.

Lemma findBookmarkById_cons target i t u d g c r :
  Helper.findBookmarkById target (mkBookmark i t u d g c :: r) =
  if i =? target then Some (mkBookmark i t u d g c)
  else match match c with
             | Some ks => Helper.findBookmarkById target ks
             | None => None
             end with
       | Some b => Some b
       | None => Helper.findBookmarkById target r
       end.
Proof.
  unfold Helper.findBookmarkById. cbn [Helper.findBookmarkRef].
  rewrite findRefIn_unfold.
  destruct (i =? target); [reflexivity|].
  assert (Hr : match option_map Helper.shift (Helper.findBookmarkRef target r) with
               | Some p => Helper.deref (mkBookmark i t u d g c :: r) p
               | None => None
               end
               = match Helper.findBookmarkRef target r with
                 | Some p => Helper.deref r p
                 | None => None
                 end).
  { destruct (Helper.findBookmarkRef target r) as [q|]; [|reflexivity].
    cbn [option_map]. apply deref_shift. }
  destruct c as [ks|]; [|exact Hr].
  destruct (Helper.findBookmarkRef target ks) as [q|] eqn:Eks; [|exact Hr].
  destruct (findBookmarkRef_deref _ _ Eks) as [b [Hb _]].
  destruct (findBookmarkRef_nonempty _ _ Eks) as [n [q' ->]].
  rewrite Hb. unfold Helper.here. cbn [Helper.deref nth_error children].
  exact Hb.
Qed.

Lemma findBookmarkById_In target l b :
  Helper.findBookmarkById target l = Some b ->
  forall x, In x (map id (Helper.flatten b)) -> In x (Helper.allIds l).
Proof.
  intros H x Hx. destruct (findBookmarkById_segment _ _ H) as [i1 [i2 E]].
  rewrite E. rewrite getIdsFromDescendants_flatten in Hx.
  apply in_or_app. right. apply in_or_app. now left.
Qed.

(** With unique ids, removing by id takes away the ids of that bookmark and
    of its descendants and keeps every other id, in order. *)
Lemma removeBookmarkById_ids target l :
  NoDup (Helper.allIds l) ->
  forall b, Helper.findBookmarkById target l = Some b ->
            Helper.allIds (Helper.removeBookmarkById target l)
            = filter (fun x => negb (memZ x (map id (Helper.flatten b))))
                     (Helper.allIds l).
Proof.
  pattern l; apply forest_ind; clear l; [discriminate|].
  intros i t u d g c r IHc IHr Hnd b Hfind.
  rewrite findBookmarkById_cons in Hfind.
  rewrite allIds_cons, flatten_ids in Hnd |- *.
  cbn [Helper.removeBookmarkById id].
  set (cids := match c with None => [] | Some ks => Helper.allIds ks end) in *.
  cbn [app] in Hnd. inversion Hnd as [|x0 l0 Hi Hrest]; subst x0 l0.
  pose proof (NoDup_app_remove_r _ _ Hrest) as Hndc.
  pose proof (NoDup_app_remove_l _ _ Hrest) as Hndr.
  pose proof (NoDup_app_disjoint _ _ Hrest) as Hdisj.
  destruct (Z.eqb_spec i target) as [->|Hne].
  - (* the bookmark itself *)
    inversion Hfind; subst b. rewrite flatten_ids. fold cids.
    rewrite removeBookmarkById_absent
      by (intros Hin; apply Hi; apply in_or_app; now right).
    rewrite filter_app.
    rewrite filter_drop_all, filter_keep_all; [reflexivity| |].
    + intros x Hx. apply negb_true_iff, memZ_false. intros [E|Hin].
      * subst x. apply Hi. apply in_or_app. now right.
      * exact (Hdisj _ Hin Hx).
    + intros x Hx. apply negb_false_iff, memZ_In. exact Hx.
  - rewrite removeIn_unfold, allIds_cons, flatten_ids.
    destruct (match c with
              | Some ks => Helper.findBookmarkById target ks
              | None => None
              end) as [b'|] eqn:Ec.
    + (* below the bookmark *)
      inversion Hfind; subst b'.
      destruct c as [ks|]; [|discriminate]. cbn [option_map]. subst cids.
      assert (Hsub : forall x, In x (map id (Helper.flatten b)) -> In x (Helper.allIds ks))
        by (apply (findBookmarkById_In _ _ Ec)).
      assert (Ht : In target (Helper.allIds ks)).
      { apply Hsub. rewrite getIdsFromDescendants_flatten. left.
        now apply findBookmarkById_id in Ec. }
      rewrite (IHc ks eq_refl Hndc b Ec).
      rewrite removeBookmarkById_absent by (exact (Hdisj _ Ht)).
      cbn [app filter].
      assert (Hib : memZ i (map id (Helper.flatten b)) = false).
      { apply memZ_false. intros Hin. apply Hi. apply in_or_app. left. now apply Hsub. }
      rewrite Hib. cbn [negb]. f_equal. rewrite filter_app. f_equal.
      symmetry. apply filter_keep_all. intros x Hx.
      apply negb_true_iff, memZ_false. intros Hin. exact (Hdisj _ (Hsub _ Hin) Hx).
    + (* among the following bookmarks *)
      assert (Hsub : forall x, In x (map id (Helper.flatten b)) -> In x (Helper.allIds r))
        by (apply (findBookmarkById_In _ _ Hfind)).
      rewrite (IHr Hndr b Hfind).
      assert (Hck : option_map (Helper.removeBookmarkById target) c = c).
      { destruct c as [ks|]; [|reflexivity]. cbn [option_map]. f_equal.
        apply removeBookmarkById_absent. now apply findBookmarkById_None. }
      rewrite Hck. fold cids. cbn [app filter].
      assert (Hib : memZ i (map id (Helper.flatten b)) = false).
      { apply memZ_false. intros Hin. apply Hi. apply in_or_app. right. now apply Hsub. }
      rewrite Hib. cbn [negb]. f_equal. rewrite filter_app. f_equal.
      symmetry. apply filter_keep_all. intros x Hx.
      apply negb_true_iff, memZ_false. intros Hin. exact (Hdisj _ Hx (Hsub _ Hin)).
Qed.

Section RemoveOfFolder.

Variable Host : Type.
Variable P : Platform.

(** C2: for a remove whose native id is mapped and that passes the
    sync-worthiness check, in a tree with unique ids and a mapping table with
    at most one entry per synced id: the result is the tree with that one
    bookmark removed by a single [removeBookmarkById] (its ids are the old
    ones without the bookmark and its descendants), and the mapping table
    loses the entries of the bookmark and of its descendants, [N + 1] entries
    when [N] descendants are mapped. *)
Theorem processChangeTypeRemoveOnBookmarks_subtree_and_mappings
        (bookmarks : list Bookmark) (changeData : RemoveNativeBookmarkChangeData)
        (w : World Host) (mapping : BookmarkIdMapping) (toRemove : Bookmark) :
  wasContainerChanged P (remove_nativeBookmark changeData) bookmarks = false ->
  IdMapper.get (Some (n_id (remove_nativeBookmark changeData))) None (w_idMappings w)
  = Some mapping ->
  Helper.findBookmarkById (syncedId mapping) bookmarks = Some toRemove ->
  checkIfBookmarkChangeShouldBeSynced (Some toRemove) bookmarks w = (Resolved true, w) ->
  NoDup (Helper.allIds bookmarks) ->
  NoDup (map syncedId (w_idMappings w)) ->
  let descendants := getIdsFromDescendants toRemove in
  let N := List.length (filter (IdMapper.isMapped (w_idMappings w)) descendants) in
  let out := processChangeTypeRemoveOnBookmarks P bookmarks changeData w in
  fst out = Resolved (Some (Helper.removeBookmarkById (syncedId mapping) bookmarks))
  /\ Helper.allIds (Helper.removeBookmarkById (syncedId mapping) bookmarks)
     = filter (fun x => negb (memZ x (syncedId mapping :: descendants)))
              (Helper.allIds bookmarks)
  /\ w_idMappings (snd out)
     = filter (fun m => negb (memZ (syncedId m) (descendants ++ [syncedId mapping])))
              (w_idMappings w)
  /\ List.length (w_idMappings w) = (List.length (w_idMappings (snd out)) + (N + 1))%nat
  /\ w_events (snd out) = w_events w.
Proof.
  intros Hc Hget Hfind Hcheck Hnd Hmd descendants N out.
  assert (Hid : id toRemove = syncedId mapping) by now apply findBookmarkById_id in Hfind.
  assert (Hout : out = (Resolved (Some (Helper.removeBookmarkById (syncedId mapping)
                                                                   bookmarks)),
                        setIdMappings
                          (IdMapper.remove (descendants ++ [syncedId mapping]) []
                                           (w_idMappings w)) w)).
  { subst out. unfold processChangeTypeRemoveOnBookmarks, bind at 1, ret at 1.
    rewrite Hc. unfold bind at 1, idMapper_get. rewrite Hget, Hfind.
    unfold bind at 1. rewrite Hcheck. cbn [negb].
    unfold bind, idMapper_remove, ret. reflexivity. }
  rewrite Hout. cbn [fst snd w_idMappings w_events setIdMappings].
  assert (Hrem : IdMapper.remove (descendants ++ [syncedId mapping]) [] (w_idMappings w)
                 = filter (fun m => negb (memZ (syncedId m)
                                               (descendants ++ [syncedId mapping])))
                          (w_idMappings w)).
  { unfold IdMapper.remove. apply filter_ext. intros m. unfold memS. cbn [existsb].
    now rewrite orb_false_r. }
  split; [reflexivity|]. split.
  { rewrite (@removeBookmarkById_ids _ _ Hnd _ Hfind), getIdsFromDescendants_flatten, Hid.
    reflexivity. }
  split; [exact Hrem|]. split; [|reflexivity].
  rewrite Hrem.
  rewrite (filter_split_length
             (fun m => memZ (syncedId m) (descendants ++ [syncedId mapping]))
             (w_idMappings w)).
  f_equal.
  (* the ids of the bookmark and of its descendants are pairwise distinct *)
  destruct (findBookmarkById_segment _ _ Hfind) as [i1 [i2 Eseg]].
  rewrite Eseg in Hnd. apply NoDup_segment in Hnd. rewrite Hid in Hnd.
  fold descendants in Hnd.
  assert (Hkeys : NoDup (descendants ++ [syncedId mapping])).
  { inversion Hnd as [|x l Hx Hl]; subst.
    apply NoDup_app; [assumption | repeat constructor; intros [] |].
    intros a Ha [<-|[]]. contradiction. }
  rewrite (@mapped_count _ _ Hkeys Hmd), filter_app, length_app. subst N.
  f_equal. cbn [filter].
  assert (Hm : IdMapper.isMapped (w_idMappings w) (syncedId mapping) = true).
  { unfold IdMapper.isMapped. apply existsb_exists. exists mapping. split.
    - unfold IdMapper.get in Hget. now apply find_some in Hget.
    - apply Z.eqb_refl. }
  now rewrite Hm.
Qed.

End RemoveOfFolder.

(** The folder with id 4 holds two mapped bookmarks (ids 5 and 6): three of
    the four mappings go. *)
Lemma processChangeTypeRemoveOnBookmarks_witness :
  let change :=
    Build_RemoveNativeBookmarkChangeData
      (mkNative "f" (Some "2") (Some 1) "Folder" None None) in
  let w := Sample.world Sample.fullMappings true true in
  let out := processChangeTypeRemoveOnBookmarks Sample.platform Sample.tree change w in
  fst out = Resolved (Some (Helper.removeBookmarkById 4 Sample.tree))
  /\ w_idMappings (snd out) = [mkMapping 3 "x"]
  /\ List.length (w_idMappings w) = (List.length (w_idMappings (snd out)) + (2 + 1))%nat.
Proof.
  intros change w out.
  destruct (@processChangeTypeRemoveOnBookmarks_subtree_and_mappings
              Sample.TableHost Sample.platform Sample.tree change w
              (mkMapping 4 "f") Sample.folderF)
    as [H1 [_ [H2 [H3 _]]]].
  - reflexivity.
  - reflexivity.
  - reflexivity.
  - reflexivity.
  - vm_compute. repeat (constructor; [simpl; intuition discriminate|]). constructor.
  - vm_compute. repeat (constructor; [simpl; intuition discriminate|]). constructor.
  - split; [exact H1|]. split; [exact H2 | exact H3].
Defined.

(* ================================================================== *)
(** ** [addBookmark] and the array it is given *)

Module HeapFacts.

Import Heap.

Lemma cellAbove_mono n m c : (m <= n)%nat -> cellAbove n c -> cellAbove m c.
Proof.
  intros H. destruct c as [nd|ls]; simpl.
  - destruct (o_children nd); [lia|trivial].
  - apply Forall_impl. intros; lia.
Qed.

Lemma above_mono n m ext : (m <= n)%nat -> above n ext -> above m ext.
Proof. intros H. apply Forall_impl. intros c. now apply cellAbove_mono. Qed.

Lemma allocBookmark_unfold i t u d g ks h :
  allocBookmark (mkBookmark i t u d g (Some ks)) h =
  let (ls, h1) := allocBookmarks ks h in
  let (a, h2) := alloc (CArray ls) h1 in
  alloc (CNode (mkNode i t u d g (Some a))) h2.
Proof.
  cbn [allocBookmark].
  assert (E : forall l h0,
             (fix go (l : list Bookmark) (h0 : Heap) : list loc * Heap :=
                match l with
                | [] => ([], h0)
                | k :: r =>
                    let (x, h1) := allocBookmark k h0 in
                    let (xs, h2) := go r h1 in
                    (x :: xs, h2)
                end) l h0 = allocBookmarks l h0).
  { induction l as [|k r IH]; intros h0; [reflexivity|].
    cbn [allocBookmarks]. destruct (allocBookmark k h0) as [x h1]. now rewrite IH. }
  now rewrite E.
Qed.

(** Allocation appends cells that only hold new addresses. *)
Lemma allocBookmark_extends b :
  forall h l h1, allocBookmark b h = (l, h1) ->
                 exists ext, h1 = h ++ ext /\ above (List.length h) ext
                             /\ (List.length h <= l)%nat.
Proof.
  revert b.
  apply (bookmark_ind2
           (fun b => forall h l h1, allocBookmark b h = (l, h1) ->
                                    exists ext, h1 = h ++ ext /\ above (List.length h) ext
                                                /\ (List.length h <= l)%nat)
           (fun bs => forall h ls h1, allocBookmarks bs h = (ls, h1) ->
                                      exists ext, h1 = h ++ ext
                                                  /\ above (List.length h) ext
                                                  /\ Forall (le (List.length h)) ls)).
  - intros h ls h1 E. inversion E. exists []. rewrite app_nil_r.
    repeat split; constructor.
  - intros k r Hk Hr h ls h1 E. cbn [allocBookmarks] in E.
    destruct (allocBookmark k h) as [x h0] eqn:Ek.
    destruct (allocBookmarks r h0) as [xs h2] eqn:Er. inversion E; subst.
    destruct (Hk _ _ _ Ek) as [e1 [-> [A1 L1]]].
    destruct (Hr _ _ _ Er) as [e2 [-> [A2 L2]]].
    exists (e1 ++ e2). rewrite app_assoc. split; [reflexivity|].
    rewrite length_app in *. split.
    + apply Forall_app. split; [assumption|].
      eapply above_mono; [|eassumption]. lia.
    + constructor; [assumption|]. eapply Forall_impl; [|eassumption].
      intros; simpl in *; lia.
  - intros i t u d g h l h1 E. cbn [allocBookmark alloc] in E. inversion E.
    eexists. split; [reflexivity|]. split; [|lia].
    repeat constructor.
  - intros i t u d g ks Hks h l h1 E. rewrite allocBookmark_unfold in E.
    destruct (allocBookmarks ks h) as [ls h0] eqn:Eks.
    destruct (Hks _ _ _ Eks) as [e1 [-> [A1 L1]]].
    cbn [alloc] in E. inversion E.
    exists (e1 ++ [CArray ls] ++ [CNode (mkNode i t u d g (Some (List.length (h ++ e1))))]).
    rewrite <- !app_assoc. split; [reflexivity|].
    rewrite !length_app. cbn [List.length]. split; [|lia].
    apply Forall_app. split; [assumption|].
    constructor; [exact L1|]. constructor; [|constructor].
    simpl. lia.
Qed.

Lemma allocBookmarks_extends bs :
  forall h ls h1, allocBookmarks bs h = (ls, h1) ->
                  exists ext, h1 = h ++ ext /\ above (List.length h) ext
                              /\ Forall (le (List.length h)) ls.
Proof.
  induction bs as [|k r IH]; intros h ls h1 E; cbn [allocBookmarks] in E.
  - inversion E. exists []. rewrite app_nil_r. repeat split; constructor.
  - destruct (allocBookmark k h) as [x h0] eqn:Ek.
    destruct (allocBookmarks r h0) as [xs h2] eqn:Er. inversion E; subst.
    destruct (allocBookmark_extends _ _ Ek) as [e1 [-> [A1 L1]]].
    destruct (IH _ _ _ Er) as [e2 [-> [A2 L2]]].
    exists (e1 ++ e2). rewrite app_assoc. split; [reflexivity|].
    rewrite length_app in *. split.
    + apply Forall_app. split; [assumption|].
      eapply above_mono; [|eassumption]. lia.
    + constructor; [assumption|]. eapply Forall_impl; [|eassumption].
      intros; simpl in *; lia.
Qed.

Lemma allocArray_extends bs h a h1 :
  allocArray bs h = (a, h1) ->
  exists ext, h1 = h ++ ext /\ above (List.length h) ext /\ (List.length h <= a)%nat.
Proof.
  unfold allocArray. destruct (allocBookmarks bs h) as [ls h0] eqn:E.
  destruct (allocBookmarks_extends _ _ E) as [e1 [-> [A1 L1]]].
  cbn [alloc]. intros H. inversion H.
  exists (e1 ++ [CArray ls]). rewrite <- app_assoc. split; [reflexivity|].
  rewrite length_app. split; [|lia].
  apply Forall_app. split; [assumption|]. constructor; [exact L1|constructor].
Qed.

Lemma nth_error_above n (h ext : Heap) a c :
  List.length h = n -> above n ext -> (n <= a)%nat ->
  nth_error (h ++ ext) a = Some c -> cellAbove n c.
Proof.
  intros <- Hab Ha E. rewrite nth_error_app2 in E by assumption.
  apply nth_error_In in E. unfold above in Hab. rewrite Forall_forall in Hab. auto.
Qed.

(** A reference followed from a new array stays among the new objects. *)
Lemma nodeAt_above n (h ext : Heap) :
  List.length h = n -> above n ext ->
  forall p a l, (n <= a)%nat -> nodeAt (h ++ ext) a p = Some l -> (n <= l)%nat.
Proof.
  intros Hn Hab. induction p as [|k q IH]; intros a l Ha E; [discriminate|].
  cbn [nodeAt] in E.
  destruct (nth_error (h ++ ext) a) as [[nd|ls]|] eqn:Ea; try discriminate.
  pose proof (@nth_error_above n h ext a _ Hn Hab Ha Ea) as Hls. simpl in Hls.
  destruct (nth_error ls k) as [x|] eqn:Ex; [|discriminate].
  assert (Hx : (n <= x)%nat).
  { rewrite Forall_forall in Hls. apply Hls. eapply nth_error_In; eauto. }
  destruct q as [|m q'].
  - inversion E; now subst.
  - destruct (nth_error (h ++ ext) x) as [[nd|ls']|] eqn:Enx; try discriminate.
    pose proof (@nth_error_above n h ext x _ Hn Hab Hx Enx) as Hnd. simpl in Hnd.
    destruct (o_children nd) as [a1|]; [|discriminate].
    eapply IH; eauto.
Qed.

Lemma write_above (h ext : Heap) a c :
  (List.length h <= a)%nat ->
  write a c (h ++ ext) = h ++ write (a - List.length h)%nat c ext.
Proof.
  revert a. induction h as [|x r IH]; intros a Ha; cbn [List.length app] in *.
  - now rewrite Nat.sub_0_r.
  - destruct a as [|a]; [lia|]. cbn [write Nat.sub]. f_equal. apply IH. lia.
Qed.

Lemma firstn_prefix {A} (h ext : list A) : firstn (List.length h) (h ++ ext) = h.
Proof. rewrite firstn_app, Nat.sub_diag, firstn_all. simpl. apply app_nil_r. Qed.

Lemma agree_prefix (h ext : Heap) : agree h (h ++ ext).
Proof.
  intros l c E. rewrite nth_error_app1; [assumption|].
  apply nth_error_Some. congruence.
Qed.

Lemma traverse_mono {A B} (f g : A -> option B) l :
  (forall x y, f x = Some y -> g x = Some y) ->
  forall t, traverse f l = Some t -> traverse g l = Some t.
Proof.
  intros H. induction l as [|x r IH]; intros t E; [exact E|].
  cbn [traverse] in *.
  destruct (f x) as [y|] eqn:Ef; [|discriminate].
  destruct (traverse f r) as [ys|]; [|discriminate].
  rewrite (H _ _ Ef), (IH ys eq_refl). exact E.
Qed.

Lemma readArray_agree (h h1 : Heap) :
  agree h h1 ->
  forall fuel a t, readArray fuel h a = Some t -> readArray fuel h1 a = Some t.
Proof.
  intros Hag. induction fuel as [|f IH]; intros a t E; [discriminate|].
  cbn [readArray] in *.
  destruct (nth_error h a) as [[nd|ls]|] eqn:Ea; try discriminate.
  rewrite (Hag _ _ Ea).
  eapply traverse_mono; [|exact E].
  intros x y. unfold readNodeWith.
  destruct (nth_error h x) as [[nd|ls']|] eqn:Ex; try discriminate.
  rewrite (Hag _ _ Ex).
  destruct (o_children nd) as [a1|]; [|auto].
  destruct (readArray f h a1) as [ks|] eqn:Er; [|discriminate].
  now rewrite (IH _ _ Er).
Qed.

(** Every cell that existed before the call is the same after it, and the
    objects returned are new ones. *)
Lemma addBookmark_appends bookmarkMetadata parentId index bookmarks (h : Heap) :
  exists ext,
    snd (addBookmark bookmarkMetadata parentId index bookmarks h) = h ++ ext
    /\ match fst (addBookmark bookmarkMetadata parentId index bookmarks h) with
       | Resolved (bookmark, updatedBookmarks) =>
           (List.length h <= bookmark)%nat /\ (List.length h <= updatedBookmarks)%nat
       | Rejected _ => True
       end.
Proof.
  unfold addBookmark, copy.
  destruct (readArray (fuelFor h) h bookmarks) as [t0|];
    [|exists []; now rewrite app_nil_r].
  destruct (allocArray t0 h) as [updatedBookmarks h1] eqn:Ecopy.
  destruct (allocArray_extends _ _ Ecopy) as [e1 [-> [A1 L1]]].
  destruct (findBookmarkById parentId updatedBookmarks (h ++ e1)) as [parent|] eqn:Ef;
    [|now exists e1].
  destruct (readArray (fuelFor (h ++ e1)) (h ++ e1) bookmarks) as [t1|];
    [|now exists e1].
  match goal with
  | |- context [allocBookmark ?b (h ++ e1)] =>
      destruct (allocBookmark b (h ++ e1)) as [bookmark h2] eqn:Enew
  end.
  destruct (allocBookmark_extends _ _ Enew) as [e2 [-> [A2 L2]]].
  rewrite <- app_assoc.
  assert (A : above (List.length h) (e1 ++ e2)).
  { apply Forall_app. split; [assumption|].
    eapply above_mono; [|eassumption]. rewrite length_app. lia. }
  assert (Hp : (List.length h <= parent)%nat).
  { unfold findBookmarkById in Ef.
    destruct (readArray (fuelFor (h ++ e1)) (h ++ e1) updatedBookmarks); [|discriminate].
    destruct (Helper.findBookmarkRef parentId l) as [p|]; [|discriminate].
    eapply (@nodeAt_above _ h e1 eq_refl A1); eauto. }
  destruct (nth_error (h ++ e1 ++ e2) parent) as [[nd|ls]|] eqn:Ep;
    try (now exists (e1 ++ e2)).
  pose proof (@nth_error_above _ h (e1 ++ e2) parent _ eq_refl A Hp Ep) as Hnd.
  simpl in Hnd.
  destruct (o_children nd) as [kidsArray|]; [|now exists (e1 ++ e2)].
  destruct (nth_error (h ++ e1 ++ e2) kidsArray) as [[nd'|ls]|];
    try (now exists (e1 ++ e2)).
  cbn [fst snd]. rewrite write_above by assumption.
  eexists. split; [reflexivity|]. rewrite length_app in L2. split; lia.
Qed.

End HeapFacts.

(* ================================================================== *)
(** ** The call on the store computes what the call on values computes *)

Module HeapLayout.

Import Heap.

Lemma layNode_folder h i t u d g ks lo l :
  layNode h (mkBookmark i t u d g (Some ks)) lo l <->
  exists ls a,
    l = S a
    /\ nth_error h l = Some (CNode (mkNode i t u d g (Some a)))
    /\ nth_error h a = Some (CArray ls)
    /\ layList h ks lo ls a.
Proof.
  cbn [layNode].
  assert (E : forall a ks lo ls,
             (fix lay (ks : list Bookmark) (lo : nat) (ls : list loc) {struct ks} : Prop :=
                match ks, ls with
                | [], [] => lo = a
                | k :: ks1, x :: ls1 => layNode h k lo x /\ lay ks1 (S x) ls1
                | _, _ => False
                end) ks lo ls <-> layList h ks lo ls a).
  { intros a. induction ks0 as [|k r IH]; intros lo0 [|x ls0]; cbn [layList];
      try tauto. now rewrite IH. }
  split; intros [ls [a [H1 [H2 [H3 H4]]]]]; exists ls, a; repeat split; auto;
    now apply E.
Qed.

Lemma layNode_leaf h i t u d g lo l :
  layNode h (mkBookmark i t u d g None) lo l <->
  l = lo /\ nth_error h l = Some (CNode (mkNode i t u d g None)).
Proof. reflexivity. Qed.

Lemma lay_range h :
  (forall b lo l, layNode h b lo l -> (lo <= l)%nat)
  /\ (forall ks lo ls hi, layList h ks lo ls hi ->
                          (lo <= hi)%nat /\ Forall (fun x => (lo <= x < hi)%nat) ls).
Proof.
  assert (Hn : forall b, forall lo l, layNode h b lo l -> (lo <= l)%nat).
  { apply (bookmark_ind2
             (fun b => forall lo l, layNode h b lo l -> (lo <= l)%nat)
             (fun ks => forall lo ls hi, layList h ks lo ls hi ->
                                         (lo <= hi)%nat
                                         /\ Forall (fun x => (lo <= x < hi)%nat) ls)).
    - intros lo [|x ls] hi H; cbn [layList] in H; [|contradiction].
      subst. split; [lia|constructor].
    - intros k r Hk Hr lo [|x ls] hi H; cbn [layList] in H; [contradiction|].
      destruct H as [H1 H2]. apply Hk in H1. apply Hr in H2. destruct H2 as [H2 H3].
      split; [lia|]. constructor; [lia|].
      eapply Forall_impl; [|exact H3]. intros y Hy. simpl in Hy. lia.
    - intros i t u d g lo l [-> _]. lia.
    - intros i t u d g ks Hks lo l H. apply layNode_folder in H.
      destruct H as [ls [a [-> [_ [_ H]]]]]. apply Hks in H. lia. }
  split; [exact Hn|].
  induction ks as [|k r IH]; intros lo [|x ls] hi H; cbn [layList] in H;
    try contradiction.
  - subst. split; [lia|constructor].
  - destruct H as [H1 H2]. apply Hn in H1. apply IH in H2. destruct H2 as [H2 H3].
    split; [lia|]. constructor; [lia|].
    eapply Forall_impl; [|exact H3]. intros y Hy. simpl in Hy. lia.
Qed.

Lemma sameOn_sub lo hi lo1 hi1 h h1 :
  sameOn lo hi h h1 -> (lo <= lo1)%nat -> (hi1 <= hi)%nat -> sameOn lo1 hi1 h h1.
Proof. intros H H1 H2 x Hx. apply H. lia. Qed.

(** A layout only depends on the cells it names. *)
Lemma lay_frame h h1 :
  (forall b lo l, sameOn lo (S l) h h1 -> layNode h b lo l -> layNode h1 b lo l)
  /\ (forall ks lo ls hi, sameOn lo hi h h1 -> layList h ks lo ls hi ->
                          layList h1 ks lo ls hi).
Proof.
  assert (Hn : forall b, forall lo l, sameOn lo (S l) h h1 -> layNode h b lo l ->
                                      layNode h1 b lo l).
  { apply (bookmark_ind2
             (fun b => forall lo l, sameOn lo (S l) h h1 -> layNode h b lo l ->
                                    layNode h1 b lo l)
             (fun ks => forall lo ls hi, sameOn lo hi h h1 -> layList h ks lo ls hi ->
                                         layList h1 ks lo ls hi)).
    - intros lo [|x ls] hi _ H; exact H.
    - intros k r Hk Hr lo [|x ls] hi Hs H; cbn [layList] in *; [contradiction|].
      destruct H as [H1 H2].
      destruct (proj2 (lay_range h) _ _ _ _ H2) as [Hx _].
      pose proof (proj1 (lay_range h) _ _ _ H1) as Hl.
      split.
      + apply Hk; [|exact H1]. eapply sameOn_sub; [exact Hs| |]; lia.
      + apply Hr; [|exact H2]. eapply sameOn_sub; [exact Hs| |]; lia.
    - intros i t u d g lo l Hs [-> H]. split; [reflexivity|].
      rewrite Hs; [exact H|lia].
    - intros i t u d g ks Hks lo l Hs H. apply layNode_folder in H.
      apply layNode_folder. destruct H as [ls [a [-> [H1 [H2 H3]]]]].
      destruct (proj2 (lay_range h) _ _ _ _ H3) as [Hx _].
      exists ls, a. split; [reflexivity|].
      split; [rewrite Hs; [exact H1|lia]|].
      split; [rewrite Hs; [exact H2|lia]|].
      apply Hks; [|exact H3]. eapply sameOn_sub; [exact Hs| |]; lia. }
  split; [exact Hn|].
  induction ks as [|k r IH]; intros lo [|x ls] hi Hs H; cbn [layList] in *;
    try contradiction; [exact H|].
  destruct H as [H1 H2].
  destruct (proj2 (lay_range h) _ _ _ _ H2) as [Hx _].
  pose proof (proj1 (lay_range h) _ _ _ H1) as Hl.
  split.
  - apply Hn; [|exact H1]. eapply sameOn_sub; [exact Hs| |]; lia.
  - apply IH; [|exact H2]. eapply sameOn_sub; [exact Hs| |]; lia.
Qed.

Lemma sameOn_app lo hi (h ext : Heap) :
  (hi <= List.length h)%nat -> sameOn lo hi h (h ++ ext).
Proof. intros H x Hx. apply nth_error_app1. lia. Qed.

Lemma nth_error_snoc {A} (l : list A) (x : A) : nth_error (l ++ [x]) (List.length l) = Some x.
Proof. rewrite nth_error_app2, Nat.sub_diag by lia. reflexivity. Qed.

(** Allocation produces that layout. *)
Lemma alloc_lay :
  (forall b h l h1, allocBookmark b h = (l, h1) ->
                    layNode h1 b (List.length h) l /\ List.length h1 = S l)
  /\ (forall ks h ls h1, allocBookmarks ks h = (ls, h1) ->
                         layList h1 ks (List.length h) ls (List.length h1)).
Proof.
  assert (Hl : forall ks,
             (forall k, In k ks ->
                        forall h l h1, allocBookmark k h = (l, h1) ->
                                       layNode h1 k (List.length h) l
                                       /\ List.length h1 = S l) ->
             forall h ls h1, allocBookmarks ks h = (ls, h1) ->
                             layList h1 ks (List.length h) ls (List.length h1)).
  { induction ks as [|k r IH]; intros Hk h ls h1 E; cbn [allocBookmarks] in E.
    - inversion E. reflexivity.
    - destruct (allocBookmark k h) as [x h0] eqn:Ek.
      destruct (allocBookmarks r h0) as [xs h2] eqn:Er. inversion E; subst.
      destruct (Hk k (or_introl eq_refl) _ _ _ Ek) as [L1 L2].
      assert (L3 : layList h1 r (List.length h0) xs (List.length h1)).
      { apply IH; [|exact Er]. intros k0 Hin. apply Hk. now right. }
      destruct (HeapFacts.allocBookmarks_extends _ _ Er) as [e2 [-> _]].
      cbn [layList]. split.
      + apply (proj1 (lay_frame h0 (h0 ++ e2))); [|exact L1].
        apply sameOn_app. lia.
      + rewrite L2 in L3. exact L3. }
  assert (Hn : forall b, forall h l h1, allocBookmark b h = (l, h1) ->
                                        layNode h1 b (List.length h) l
                                        /\ List.length h1 = S l).
  { apply (bookmark_ind2
             (fun b => forall h l h1, allocBookmark b h = (l, h1) ->
                                      layNode h1 b (List.length h) l
                                      /\ List.length h1 = S l)
             (fun ks => forall k, In k ks ->
                                  forall h l h1, allocBookmark k h = (l, h1) ->
                                                 layNode h1 k (List.length h) l
                                                 /\ List.length h1 = S l)).
    - intros k [].
    - intros k r Hk Hr k0 [<-|Hin]; [exact Hk | now apply Hr].
    - intros i t u d g h l h1 E. cbn [allocBookmark alloc] in E. inversion E.
      split; [|rewrite length_app; simpl; lia].
      split; [reflexivity|]. apply nth_error_snoc.
    - intros i t u d g ks Hks h l h1 E. rewrite HeapFacts.allocBookmark_unfold in E.
      destruct (allocBookmarks ks h) as [ls h0] eqn:Eks.
      pose proof (Hl ks Hks _ _ _ Eks) as L.
      cbn [alloc] in E. inversion E. clear E.
      split; [|rewrite !length_app; simpl; lia].
      apply layNode_folder. exists ls, (List.length h0).
      split; [rewrite length_app; simpl; lia|].
      split; [apply nth_error_snoc|].
      split.
      { rewrite <- app_assoc. rewrite nth_error_app2, Nat.sub_diag by lia. reflexivity. }
      rewrite <- app_assoc.
      apply (proj2 (lay_frame h0 (h0 ++ ([CArray ls] ++ _)))); [|exact L].
      apply sameOn_app. lia. }
  split; [exact Hn|].
  intros ks. apply Hl. intros k _. apply Hn.
Qed.

(** Reading a laid-out tree gives the tree back, with enough fuel for the
    cells it fills. *)
Lemma lay_read h :
  (forall b lo l fuel, layNode h b lo l -> (l - lo <= fuel)%nat ->
                       readNode fuel h l = Some b)
  /\ (forall ks lo ls hi f, layList h ks lo ls hi -> (hi - lo <= S f)%nat ->
                            traverse (readNodeWith (readArray f h) h) ls = Some ks).
Proof.
  set (Pn := fun b => forall lo l fuel, layNode h b lo l -> (l - lo <= fuel)%nat ->
                                        readNode fuel h l = Some b).
  set (Pl := fun ks => forall lo ls hi f, layList h ks lo ls hi -> (hi - lo <= S f)%nat ->
                                          traverse (readNodeWith (readArray f h) h) ls
                                          = Some ks).
  assert (Hnil : Pl []).
  { intros lo [|x ls] hi f H _; cbn [layList] in H; [reflexivity|contradiction]. }
  assert (Hcons : forall b r, Pn b -> Pl r -> Pl (b :: r)).
  { intros k r Hk Hr lo [|x ls] hi f H Hf; cbn [layList] in H; [contradiction|].
    destruct H as [H1 H2].
    destruct (proj2 (lay_range h) _ _ _ _ H2) as [Hx _].
    pose proof (proj1 (lay_range h) _ _ _ H1) as Hlo.
    cbn [traverse].
    assert (E1 : readNodeWith (readArray f h) h x = Some k) by (apply (Hk lo); [exact H1|lia]).
    rewrite E1, (Hr _ _ _ f H2); [reflexivity|lia]. }
  assert (Hleaf : forall i t u d g, Pn (mkBookmark i t u d g None)).
  { intros i t u d g lo l fuel [-> H] _. unfold readNode, readNodeWith. now rewrite H. }
  assert (Hnode : forall i t u d g ks, Pl ks -> Pn (mkBookmark i t u d g (Some ks))).
  { intros i t u d g ks Hks lo l fuel H Hf. apply layNode_folder in H.
    destruct H as [ls [a [-> [H1 [H2 H3]]]]].
    destruct (proj2 (lay_range h) _ _ _ _ H3) as [Hx _].
    unfold readNode, readNodeWith. rewrite H1. cbn [o_children o_id o_title o_url
                                                    o_description o_tags].
    destruct fuel as [|f]; [lia|]. cbn [readArray]. rewrite H2.
    rewrite (Hks _ _ _ f H3); [reflexivity|lia]. }
  split.
  - exact (bookmark_ind2 Pn Pl Hnil Hcons Hleaf Hnode).
  - exact (bookmarks_ind2 Pn Pl Hnil Hcons Hleaf Hnode).
Qed.

Lemma readArray_fuel_mono h :
  forall fuel a t, readArray fuel h a = Some t ->
                   forall fuel1, (fuel <= fuel1)%nat -> readArray fuel1 h a = Some t.
Proof.
  induction fuel as [|f IH]; intros a t E fuel1 Hle; [discriminate|].
  destruct fuel1 as [|f1]; [lia|]. cbn [readArray] in *.
  destruct (nth_error h a) as [[nd|ls]|]; try discriminate.
  eapply HeapFacts.traverse_mono; [|exact E].
  intros x y. unfold readNodeWith.
  destruct (nth_error h x) as [[nd|ls1]|]; try discriminate.
  destruct (o_children nd) as [a1|]; [|auto].
  destruct (readArray f h a1) as [ks|] eqn:Er; [|discriminate].
  rewrite (IH _ _ Er f1); [auto|lia].
Qed.

Lemma nodeAt_agree h h1 :
  Heap.agree h h1 ->
  forall p a l, nodeAt h a p = Some l -> nodeAt h1 a p = Some l.
Proof.
  intros Hag. induction p as [|n q IH]; intros a l E; [discriminate|].
  cbn [nodeAt] in *.
  destruct (nth_error h a) as [[nd|ls]|] eqn:Ea; try discriminate.
  rewrite (Hag _ _ Ea).
  destruct (nth_error ls n) as [x|]; [|discriminate].
  destruct q as [|m q1]; [exact E|].
  destruct (nth_error h x) as [[nd|ls1]|] eqn:Ex; try discriminate.
  rewrite (Hag _ _ Ex).
  destruct (o_children nd) as [a1|]; [|discriminate]. now apply IH.
Qed.

Lemma traverse_app {A B} (f : A -> option B) l1 l2 t1 t2 :
  traverse f l1 = Some t1 -> traverse f l2 = Some t2 ->
  traverse f (l1 ++ l2) = Some (t1 ++ t2).
Proof.
  revert t1. induction l1 as [|x r IH]; intros t1 E1 E2; cbn [traverse app] in *.
  - inversion E1. exact E2.
  - destruct (f x) as [y|]; [|discriminate].
    destruct (traverse f r) as [ys|]; [|discriminate].
    inversion E1. now rewrite (IH ys eq_refl E2).
Qed.

Lemma traverse_firstn {A B} (f : A -> option B) l t n :
  traverse f l = Some t -> traverse f (firstn n l) = Some (firstn n t).
Proof.
  revert l t. induction n as [|n IH]; intros l t E; [reflexivity|].
  destruct l as [|x r]; cbn [traverse firstn] in *; [now inversion E|].
  destruct (f x) as [y|]; [|discriminate].
  destruct (traverse f r) as [ys|] eqn:Er; [|discriminate].
  inversion E. cbn [firstn]. now rewrite (IH _ _ Er).
Qed.

Lemma traverse_skipn {A B} (f : A -> option B) l t n :
  traverse f l = Some t -> traverse f (skipn n l) = Some (skipn n t).
Proof.
  revert l t. induction n as [|n IH]; intros l t E; [exact E|].
  destruct l as [|x r]; cbn [traverse skipn] in *; [now inversion E|].
  destruct (f x) as [y|]; [|discriminate].
  destruct (traverse f r) as [ys|] eqn:Er; [|discriminate].
  inversion E. cbn [skipn]. now apply IH.
Qed.

Lemma traverse_length {A B} (f : A -> option B) l t :
  traverse f l = Some t -> List.length l = List.length t.
Proof.
  revert t. induction l as [|x r IH]; intros t E; cbn [traverse] in E.
  - now inversion E.
  - destruct (f x) as [y|]; [|discriminate].
    destruct (traverse f r) as [ys|]; [|discriminate].
    inversion E. cbn [List.length]. now rewrite (IH ys eq_refl).
Qed.

(** Splicing an object into an array splices its value into the value. *)
Lemma traverse_splice {A B} (f : A -> option B) l t index x y :
  traverse f l = Some t -> f x = Some y ->
  traverse f (splice index x l) = Some (splice index y t).
Proof.
  intros E Ex. unfold splice.
  assert (Hs : spliceStart index l = spliceStart index t).
  { unfold spliceStart. now rewrite (traverse_length _ _ E). }
  rewrite Hs. apply traverse_app; [now apply traverse_firstn|].
  cbn [traverse]. rewrite Ex. now rewrite (traverse_skipn _ _ (spliceStart index t) E).
Qed.

Section WriteThrough.

(** [h1] is [h] after one write, into the array [ka]; cells from [B] on do
    not matter. *)
Variables (h h1 : Heap) (ka B : nat).
Hypothesis Hsame :
  forall y, y <> ka -> (y < B)%nat -> nth_error h1 y = nth_error h y.

Lemma sameOn_away lo hi :
  (hi <= B)%nat -> (ka < lo \/ hi <= ka)%nat -> sameOn lo hi h h1.
Proof. intros H1 H2 y Hy. apply Hsame; lia. Qed.

(** Reading an array one element of which changed: the other elements are
    laid out away from the write. *)
Lemma layList_update :
  forall ks n lo ls hi xb,
    layList h ks lo ls hi -> (hi <= B)%nat -> nth_error ks n = Some xb ->
    exists x lo_n,
      nth_error ls n = Some x /\ layNode h xb lo_n x
      /\ (lo <= lo_n)%nat /\ (x < hi)%nat
      /\ (forall (g : Bookmark -> Bookmark) (F : nat),
             (lo_n <= ka <= x)%nat ->
             (forall fuel, (F <= fuel)%nat -> readNode fuel h1 x = Some (g xb)) ->
             forall fuel, (F <= fuel)%nat -> (hi - lo <= S fuel)%nat ->
                          traverse (readNodeWith (readArray fuel h1) h1) ls
                          = Some (Helper.mapNth n g ks)).
Proof.
  induction ks as [|k r IH]; intros n lo ls hi xb L HB En;
    [destruct n; discriminate|].
  destruct ls as [|x0 ls0]; cbn [layList] in L; [contradiction|].
  destruct L as [L1 L2].
  destruct (proj2 (lay_range h) _ _ _ _ L2) as [Hx0 _].
  pose proof (proj1 (lay_range h) _ _ _ L1) as Hlo.
  destruct n as [|m]; cbn [nth_error] in En.
  - inversion En; subst xb. exists x0, lo.
    split; [reflexivity|]. split; [exact L1|]. split; [lia|]. split; [lia|].
    intros g F Hka Hread fuel HF Hfuel. cbn [traverse Helper.mapNth].
    change (readNodeWith (readArray fuel h1) h1 x0) with (readNode fuel h1 x0).
    rewrite (Hread fuel HF).
    assert (L3 : layList h1 r (S x0) ls0 hi).
    { apply (proj2 (lay_frame h h1)); [|exact L2]. apply sameOn_away; lia. }
    rewrite (proj2 (lay_read h1) _ _ _ _ fuel L3); [reflexivity|lia].
  - destruct (IH m (S x0) ls0 hi xb L2 HB En) as [x [lo_n [E1 [E2 [E3 [E4 E5]]]]]].
    exists x, lo_n. split; [exact E1|]. split; [exact E2|]. split; [lia|].
    split; [exact E4|].
    intros g F Hka Hread fuel HF Hfuel. cbn [traverse Helper.mapNth].
    assert (L3 : layNode h1 k lo x0).
    { apply (proj1 (lay_frame h h1)); [|exact L1]. apply sameOn_away; lia. }
    change (readNodeWith (readArray fuel h1) h1 x0) with (readNode fuel h1 x0).
    rewrite (proj1 (lay_read h1) _ _ _ fuel L3) by lia.
    rewrite (E5 g F Hka Hread fuel HF); [reflexivity|lia].
Qed.

Variables (ls1 : list loc) (kids1 : list Bookmark) (F0 : nat).
Hypothesis Hka : nth_error h1 ka = Some (CArray ls1).
Hypothesis Hkids :
  forall fuel, (F0 <= fuel)%nat ->
               traverse (readNodeWith (readArray fuel h1) h1) ls1 = Some kids1.

(** Writing the children array of the bookmark a reference denotes changes
    the value of the tree as the write through that reference does. *)
Lemma write_through :
  forall p ks lo ls hi a b kids l,
    layList h ks lo ls hi -> nth_error h a = Some (CArray ls) ->
    (hi <= a)%nat -> (a < B)%nat ->
    Helper.deref ks p = Some b -> children b = Some kids ->
    nodeAt h a p = Some l -> l = S ka ->
    (lo <= ka)%nat /\ (S ka < hi)%nat
    /\ exists F, forall fuel, (F <= fuel)%nat ->
                             readArray fuel h1 a
                             = Some (Helper.updateAt (setChildren (Some kids1)) ks p).
Proof.
  induction p as [|n q IH]; intros ks lo ls hi a b kids l L Ha Hhi HB Hd Hk Hn Hl;
    [discriminate|].
  cbn [Helper.deref] in Hd.
  destruct (nth_error ks n) as [xb|] eqn:En; [|discriminate].
  cbn [nodeAt] in Hn. rewrite Ha in Hn.
  assert (HhiB : (hi <= B)%nat) by lia.
  destruct q as [|m q1].
  - (* the bookmark is an element of this array *)
    inversion Hd; subst xb. clear Hd.
    destruct (@layList_update ks n lo ls hi _ L HhiB En)
      as [x [lo_n [E1 [E2 [E3 [E4 E5]]]]]].
    rewrite E1 in Hn. inversion Hn; subst x. clear Hn.
    destruct b as [i t u d g c]. cbn [children] in Hk. subst c.
    apply layNode_folder in E2. destruct E2 as [lsk [a1 [Hl1 [C1 [C2 C3]]]]].
    assert (a1 = ka) by lia. subst a1.
    destruct (proj2 (lay_range h) _ _ _ _ C3) as [Hr1 _].
    split; [lia|]. split; [lia|].
    exists (S (Nat.max (S F0) (hi - lo))). intros fuel HF.
    destruct fuel as [|f]; [lia|]. cbn [readArray].
    rewrite (Hsame (y := a)) by lia. rewrite Ha.
    cbn [Helper.updateAt]. apply (E5 (setChildren (Some kids1)) (S F0)); try lia.
    intros fuel1 HF1. unfold readNode, readNodeWith.
    rewrite (Hsame (y := l)) by lia. rewrite C1.
    cbn [o_children o_id o_title o_url o_description o_tags].
    destruct fuel1 as [|f1]; [lia|]. cbn [readArray]. rewrite Hka.
    rewrite Hkids by lia. reflexivity.
  - (* the bookmark lies below an element of this array *)
    destruct (children xb) as [ks1|] eqn:Ek1; [|discriminate].
    set (f := setChildren (Some kids1)).
    set (g := fun b0 : Bookmark =>
                match children b0 with
                | None => b0
                | Some ks0 => setChildren (Some (Helper.updateAt f ks0 (m :: q1))) b0
                end).
    destruct xb as [i t u d g0 c]. cbn [children] in Ek1. subst c.
    destruct (@layList_update ks n lo ls hi _ L HhiB En)
      as [x [lo_n [E1 [E2 [E3 [E4 E5]]]]]].
    rewrite E1 in Hn.
    apply layNode_folder in E2. destruct E2 as [lsx [a1 [Hx [C1 [C2 C3]]]]].
    rewrite C1 in Hn. cbn [o_children] in Hn.
    destruct (IH ks1 lo_n lsx a1 a1 b kids l C3 C2 (le_n _) ltac:(lia) Hd Hk Hn Hl)
      as [R1 [R2 [F1 R3]]].
    split; [lia|]. split; [lia|].
    exists (S (Nat.max F1 (hi - lo))). intros fuel HF.
    destruct fuel as [|f1]; [lia|]. cbn [readArray].
    rewrite (Hsame (y := a)) by lia. rewrite Ha.
    change (Helper.updateAt f ks (n :: m :: q1)) with (Helper.mapNth n g ks).
    apply (E5 g F1); try lia.
    intros fuel1 HF1. unfold readNode, readNodeWith.
    rewrite (Hsame (y := x)) by lia. rewrite C1.
    cbn [o_children o_id o_title o_url o_description o_tags].
    rewrite (R3 fuel1 HF1). reflexivity.
Qed.

End WriteThrough.

Lemma nth_error_write_other (h : Heap) a c y :
  y <> a -> nth_error (write a c h) y = nth_error h y.
Proof.
  revert a y. induction h as [|x r IH]; intros a y Hy; [now destruct a|].
  destruct a as [|a]; destruct y as [|y]; cbn [write nth_error]; try reflexivity;
    try congruence. apply IH. congruence.
Qed.

Lemma nth_error_write_same (h : Heap) a c :
  (a < List.length h)%nat -> nth_error (write a c h) a = Some c.
Proof.
  revert a. induction h as [|x r IH]; intros a Ha; cbn [List.length] in Ha; [lia|].
  destruct a as [|a]; cbn [write nth_error]; [reflexivity|]. apply IH. lia.
Qed.

(** Where a reference of the value leads in a laid-out tree. *)
Lemma locate h :
  forall p ks lo ls hi a b,
    layList h ks lo ls hi -> nth_error h a = Some (CArray ls) ->
    Helper.deref ks p = Some b ->
    exists l lb, nodeAt h a p = Some l /\ layNode h b lb l
                 /\ (lo <= lb)%nat /\ (l < hi)%nat.
Proof.
  induction p as [|n q IH]; intros ks lo ls hi a b L Ha Hd; [discriminate|].
  cbn [Helper.deref] in Hd.
  destruct (nth_error ks n) as [xb|] eqn:En; [|discriminate].
  destruct (@layList_update h h 0 hi (fun y _ _ => eq_refl) ks n lo ls hi xb L
                            (le_n _) En)
    as [x [lo_n [E1 [E2 [E3 [E4 _]]]]]].
  cbn [nodeAt]. rewrite Ha, E1.
  destruct q as [|m q1].
  - inversion Hd; subst xb. exists x, lo_n. auto.
  - destruct xb as [i t u d g c]. cbn [children] in Hd.
    destruct c as [ks1|]; [|discriminate].
    apply layNode_folder in E2. destruct E2 as [lsx [a1 [Hx [C1 [C2 C3]]]]].
    rewrite C1. cbn [o_children].
    destruct (IH _ _ _ _ _ _ C3 C2 Hd) as [l [lb [N1 [N2 [N3 N4]]]]].
    exists l, lb. split; [exact N1|]. split; [exact N2|]. split; lia.
Qed.

End HeapLayout.

(** The call on the store and the call on values agree: when the array
    given holds the tree [t], the call on the store fails exactly as
    [addBookmark] on [t] fails, and when it succeeds the array it returns
    holds the tree, and the object it returns the bookmark, that
    [addBookmark] on [t] computes. *)
Lemma addBookmark_on_store_refines
      (bookmarkMetadata : BookmarkMetadata) (parentId index : Z)
      (bookmarks : Heap.loc) (h : Heap.Heap) (t : list Bookmark) :
  Heap.readArray (Heap.fuelFor h) h bookmarks = Some t ->
  match addBookmark bookmarkMetadata parentId index t with
  | Rejected e =>
      fst (Heap.addBookmark bookmarkMetadata parentId index bookmarks h) = Rejected e
  | Resolved r =>
      exists bookmark updatedBookmarks,
        fst (Heap.addBookmark bookmarkMetadata parentId index bookmarks h)
        = Resolved (bookmark, updatedBookmarks)
        /\ Heap.valueOfArray (snd (Heap.addBookmark bookmarkMetadata parentId index bookmarks h))
                        updatedBookmarks (r_bookmarks r)
        /\ Heap.valueOfNode (snd (Heap.addBookmark bookmarkMetadata parentId index bookmarks h))
                       bookmark (r_bookmark r)
  end.
Proof.
  intros Hread.
  unfold Heap.addBookmark, Heap.copy. rewrite Hread.
  unfold Heap.allocArray.
  destruct (Heap.allocBookmarks t h) as [ls h0] eqn:Ecopy. cbn [Heap.alloc].
  set (ub := List.length h0). set (h1 := h0 ++ [Heap.CArray ls]).
  pose proof (proj2 HeapLayout.alloc_lay _ _ _ _ Ecopy) as L0.
  destruct (HeapFacts.allocBookmarks_extends _ _ Ecopy) as [e0 [E0 _]].
  assert (L1 : Heap.layList h1 t (List.length h) ls ub).
  { apply (proj2 (HeapLayout.lay_frame h0 h1)); [|exact L0].
    apply HeapLayout.sameOn_app. subst ub. lia. }
  assert (A1 : nth_error h1 ub = Some (Heap.CArray ls))
    by apply HeapLayout.nth_error_snoc.
  assert (Hlen1 : List.length h1 = S ub)
    by (subst h1 ub; rewrite length_app; simpl; lia).
  destruct (proj2 (HeapLayout.lay_range h1) _ _ _ _ L1) as [Hlo1 _].
  assert (R1 : Heap.readArray (Heap.fuelFor h1) h1 ub = Some t).
  { unfold Heap.fuelFor. cbn [Heap.readArray]. rewrite A1.
    apply (proj2 (HeapLayout.lay_read h1) _ _ _ _ _ L1). lia. }
  unfold Heap.findBookmarkById. rewrite R1.
  unfold addBookmark, angular_copy.
  destruct (Helper.findBookmarkRef parentId t) as [p|] eqn:Eref; [|reflexivity].
  destruct (findBookmarkRef_deref _ _ Eref) as [parentB [Hd _]]. rewrite Hd.
  destruct (@HeapLayout.locate h1 p t (List.length h) ls ub ub parentB L1 A1 Hd)
    as [l [lb [N1 [N2 [N3 N4]]]]].
  rewrite N1.
  assert (Hag1 : Heap.agree h h1).
  { subst h1. rewrite E0, <- app_assoc. apply HeapFacts.agree_prefix. }
  assert (R2 : Heap.readArray (Heap.fuelFor h1) h1 bookmarks = Some t).
  { apply (HeapFacts.readArray_agree Hag1).
    apply (HeapLayout.readArray_fuel_mono _ _ Hread). unfold Heap.fuelFor.
    subst h1. rewrite E0, !length_app. lia. }
  rewrite R2.
  set (created := Helper.newBookmark (m_title bookmarkMetadata) (m_url bookmarkMetadata)
                                     (m_description bookmarkMetadata)
                                     (m_tags bookmarkMetadata)
                                     (m_isSeparator bookmarkMetadata) t).
  destruct (Heap.allocBookmark created h1) as [bl h2] eqn:Enew.
  destruct (proj1 HeapLayout.alloc_lay _ _ _ _ Enew) as [Lnew Hlen2].
  destruct (HeapFacts.allocBookmark_extends _ _ Enew) as [e2 [E2 _]].
  pose proof (proj1 (HeapLayout.lay_range h2) _ _ _ Lnew) as Hbl.
  assert (S12 : forall lo hi, (hi <= List.length h1)%nat -> Heap.sameOn lo hi h1 h2).
  { intros lo hi Hhi. rewrite E2. now apply HeapLayout.sameOn_app. }
  assert (N2' : Heap.layNode h2 parentB lb l).
  { apply (proj1 (HeapLayout.lay_frame h1 h2)); [|exact N2]. apply S12. lia. }
  destruct parentB as [i ti u d g c]. cbn [children].
  destruct c as [kids|].
  - (* a folder: the splice goes into its children array *)
    apply HeapLayout.layNode_folder in N2'.
    destruct N2' as [lsk [ka [Hl [C1 [C2 C3]]]]].
    rewrite C1. cbn [Heap.o_children]. rewrite C2.
    destruct (proj2 (HeapLayout.lay_range h2) _ _ _ _ C3) as [Hkr _].
    cbn [fst snd].
    set (h3 := Heap.write ka (Heap.CArray (splice index bl lsk)) h2).
    exists bl, ub. split; [reflexivity|].
    assert (Hka3 : nth_error h3 ka = Some (Heap.CArray (splice index bl lsk))).
    { apply HeapLayout.nth_error_write_same. lia. }
    assert (Hsame : forall y, y <> ka -> (y < List.length h1)%nat ->
                              nth_error h3 y = nth_error h2 y).
    { intros y Hy _. now apply HeapLayout.nth_error_write_other. }
    assert (Hnew3 : forall fuel, (bl <= fuel)%nat ->
                                 Heap.readNode fuel h3 bl = Some created).
    { intros fuel Hf.
      apply (proj1 (HeapLayout.lay_read h3) _ (List.length h1)); [|lia].
      apply (proj1 (HeapLayout.lay_frame h2 h3)); [|exact Lnew].
      intros y Hy. apply HeapLayout.nth_error_write_other. lia. }
    assert (Hkids : forall fuel, (Nat.max ka bl <= fuel)%nat ->
                                 Heap.traverse
                                   (Heap.readNodeWith (Heap.readArray fuel h3) h3)
                                   (splice index bl lsk)
                                 = Some (splice index created kids)).
    { intros fuel Hf. apply HeapLayout.traverse_splice.
      - apply (proj2 (HeapLayout.lay_read h3) _ lb _ ka); [|lia].
        apply (proj2 (HeapLayout.lay_frame h2 h3)); [|exact C3].
        intros y Hy. apply HeapLayout.nth_error_write_other. lia.
      - apply Hnew3. lia. }
    split.
    + assert (L2 : Heap.layList h2 t (List.length h) ls ub).
      { apply (proj2 (HeapLayout.lay_frame h1 h2)); [|exact L1]. apply S12. lia. }
      assert (A2 : nth_error h2 ub = Some (Heap.CArray ls)).
      { rewrite E2. rewrite nth_error_app1 by lia. exact A1. }
      assert (Hag2 : Heap.agree h1 h2) by (rewrite E2; apply HeapFacts.agree_prefix).
      pose proof (HeapLayout.nodeAt_agree Hag2 _ _ N1) as N1'.
      destruct (@HeapLayout.write_through h2 h3 ka (List.length h1) Hsame
                  (splice index bl lsk) (splice index created kids) (Nat.max ka bl)
                  Hka3 Hkids p t (List.length h) ls ub ub
                  (mkBookmark i ti u d g (Some kids)) kids l
                  L2 A2 (le_n _) ltac:(lia) Hd eq_refl N1' Hl)
        as [_ [_ HF]].
      exact HF.
    + exists bl. exact Hnew3.
  - (* a bookmark without child array *)
    destruct N2' as [_ C1]. rewrite C1. reflexivity.
Qed.

(** C8: [addBookmark] does not write into the array it is given.  Every
    object that existed before the call is unchanged after it (the call only
    adds objects and writes into its copy), so the input array holds the same
    tree before and after, when the call succeeds and when it fails (with
    [BookmarkNotFoundException] when no bookmark has the parent id).  On
    success the tree returned is a complete replacement: a new array, which
    holds the tree with the bookmark added. *)
Theorem addBookmark_leaves_input_untouched
        (bookmarkMetadata : BookmarkMetadata) (parentId index : Z)
        (bookmarks : Heap.loc) (h : Heap.Heap) (t : list Bookmark) :
  Heap.readArray (Heap.fuelFor h) h bookmarks = Some t ->
  let out := Heap.addBookmark bookmarkMetadata parentId index bookmarks h in
  firstn (List.length h) (snd out) = h
  /\ Heap.readArray (Heap.fuelFor h) (snd out) bookmarks = Some t
  /\ match addBookmark bookmarkMetadata parentId index t with
     | Rejected e => fst out = Rejected e
     | Resolved r =>
         exists bookmark updatedBookmarks,
           fst out = Resolved (bookmark, updatedBookmarks)
           /\ updatedBookmarks <> bookmarks
           /\ nth_error h updatedBookmarks = None
           /\ nth_error h bookmark = None
           /\ Heap.valueOfArray (snd out) updatedBookmarks (r_bookmarks r)
           /\ Heap.valueOfNode (snd out) bookmark (r_bookmark r)
     end.
Proof.
  intros Hread out. subst out.
  destruct (HeapFacts.addBookmark_appends bookmarkMetadata parentId index bookmarks h)
    as [ext [E Hnew]].
  split; [rewrite E; apply HeapFacts.firstn_prefix|]. split.
  - rewrite E.
    eapply HeapFacts.readArray_agree; [apply HeapFacts.agree_prefix | exact Hread].
  - pose proof (addBookmark_on_store_refines bookmarkMetadata parentId index
                                              bookmarks h Hread) as Href.
    destruct (addBookmark bookmarkMetadata parentId index t) as [r|e]; [|exact Href].
    destruct Href as [bookmark [updatedBookmarks [Hres [Hv1 Hv2]]]].
    exists bookmark, updatedBookmarks. rewrite Hres in Hnew. destruct Hnew as [Hb Hu].
    assert (Hin : (bookmarks < List.length h)%nat).
    { apply nth_error_Some. unfold Heap.fuelFor in Hread. cbn [Heap.readArray] in Hread.
      destruct (nth_error h bookmarks); [discriminate|discriminate Hread]. }
    split; [exact Hres|]. split; [lia|].
    split; [now apply nth_error_None|]. split; [now apply nth_error_None|].
    split; assumption.
Qed.

(** The sample tree laid out in an empty store; a call that succeeds
    (parent 2) and a call that fails (no parent 99) both leave it as it was. *)
Lemma addBookmark_leaves_input_untouched_witness :
  let stored := Heap.allocArray Sample.tree [] in
  let metadata := mkMetadata (Some "N") (Some "http://n.example") None None false in
  let h := snd stored in
  isResolved (fst (Heap.addBookmark metadata 2 0 (fst stored) h)) = true
  /\ Heap.readArray (Heap.fuelFor h) (snd (Heap.addBookmark metadata 2 0 (fst stored) h))
                    (fst stored) = Some Sample.tree
  /\ fst (Heap.addBookmark metadata 99 0 (fst stored) h)
     = Rejected BookmarkNotFoundException
  /\ Heap.readArray (Heap.fuelFor h) (snd (Heap.addBookmark metadata 99 0 (fst stored) h))
                    (fst stored) = Some Sample.tree.
Proof.
  intros stored metadata h.
  split; [reflexivity|]. split; [|split; [reflexivity|]].
  - destruct (@addBookmark_leaves_input_untouched metadata 2 0 (fst stored) h
                Sample.tree eq_refl) as [_ [H _]].
    exact H.
  - destruct (@addBookmark_leaves_input_untouched metadata 99 0 (fst stored) h
                Sample.tree eq_refl) as [_ [H _]].
    exact H.
Defined.

(** On the sample tree the call on the store and the call on values agree:
    the array returned holds the tree [addBookmark] computes, and the
    bookmark returned is the one it created. *)
Lemma addBookmark_on_store_agrees_on_sample :
  let stored := Heap.allocArray Sample.tree [] in
  let metadata := mkMetadata (Some "N") (Some "http://n.example") None None false in
  exists bookmark updatedBookmarks h1 r,
    Heap.addBookmark metadata 4 1 (fst stored) (snd stored)
    = (Resolved (bookmark, updatedBookmarks), h1)
    /\ addBookmark metadata 4 1 Sample.tree = Resolved r
    /\ Heap.readArray (Heap.fuelFor h1) h1 updatedBookmarks = Some (r_bookmarks r)
    /\ Heap.readNode (Heap.fuelFor h1) h1 bookmark = Some (r_bookmark r).
Proof.
  do 4 eexists. split; [reflexivity|]. split; [reflexivity|]. split; reflexivity.
Qed.


(* ================================================================== *)
(** ** Replaying canonical changes on the native tree *)

Section Replay.

Variable Host : Type.
Variable api : HostApi Host.
Variable P : Platform.

(** X1: [processChangeTypeAddOnNativeBookmarks] asks the host for one
    bookmark, under the native root of the other container, without an
    index, with the title of the change and its url made a supported one.
    When the host creates it, one mapping from the synced id to the id of
    the new native bookmark is appended to the table; when the host fails,
    the call fails with [FailedCreateNativeBookmarksException] around the
    host's error and the table is as before. *)
Theorem processChangeTypeAddOnNativeBookmarks_creates_and_maps
        (syncedBookmarkId : Z) (createInfo : BookmarkMetadata) (w : World Host) :
  let sent :=
    mkCreate None (nativeContainerIds P Other) (m_title createInfo)
             (option_map (fun u => if urlIsSupported P u then u else getNewTabUrl P)
                         (m_url createInfo)) in
  let out := processChangeTypeAddOnNativeBookmarks api P syncedBookmarkId createInfo w in
  nativeWrites (w_events (snd out)) = nativeWrites (w_events w) ++ [EvCreate sent]
  /\ match fst (host_create api sent (w_host w)) with
     | Resolved n =>
         fst out = Resolved tt
         /\ w_idMappings (snd out)
            = w_idMappings w ++ [mkMapping syncedBookmarkId (n_id n)]
     | Rejected e =>
         fst out = Rejected (FailedCreateNativeBookmarksException e)
         /\ w_idMappings (snd out) = w_idMappings w
     end.
Proof.
  intros sent out. subst out sent.
  unfold processChangeTypeAddOnNativeBookmarks, createNativeBookmark, getSupportedUrl,
    getNativeContainerIds, idMapper_add, bind, catch, ret, browser_create,
    logInfo, logWarning, throw.
  destruct (m_url createInfo) as [u|]; cbn [option_map];
    [destruct (urlIsSupported P u); cbn [negb]|];
    cbn [fst snd w_events w_host w_idMappings setHost emit];
    match goal with
    | |- context [host_create api ?d ?h] => destruct (host_create api d h) as [[n|e] h1]
    end;
    cbn [fst snd w_events w_host w_idMappings setHost setIdMappings emit];
    rewrite ?nativeWrites_app; cbn [nativeWrites filter isNativeWrite app];
    rewrite ?app_nil_r, <- ?app_assoc; repeat split; reflexivity.
Qed.

Lemma find_filter_other {A} (f g : A -> bool) (l : list A) :
  (forall x, f x = true -> g x = false) -> find f (filter g l) = None.
Proof.
  intros H. induction l as [|x r IH]; [reflexivity|]. simpl.
  destruct (g x) eqn:G; [|exact IH]. simpl.
  destruct (f x) eqn:F; [|exact IH]. apply H in F. congruence.
Qed.

(** X2: [processChangeTypeRemoveOnNativeBookmarks] on a synced id without a
    mapping only logs a warning.  On a mapped id it asks the host to remove
    the subtree of the mapped native node; when the host does, every mapping
    of the synced id leaves the table, so that a later lookup of the id
    finds nothing; when the host fails, the call fails with
    [FailedRemoveNativeBookmarksException] around the host's error and the
    mapping is kept. *)
Theorem processChangeTypeRemoveOnNativeBookmarks_unmaps_after_removal
        (syncedBookmarkId : Z) (w : World Host) :
  let out := processChangeTypeRemoveOnNativeBookmarks api syncedBookmarkId w in
  match IdMapper.get None (Some syncedBookmarkId) (w_idMappings w) with
  | None =>
      out = (Resolved tt,
             emit (EvLogWarning (MsgNoMappingForSyncedId syncedBookmarkId)) w)
  | Some m =>
      nativeWrites (w_events (snd out))
      = nativeWrites (w_events w) ++ [EvRemoveTree (nativeId m)]
      /\ match fst (host_removeTree api (nativeId m) (w_host w)) with
         | Resolved _ =>
             fst out = Resolved tt
             /\ w_idMappings (snd out)
                = filter (fun x => negb (syncedId x =? syncedBookmarkId)) (w_idMappings w)
             /\ IdMapper.get None (Some syncedBookmarkId) (w_idMappings (snd out)) = None
         | Rejected e =>
             fst out = Rejected (FailedRemoveNativeBookmarksException e)
             /\ w_idMappings (snd out) = w_idMappings w
         end
  end.
Proof.
  intros out. subst out.
  unfold processChangeTypeRemoveOnNativeBookmarks, removeNativeBookmarks,
    idMapper_get, idMapper_remove, bind, catch, ret, browser_removeTree,
    logInfo, logWarning, throw.
  destruct (IdMapper.get None (Some syncedBookmarkId) (w_idMappings w)) as [m|];
    [|reflexivity].
  destruct (host_removeTree api (nativeId m) (w_host w)) as [[u|e] h1];
    cbn [fst snd w_events w_host w_idMappings setHost setIdMappings emit];
    rewrite ?nativeWrites_app; cbn [nativeWrites filter isNativeWrite app];
    rewrite ?app_nil_r, <- ?app_assoc; repeat split; try reflexivity.
  - unfold IdMapper.remove. apply filter_ext. intros x.
    cbn [memZ memS existsb]. now rewrite !orb_false_r.
  - unfold IdMapper.get, IdMapper.remove. apply find_filter_other.
    intros x Hx. cbn [memZ memS existsb]. rewrite !orb_false_r.
    now rewrite Hx.
Qed.

(** X3: [processChangeTypeModifyOnNativeBookmarks] never changes the table
    of mappings.  On a synced id without a mapping it only logs a warning;
    on a mapped id it sends the host one update of the mapped native node,
    with the new title and no url, and fails with
    [FailedUpdateNativeBookmarksException] around the host's error exactly
    when the host fails. *)
Theorem processChangeTypeModifyOnNativeBookmarks_updates_title_of_mapped_node
        (syncedBookmarkId : Z) (updateInfo : BookmarkMetadata) (w : World Host) :
  let out := processChangeTypeModifyOnNativeBookmarks api P syncedBookmarkId updateInfo w in
  w_idMappings (snd out) = w_idMappings w
  /\ match IdMapper.get None (Some syncedBookmarkId) (w_idMappings w) with
     | None =>
         out = (Resolved tt,
                emit (EvLogWarning (MsgNoMappingForSyncedId syncedBookmarkId)) w)
     | Some m =>
         let sent := mkUpdate (m_title updateInfo) None in
         nativeWrites (w_events (snd out))
         = nativeWrites (w_events w) ++ [EvUpdate (nativeId m) sent]
         /\ fst out
            = match fst (host_update api (nativeId m) sent (w_host w)) with
              | Resolved _ => Resolved tt
              | Rejected e => Rejected (FailedUpdateNativeBookmarksException e)
              end
     end.
Proof.
  intros out. subst out.
  unfold processChangeTypeModifyOnNativeBookmarks, modifyNativeBookmark,
    idMapper_get, bind, catch, ret, browser_update, logInfo, logWarning, throw.
  cbn [u_url u_title].
  destruct (IdMapper.get None (Some syncedBookmarkId) (w_idMappings w)) as [m|];
    [|split; reflexivity].
  cbn zeta.
  destruct (host_update api (nativeId m) (mkUpdate (m_title updateInfo) None) (w_host w))
    as [[n|e] h1];
    cbn [fst snd w_events w_host w_idMappings setHost setIdMappings emit];
    rewrite ?nativeWrites_app; cbn [nativeWrites filter isNativeWrite app];
    rewrite ?app_nil_r, <- ?app_assoc; repeat split; reflexivity.
Qed.

(** X4: [processChangeOnNativeBookmarks] fails with
    [AmbiguousSyncRequestException] for the change types Move and
    ChildrenReordered and for no other: the three types it replays wrap
    every failure of the host, so none of them can fail this way.  When it
    fails so, nothing was written, logged or mapped. *)
Theorem processChangeOnNativeBookmarks_ambiguous_for_move_and_reorder_only
        (syncedBookmarkId : Z) (changeType : BookmarkChangeType.t)
        (changeInfo : BookmarkMetadata) (w : World Host) :
  let out := processChangeOnNativeBookmarks api P syncedBookmarkId changeType changeInfo w in
  (fst out = Rejected AmbiguousSyncRequestException
   <-> changeType = BookmarkChangeType.Move
       \/ changeType = BookmarkChangeType.ChildrenReordered)
  /\ (fst out = Rejected AmbiguousSyncRequestException -> snd out = w).
Proof.
  intros out. subst out.
  destruct changeType; cbn [processChangeOnNativeBookmarks].
  - (* Add *)
    unfold processChangeTypeAddOnNativeBookmarks, createNativeBookmark, getSupportedUrl,
      getNativeContainerIds, idMapper_add, bind, catch, ret, browser_create,
      logInfo, logWarning, throw.
    destruct (m_url changeInfo) as [u|];
      [destruct (urlIsSupported P u); cbn [negb]|];
      cbn [fst snd w_events w_host w_idMappings setHost emit];
      match goal with
      | |- context [host_create api ?d ?h] => destruct (host_create api d h) as [[n|e] h1]
      end; cbn [fst snd]; (split; [split; [discriminate|intros [H|H]; discriminate]
                                  |discriminate]).
  - split; [|reflexivity]. split; [now right|reflexivity].
  - (* Modify *)
    unfold processChangeTypeModifyOnNativeBookmarks, modifyNativeBookmark,
      idMapper_get, bind, catch, ret, browser_update, logInfo, logWarning, throw.
    cbn [u_url u_title].
    destruct (IdMapper.get None (Some syncedBookmarkId) (w_idMappings w)) as [m|];
      [destruct (host_update api (nativeId m) (mkUpdate (m_title changeInfo) None) (w_host w))
        as [[n|e] h1]|];
      cbn [fst snd]; (split; [split; [discriminate|intros [H|H]; discriminate]
                             |discriminate]).
  - split; [|reflexivity]. split; [now left|reflexivity].
  - (* Remove *)
    unfold processChangeTypeRemoveOnNativeBookmarks, removeNativeBookmarks,
      idMapper_get, idMapper_remove, bind, catch, ret, browser_removeTree,
      logInfo, logWarning, throw.
    destruct (IdMapper.get None (Some syncedBookmarkId) (w_idMappings w)) as [m|];
      [destruct (host_removeTree api (nativeId m) (w_host w)) as [[u|e] h1]|];
      cbn [fst snd]; (split; [split; [discriminate|intros [H|H]; discriminate]
                             |discriminate]).
Qed.

End Replay.

(* ================================================================== *)
(** ** Pairing native nodes with bookmarks *)

Lemma mapIdsOfNode_unfold i p x t u c synced :
  mapIdsOfNode (mkNative i p x t u c) synced =
  match synced with
  | None => Rejected TypeError
  | Some s =>
      match c with
      | Some (k :: r) =>
          match mapIdsFrom (k :: r) (children s) 0%nat with
          | Rejected e => Rejected e
          | Resolved sub => Resolved (IdMapper.createMapping (id s) i :: sub)
          end
      | _ => Resolved [IdMapper.createMapping (id s) i]
      end
  end.
Proof.
  destruct synced as [s|]; [|reflexivity].
  destruct c as [[|k r]|]; try reflexivity.
  cbn [mapIdsOfNode mapIdsFrom].
  match goal with
  | |- context [?F r 1%nat] =>
      assert (H : forall l n, F l n = mapIdsFrom l (children s) n)
  end.
  { induction l as [|y l IH]; intros n; [reflexivity|].
    cbn [mapIdsFrom]. destruct (mapIdsOfNode y (syncedAt (children s) n)); [|reflexivity].
    now rewrite IH. }
  now rewrite H.
Qed.

Lemma nativeFlatten_unfold i p x t u c :
  nativeFlatten (mkNative i p x t u c) =
  mkNative i p x t u c ::
  match c with None => [] | Some ks => flat_map nativeFlatten ks end.
Proof. reflexivity. Qed.

Lemma syncedAt_In ss n s : syncedAt ss n = Some s -> exists l, ss = Some l /\ In s l.
Proof.
  destruct ss as [l|]; [|discriminate]. simpl. intros H.
  exists l. split; [reflexivity|]. eapply nth_error_In; eauto.
Qed.

Lemma allIds_In_root s l x :
  In s l -> In x (map id (Helper.flatten s)) -> In x (Helper.allIds l).
Proof.
  intros Hs Hx. unfold Helper.allIds, Helper.eachBookmark.
  apply in_map_iff in Hx. destruct Hx as [b [<- Hb]].
  apply in_map. apply in_flat_map. now exists s.
Qed.

(** Every rejection of [mapIds] is the [TypeError] of a missing bookmark. *)
Lemma mapIdsFrom_rejects_with_TypeError :
  forall l ss n e, mapIdsFrom l ss n = Rejected e -> e = TypeError.
Proof.
  apply (natives_ind2
           (fun v => forall synced e, mapIdsOfNode v synced = Rejected e -> e = TypeError)
           (fun l => forall ss n e, mapIdsFrom l ss n = Rejected e -> e = TypeError)).
  - discriminate.
  - intros v r Hv Hr ss n e. cbn [mapIdsFrom].
    destruct (mapIdsOfNode v (syncedAt ss n)) eqn:E1; [|intros [= <-]; eauto].
    destruct (mapIdsFrom r ss (S n)) eqn:E2; [discriminate|]. intros [= <-]. eauto.
  - intros i p x t u synced e. rewrite mapIdsOfNode_unfold.
    destruct synced; [discriminate|]. now intros [= <-].
  - intros i p x t u ks Hks synced e. rewrite mapIdsOfNode_unfold.
    destruct synced as [s|]; [|now intros [= <-]].
    destruct ks as [|k r]; [discriminate|].
    destruct (mapIdsFrom (k :: r) (children s) 0) eqn:E; [discriminate|].
    intros [= <-]. eauto.
Qed.

Lemma mapIdsFrom_covers :
  forall l ss n ms,
    mapIdsFrom l ss n = Resolved ms ->
    map nativeId ms = map n_id (flat_map nativeFlatten l)
    /\ Forall (fun m => In (syncedId m)
                         (match ss with Some l => Helper.allIds l | None => [] end)) ms.
Proof.
  apply (natives_ind2
           (fun v => forall synced ms,
                mapIdsOfNode v synced = Resolved ms ->
                map nativeId ms = map n_id (nativeFlatten v)
                /\ exists s, synced = Some s
                             /\ Forall (fun m => In (syncedId m) (map id (Helper.flatten s))) ms)
           (fun l => forall ss n ms,
                mapIdsFrom l ss n = Resolved ms ->
                map nativeId ms = map n_id (flat_map nativeFlatten l)
                /\ Forall (fun m => In (syncedId m)
                         (match ss with Some l => Helper.allIds l | None => [] end)) ms)).
  - intros ss n ms [= <-]. now split.
  - intros v r Hv Hr ss n ms. cbn [mapIdsFrom].
    destruct (mapIdsOfNode v (syncedAt ss n)) as [acc|] eqn:E1; [|discriminate].
    destruct (mapIdsFrom r ss (S n)) as [rest|] eqn:E2; [|discriminate].
    intros [= <-].
    destruct (Hv _ _ E1) as [H1 [s [Hs H2]]]. destruct (Hr _ _ _ E2) as [H3 H4].
    split.
    + cbn [flat_map]. now rewrite !map_app, H1, H3.
    + apply Forall_app. split; [|exact H4].
      destruct (syncedAt_In _ _ Hs) as [l [-> Hin]].
      eapply Forall_impl; [|exact H2]. intros m Hm.
      eapply allIds_In_root; eauto.
  - intros i p x t u synced ms. rewrite mapIdsOfNode_unfold.
    destruct synced as [s|]; [|discriminate]. intros [= <-]. split; [reflexivity|].
    exists s. split; [reflexivity|]. constructor; [|constructor].
    cbn [syncedId IdMapper.createMapping]. rewrite getIdsFromDescendants_flatten. now left.
  - intros i p x t u ks Hks synced ms. rewrite mapIdsOfNode_unfold.
    destruct synced as [s|]; [|discriminate].
    assert (Hself : In (id s) (map id (Helper.flatten s))).
    { rewrite getIdsFromDescendants_flatten. now left. }
    destruct ks as [|k r].
    + intros [= <-]. split; [reflexivity|].
      exists s. split; [reflexivity|]. constructor; [exact Hself|constructor].
    + destruct (mapIdsFrom (k :: r) (children s) 0) as [sub|] eqn:E; [|discriminate].
      intros [= <-]. destruct (Hks _ _ _ E) as [H1 H2]. split.
      * rewrite nativeFlatten_unfold. cbn [map]. now rewrite H1.
      * exists s. split; [reflexivity|]. constructor; [exact Hself|].
        eapply Forall_impl; [|exact H2]. intros m Hm.
        rewrite flatten_eq. cbn [map]. right.
        destruct (children s) as [cs|]; [exact Hm|destruct Hm].
Qed.

Lemma convertNativeBookmarkToBookmark_unfold i p x t u c bookmarks takenIds :
  convertNativeBookmarkToBookmark (mkNative i p x t u c) bookmarks takenIds =
  let newId := Helper.getNewBookmarkId bookmarks takenIds in
  let bookmark := Helper.newBookmarkWithId newId (Some t) u None None false in
  match c with
  | Some (k :: r) =>
      let (kids, takenIds2) :=
        convertNativeBookmarks (k :: r) bookmarks (takenIds ++ [newId]) in
      (setChildren (Some kids) bookmark, takenIds2)
  | _ => (bookmark, takenIds ++ [newId])
  end.
Proof.
  destruct c as [[|k r]|]; try reflexivity.
  cbn [convertNativeBookmarkToBookmark convertNativeBookmarks].
  destruct (convertNativeBookmarkToBookmark k bookmarks
              (takenIds ++ [Helper.getNewBookmarkId bookmarks takenIds])) as [b t1].
  match goal with
  | |- context [?F r t1] =>
      assert (H : forall l taken, F l taken = convertNativeBookmarks l bookmarks taken)
  end.
  { induction l as [|y l IH]; intros taken; [reflexivity|].
    cbn [convertNativeBookmarks].
    destruct (convertNativeBookmarkToBookmark y bookmarks taken) as [b0 t0].
    now rewrite IH. }
  now rewrite H.
Qed.

Lemma maxId_ge l x : In x l -> x <= Helper.maxId l.
Proof.
  induction l as [|y r IH]; [intros []|]. intros [->|H]; cbn [Helper.maxId fold_right].
  - apply Z.le_max_l.
  - specialize (IH H). fold (Helper.maxId r). lia.
Qed.

Lemma getNewBookmarkId_fresh bookmarks takenIds x :
  In x (Helper.allIds bookmarks) \/ In x takenIds ->
  x < Helper.getNewBookmarkId bookmarks takenIds.
Proof.
  unfold Helper.getNewBookmarkId. intros [H|H]; apply maxId_ge in H; lia.
Qed.

Lemma newBookmarkWithId_folder_or_leaf newId t u :
  Helper.newBookmarkWithId newId t u None None false
  = mkBookmark newId t u None None (match u with Some _ => None | None => Some [] end).
Proof. unfold Helper.newBookmarkWithId. now destruct u. Qed.

Lemma allIds_single b : Helper.allIds [b] = map id (Helper.flatten b).
Proof. rewrite allIds_cons. apply app_nil_r. Qed.

Lemma convertNativeBookmarks_handsOut :
  forall l bookmarks takenIds,
    handsOut bookmarks takenIds
             (fst (convertNativeBookmarks l bookmarks takenIds))
             (snd (convertNativeBookmarks l bookmarks takenIds)).
Proof.
  apply (natives_ind2
           (fun v => forall bookmarks takenIds,
                handsOut bookmarks takenIds
                         [fst (convertNativeBookmarkToBookmark v bookmarks takenIds)]
                         (snd (convertNativeBookmarkToBookmark v bookmarks takenIds)))
           (fun l => forall bookmarks takenIds,
                handsOut bookmarks takenIds
                         (fst (convertNativeBookmarks l bookmarks takenIds))
                         (snd (convertNativeBookmarks l bookmarks takenIds))));
    unfold handsOut.
  - intros bookmarks takenIds. cbn. repeat split.
    + now rewrite app_nil_r.
    + intros x y [].
    + constructor.
  - intros v r Hv Hr bookmarks takenIds. cbn [convertNativeBookmarks].
    specialize (Hv bookmarks takenIds).
    destruct (convertNativeBookmarkToBookmark v bookmarks takenIds) as [b t1].
    specialize (Hr bookmarks t1).
    destruct (convertNativeBookmarks r bookmarks t1) as [bs t2].
    cbn [fst snd] in *. destruct Hv as [E1 [F1 N1]]. destruct Hr as [E2 [F2 N2]].
    rewrite allIds_cons. rewrite allIds_single in *. repeat split.
    + rewrite E2, E1. now rewrite app_assoc.
    + intros x y Hx Hy. apply in_app_or in Hx. destruct Hx as [Hx|Hx].
      * now apply F1.
      * apply (F2 x y Hx). destruct Hy as [Hy|Hy]; [now left|right].
        rewrite E1. apply in_or_app. now left.
    + apply NoDup_app; auto.
      intros x Hx Hx2. specialize (F2 x x Hx2).
      assert (x < x); [|lia]. apply F2. right. rewrite E1. apply in_or_app. now right.
  - intros i p x t u bookmarks takenIds.
    rewrite convertNativeBookmarkToBookmark_unfold. cbv zeta. cbn [fst snd].
    rewrite newBookmarkWithId_folder_or_leaf, allIds_single, flatten_ids.
    assert (E : match match u with Some _ => None | None => Some [] end with
                | Some ks => Helper.allIds ks
                | None => []
                end = []) by now destruct u.
    rewrite E. repeat split.
    + intros a y [<-|[]] Hy. now apply getNewBookmarkId_fresh.
    + constructor; [intros []|constructor].
  - intros i p x t u ks Hks bookmarks takenIds.
    rewrite convertNativeBookmarkToBookmark_unfold. cbv zeta.
    rewrite newBookmarkWithId_folder_or_leaf.
    destruct ks as [|k r].
    + cbn [fst snd]. rewrite allIds_single, flatten_ids.
      assert (E : match match u with Some _ => None | None => Some [] end with
                  | Some ks => Helper.allIds ks
                  | None => []
                  end = []) by now destruct u.
      rewrite E. repeat split.
      * intros a y [<-|[]] Hy. now apply getNewBookmarkId_fresh.
      * constructor; [intros []|constructor].
    + specialize (Hks bookmarks (takenIds ++ [Helper.getNewBookmarkId bookmarks takenIds])).
      destruct (convertNativeBookmarks (k :: r) bookmarks
                  (takenIds ++ [Helper.getNewBookmarkId bookmarks takenIds])) as [kids t2].
      cbn [fst snd setChildren] in *. destruct Hks as [E [F N]].
      rewrite allIds_single, flatten_ids. repeat split.
      * rewrite E. now rewrite <- app_assoc.
      * intros a y [<-|Ha] Hy; [now apply getNewBookmarkId_fresh|].
        apply (F a y Ha). destruct Hy as [Hy|Hy]; [now left|right].
        apply in_or_app. now left.
      * constructor; [|exact N]. intros Hin.
        assert (Hlt : Helper.getNewBookmarkId bookmarks takenIds
                      < Helper.getNewBookmarkId bookmarks takenIds); [|lia].
        apply (F _ _ Hin). right. apply in_or_app. right. now left.
Qed.

Lemma convertNativeBookmarks_shape :
  forall l bookmarks takenIds,
    map title (Helper.eachBookmark (fst (convertNativeBookmarks l bookmarks takenIds)))
    = map (fun n => Some (n_title n)) (flat_map nativeFlatten l)
    /\ map url (Helper.eachBookmark (fst (convertNativeBookmarks l bookmarks takenIds)))
       = map n_url (flat_map nativeFlatten l).
Proof.
  apply (natives_ind2
           (fun v => forall bookmarks takenIds,
                map title (Helper.flatten
                             (fst (convertNativeBookmarkToBookmark v bookmarks takenIds)))
                = map (fun n => Some (n_title n)) (nativeFlatten v)
                /\ map url (Helper.flatten
                              (fst (convertNativeBookmarkToBookmark v bookmarks takenIds)))
                   = map n_url (nativeFlatten v))
           (fun l => forall bookmarks takenIds,
                map title (Helper.eachBookmark
                             (fst (convertNativeBookmarks l bookmarks takenIds)))
                = map (fun n => Some (n_title n)) (flat_map nativeFlatten l)
                /\ map url (Helper.eachBookmark
                              (fst (convertNativeBookmarks l bookmarks takenIds)))
                   = map n_url (flat_map nativeFlatten l))).
  - intros bookmarks takenIds. now split.
  - intros v r Hv Hr bookmarks takenIds. cbn [convertNativeBookmarks].
    specialize (Hv bookmarks takenIds).
    destruct (convertNativeBookmarkToBookmark v bookmarks takenIds) as [b t1].
    specialize (Hr bookmarks t1).
    destruct (convertNativeBookmarks r bookmarks t1) as [bs t2].
    cbn [fst snd] in *. destruct Hv as [H1 H2]. destruct Hr as [H3 H4].
    unfold Helper.eachBookmark in *. cbn [flat_map].
    rewrite !map_app, H1, H2, H3, H4. now split.
  - intros i p x t u bookmarks takenIds.
    rewrite convertNativeBookmarkToBookmark_unfold. cbv zeta. cbn [fst].
    rewrite newBookmarkWithId_folder_or_leaf, flatten_unfold. now destruct u.
  - intros i p x t u ks Hks bookmarks takenIds.
    rewrite convertNativeBookmarkToBookmark_unfold. cbv zeta.
    rewrite newBookmarkWithId_folder_or_leaf.
    destruct ks as [|k r].
    + cbn [fst]. rewrite flatten_unfold. now destruct u.
    + specialize (Hks bookmarks (takenIds ++ [Helper.getNewBookmarkId bookmarks takenIds])).
      destruct (convertNativeBookmarks (k :: r) bookmarks
                  (takenIds ++ [Helper.getNewBookmarkId bookmarks takenIds])) as [kids t2].
      cbn [fst snd setChildren] in *. destruct Hks as [H1 H2].
      rewrite flatten_unfold, nativeFlatten_unfold. cbn [map n_title n_url title url].
      now rewrite H1, H2.
Qed.

Lemma nth_error_middle {A} (pre : list A) b r : nth_error (pre ++ b :: r) (List.length pre) = Some b.
Proof. induction pre; simpl; auto. Qed.

Lemma mapIdsFrom_on_converted :
  forall l bookmarks takenIds pre,
    exists ms,
      mapIdsFrom l (Some (pre ++ fst (convertNativeBookmarks l bookmarks takenIds)))
                 (List.length pre) = Resolved ms
      /\ map syncedId ms = Helper.allIds (fst (convertNativeBookmarks l bookmarks takenIds))
      /\ map nativeId ms = map n_id (flat_map nativeFlatten l).
Proof.
  apply (natives_ind2
           (fun v => forall bookmarks takenIds,
                exists ms,
                  mapIdsOfNode v (Some (fst (convertNativeBookmarkToBookmark
                                               v bookmarks takenIds)))
                  = Resolved ms
                  /\ map syncedId ms
                     = map id (Helper.flatten
                                 (fst (convertNativeBookmarkToBookmark v bookmarks takenIds)))
                  /\ map nativeId ms = map n_id (nativeFlatten v))
           (fun l => forall bookmarks takenIds pre,
                exists ms,
                  mapIdsFrom l (Some (pre ++ fst (convertNativeBookmarks l bookmarks takenIds)))
                             (List.length pre) = Resolved ms
                  /\ map syncedId ms
                     = Helper.allIds (fst (convertNativeBookmarks l bookmarks takenIds))
                  /\ map nativeId ms = map n_id (flat_map nativeFlatten l))).
  - intros bookmarks takenIds pre. exists []. now repeat split.
  - intros v r Hv Hr bookmarks takenIds pre. cbn [convertNativeBookmarks mapIdsFrom].
    specialize (Hv bookmarks takenIds).
    destruct (convertNativeBookmarkToBookmark v bookmarks takenIds) as [b t1].
    specialize (Hr bookmarks t1 (pre ++ [b])).
    destruct (convertNativeBookmarks r bookmarks t1) as [bs t2].
    cbn [fst snd syncedAt] in *.
    destruct Hv as [ms1 [E1 [S1 N1]]]. destruct Hr as [ms2 [E2 [S2 N2]]].
    rewrite nth_error_middle, E1.
    rewrite <- app_assoc in E2. cbn [app] in E2.
    rewrite length_app in E2. cbn [List.length] in E2.
    rewrite Nat.add_1_r in E2. rewrite E2.
    exists (ms1 ++ ms2). split; [reflexivity|].
    rewrite !map_app, S1, S2, N1, N2, allIds_cons. cbn [flat_map]. now rewrite map_app.
  - intros i p x t u bookmarks takenIds.
    rewrite convertNativeBookmarkToBookmark_unfold. cbv zeta. cbn [fst].
    rewrite newBookmarkWithId_folder_or_leaf, mapIdsOfNode_unfold.
    eexists. split; [reflexivity|]. rewrite flatten_ids. now destruct u.
  - intros i p x t u ks Hks bookmarks takenIds.
    rewrite convertNativeBookmarkToBookmark_unfold. cbv zeta.
    rewrite newBookmarkWithId_folder_or_leaf.
    destruct ks as [|k r].
    + cbn [fst]. rewrite mapIdsOfNode_unfold.
      eexists. split; [reflexivity|]. rewrite flatten_ids. now destruct u.
    + specialize (Hks bookmarks (takenIds ++ [Helper.getNewBookmarkId bookmarks takenIds]) []).
      destruct (convertNativeBookmarks (k :: r) bookmarks
                  (takenIds ++ [Helper.getNewBookmarkId bookmarks takenIds])) as [kids t2].
      cbn [fst snd setChildren app List.length] in *.
      destruct Hks as [ms [E [S N]]].
      rewrite mapIdsOfNode_unfold. cbn [children]. rewrite E.
      eexists. split; [reflexivity|].
      rewrite flatten_ids, nativeFlatten_unfold.
      cbn [map syncedId nativeId IdMapper.createMapping id n_id]. now rewrite S, N.
Qed.

Lemma mapIdsFrom_needs_a_bookmark_per_node :
  forall l ss n ms,
    mapIdsFrom l (Some ss) n = Resolved ms -> (n + List.length l <= List.length ss)%nat \/ l = [].
Proof.
  induction l as [|v r IH]; intros ss n ms; [now right|].
  cbn [mapIdsFrom syncedAt]. left.
  destruct (nth_error ss n) as [s|] eqn:En.
  - destruct (mapIdsOfNode v (Some s)); [|discriminate].
    destruct (mapIdsFrom r (Some ss) (S n)) eqn:E; [|discriminate].
    destruct (IH _ _ _ E) as [Hle| ->]; cbn [List.length]; [lia|].
    assert (n < List.length ss)%nat by (apply nth_error_Some; congruence). lia.
  - destruct v. cbn [mapIdsOfNode]. discriminate.
Qed.

(** X5: when [mapIds] succeeds, it has paired every native node, children
    included and a parent before its children, with one mapping, in the
    order of the walk; the synced id of each mapping is the id of a bookmark
    of the canonical list, and the canonical list has a bookmark at the
    index of every native root.  When it fails, it fails with the
    [TypeError] of a native node that has no bookmark at its index. *)
Theorem mapIds_pairs_native_nodes_in_walk_order
        (nativeBookmarks : list NativeBookmark) (syncedBookmarks : list Bookmark) :
  match mapIds nativeBookmarks (Some syncedBookmarks) with
  | Resolved ms =>
      map nativeId ms = map n_id (flat_map nativeFlatten nativeBookmarks)
      /\ Forall (fun m => In (syncedId m) (Helper.allIds syncedBookmarks)) ms
      /\ (List.length nativeBookmarks <= List.length syncedBookmarks)%nat
  | Rejected e => e = TypeError
  end.
Proof.
  unfold mapIds.
  destruct (mapIdsFrom nativeBookmarks (Some syncedBookmarks) 0) as [ms|e] eqn:E.
  - destruct (mapIdsFrom_covers _ _ _ E) as [H1 H2]. repeat split; auto.
    destruct (mapIdsFrom_needs_a_bookmark_per_node _ _ _ E) as [H| ->];
      cbn [List.length] in *; lia.
  - exact (mapIdsFrom_rejects_with_TypeError _ _ _ E).
Qed.

(** X6: [convertNativeBookmarkToBookmark] appends to [takenIds] exactly
    the ids of the bookmarks it made, in the order of the walk; these ids
    are pairwise different and none of them is an id of the tree or one
    taken before (the id generator of the helper being the successor of the
    largest id).  The titles and urls of the native subtree are carried
    over node for node. *)
Theorem convertNativeBookmarkToBookmark_hands_out_fresh_ids
        (nativeBookmark : NativeBookmark) (bookmarks : list Bookmark) (takenIds : list Z) :
  let out := convertNativeBookmarkToBookmark nativeBookmark bookmarks takenIds in
  snd out = takenIds ++ map id (Helper.flatten (fst out))
  /\ NoDup (map id (Helper.flatten (fst out)))
  /\ (forall x, In x (map id (Helper.flatten (fst out))) ->
                ~ In x (Helper.allIds bookmarks) /\ ~ In x takenIds)
  /\ map title (Helper.flatten (fst out))
     = map (fun n => Some (n_title n)) (nativeFlatten nativeBookmark)
  /\ map url (Helper.flatten (fst out)) = map n_url (nativeFlatten nativeBookmark).
Proof.
  intros out. subst out.
  pose proof (convertNativeBookmarks_handsOut [nativeBookmark] bookmarks takenIds) as H.
  pose proof (convertNativeBookmarks_shape [nativeBookmark] bookmarks takenIds) as S.
  cbn [convertNativeBookmarks] in H, S.
  destruct (convertNativeBookmarkToBookmark nativeBookmark bookmarks takenIds) as [b t1].
  cbn [fst snd flat_map] in *. unfold Helper.eachBookmark in S. cbn [flat_map] in S.
  rewrite !app_nil_r in S. destruct S as [S1 S2].
  destruct H as [E [F N]]. rewrite allIds_single in *.
  repeat split; auto.
  - intros Hin. specialize (F x x H (or_introl Hin)). lia.
  - intros Hin. specialize (F x x H (or_intror Hin)). lia.
Qed.

(** X7: [mapIds] on a native node and the bookmark
    [convertNativeBookmarkToBookmark] made of it never fails, and pairs the
    id handed out for each bookmark with the id of the native node it was
    made of. *)
Theorem mapIds_pairs_a_converted_node_with_its_source
        (nativeBookmark : NativeBookmark) (bookmarks : list Bookmark) (takenIds : list Z) :
  let converted := fst (convertNativeBookmarkToBookmark nativeBookmark bookmarks takenIds) in
  exists ms,
    mapIds [nativeBookmark] (Some [converted]) = Resolved ms
    /\ map syncedId ms = map id (Helper.flatten converted)
    /\ map nativeId ms = map n_id (nativeFlatten nativeBookmark).
Proof.
  intros converted. subst converted.
  destruct (mapIdsFrom_on_converted [nativeBookmark] bookmarks takenIds [])
    as [ms [E [S N]]].
  cbn [convertNativeBookmarks] in E, S.
  destruct (convertNativeBookmarkToBookmark nativeBookmark bookmarks takenIds) as [b t1].
  cbn [fst snd app List.length flat_map] in *.
  exists ms. rewrite allIds_single in S. rewrite app_nil_r in N. now repeat split.
Qed.

(* ================================================================== *)
(** ** Building the id mappings *)

Section BuildIdMappings.

Variable Host : Type.
Variable api : HostApi Host.
Variable P : Platform.
Variable bookmarks : list Bookmark.

Lemma mapContainerIds_below c nodes (w : World Host) :
  snd (mapContainerIds c nodes bookmarks w) = w
  /\ forall ms, fst (mapContainerIds c nodes bookmarks w) = Resolved ms ->
                Forall (mapsBelowContainer bookmarks c) ms.
Proof.
  unfold mapContainerIds.
  destruct (find (fun x => optEqb (title x) (Some (containerTitle c))) bookmarks)
    as [found|] eqn:Ef; [|split; [reflexivity|intros ms [= <-]; constructor]].
  apply find_some in Ef. destruct Ef as [Hin Ht]. apply optEqb_eq in Ht.
  destruct (children found) as [[|k r]|] eqn:Ec;
    try (split; [reflexivity|intros ms [= <-]; constructor]).
  destruct nodes as [ns|]; [|split; [reflexivity|discriminate]].
  unfold lift. cbn [fst snd]. split; [reflexivity|]. intros ms E.
  destruct (mapIdsFrom_covers _ _ _ E) as [_ H].
  eapply Forall_impl; [|exact H]. intros m Hm.
  exists found. repeat split; auto.
  unfold getIdsFromDescendants. rewrite Ec. exact Hm.
Qed.

Lemma readsBelow_ret_nil : readsBelow (Host := Host) bookmarks (ret []).
Proof. intros w. split; [reflexivity|]. intros ms [= <-]. constructor. Qed.

Lemma readsBelow_throw e : readsBelow (Host := Host) bookmarks (throw e).
Proof. intros w. split; [reflexivity|]. discriminate. Qed.

Lemma readsBelow_mapContainerIds c nodes :
  c <> Toolbar -> readsBelow (Host := Host) bookmarks (mapContainerIds c nodes bookmarks).
Proof.
  intros Hc w. destruct (mapContainerIds_below c nodes w) as [H1 H2].
  split; [exact H1|]. intros ms E. eapply Forall_impl; [|exact (H2 _ E)].
  intros m Hm. exists c. now split.
Qed.

Lemma readsBelow_getSubTree nativeBookmarkId k :
  (forall subTree, readsBelow bookmarks (k subTree)) ->
  readsBelow bookmarks (bind (browser_getSubTree api nativeBookmarkId) k).
Proof.
  intros H w. rewrite bind_run. unfold browser_getSubTree.
  destruct (host_getSubTree api nativeBookmarkId (w_host w)) as [subTree|e].
  - apply H.
  - split; [reflexivity|discriminate].
Qed.

Lemma readsBelow_all (l : list (M Host (list BookmarkIdMapping))) :
  Forall (readsBelow bookmarks) l ->
  forall w, snd (all l w) = w
            /\ forall rs, fst (all l w) = Resolved rs ->
                          Forall (belowSynced bookmarks w) (List.concat rs).
Proof.
  induction 1 as [|m r Hm Hr IH]; intros w; cbn [all].
  - split; [reflexivity|]. intros rs [= <-]. constructor.
  - destruct (Hm w) as [H1 H2]. destruct (m w) as [[a|e] w1]; cbn [fst snd] in *; subst w1.
    + destruct (IH w) as [H3 H4]. destruct (all r w) as [[rs|e] w2]; cbn [fst snd] in *.
      * split; [exact H3|]. intros rs' [= <-]. cbn [List.concat].
        apply Forall_app. split; auto.
      * split; [exact H3|discriminate].
    + destruct (IH w) as [H3 H4]. split; [exact H3|discriminate].
Qed.

(** X8: when [buildIdMappings] succeeds, only the table of mappings has
    changed, and every mapping of the new table names a bookmark that lies
    below one of the containers found among the roots of the tree, a
    container other than the toolbar when the toolbar is not synced; the
    table it found is replaced.  When it fails, nothing has changed: no
    part of a table is stored. *)
Theorem buildIdMappings_maps_bookmarks_below_synced_containers (w : World Host) :
  let out := buildIdMappings api P bookmarks w in
  match fst out with
  | Resolved _ =>
      snd out = setIdMappings (w_idMappings (snd out)) w
      /\ forall m, In m (w_idMappings (snd out)) ->
                   exists c root,
                     In root bookmarks
                     /\ title root = Some (containerTitle c)
                     /\ In (syncedId m) (getIdsFromDescendants root)
                     /\ (w_syncBookmarksToolbar w = false -> c <> Toolbar)
  | Rejected _ => snd out = w
  end.
Proof.
  intros out. subst out. unfold buildIdMappings.
  rewrite bind_run. rewrite bind_run. cbn [getNativeContainerIds ret].
  match goal with
  | |- context [all ?l w] => assert (H : Forall (readsBelow bookmarks) l)
  end.
  { repeat (apply Forall_cons || apply Forall_nil).
    - destruct (nativeContainerIds P Menu); [|apply readsBelow_ret_nil].
      apply readsBelow_getSubTree. intros [|n r]; [apply readsBelow_throw|].
      destruct (hasNoChildren n); [apply readsBelow_ret_nil|].
      now apply readsBelow_mapContainerIds.
    - destruct (nativeContainerIds P Mobile); [|apply readsBelow_ret_nil].
      apply readsBelow_getSubTree. intros [|n r]; [apply readsBelow_throw|].
      destruct (hasNoChildren n); [apply readsBelow_ret_nil|].
      now apply readsBelow_mapContainerIds.
    - destruct (nativeContainerIds P Other); [|apply readsBelow_ret_nil].
      apply readsBelow_getSubTree. intros [|n r]; [apply readsBelow_throw|].
      destruct (hasNoChildren n); [apply readsBelow_ret_nil|].
      destruct (n_children n); [|apply readsBelow_throw].
      now apply readsBelow_mapContainerIds.
    - destruct (nativeContainerIds P Toolbar); [|apply readsBelow_ret_nil].
      apply readsBelow_getSubTree. intros results w1.
      rewrite bind_run. unfold syncBookmarksToolbar.
      destruct (w_syncBookmarksToolbar w1) eqn:Et; cbn [negb];
        [|apply readsBelow_ret_nil].
      destruct results as [|n r]; [apply readsBelow_throw|].
      destruct (hasNoChildren n); [apply readsBelow_ret_nil|].
      destruct (mapContainerIds_below Toolbar (n_children n) w1) as [H1 H2].
      split; [exact H1|]. intros ms E. eapply Forall_impl; [|exact (H2 _ E)].
      intros m Hm. exists Toolbar. split; [exact Hm|congruence]. }
  destruct (readsBelow_all H w) as [H1 H2].
  match goal with
  | |- context [all ?l w] => destruct (all l w) as [[rs|e] w1]
  end; cbn [fst snd] in *; subst w1; [|reflexivity].
  unfold idMapper_set. cbn [fst snd w_idMappings setIdMappings].
  split; [reflexivity|].
  intros m Hm. specialize (H2 rs eq_refl). rewrite Forall_forall in H2.
  destruct (H2 m Hm) as [c [[root [Hr [Ht Hd]]] Hc]]. exists c, root. now repeat split.
Qed.

End BuildIdMappings.

(** On the sample host the children of the other root, the menu folder left
    out, and the children of the toolbar root are paired with the bookmarks
    of the two containers; with the toolbar not synced only the former. *)
Example buildIdMappings_on_sample :
  w_idMappings (snd (buildIdMappings Sample.subTreeApi Sample.chromePlatform Sample.tree
                                     (Sample.world [] true true)))
  = Sample.fullMappings ++ [mkMapping 10 "a"; mkMapping 11 "b"; mkMapping 12 "c"]
  /\ w_idMappings (snd (buildIdMappings Sample.subTreeApi Sample.chromePlatform
                                        Sample.tree (Sample.world [] false true)))
     = Sample.fullMappings.
Proof. split; reflexivity. Qed.

(* ================================================================== *)
(** ** Containers of the native tree *)

Section Containers.

Variable Host : Type.
Variable api : HostApi Host.
Variable P : Platform.

Lemma truthy_Some s : truthy (Some s) = true <-> s <> "".
Proof.
  cbn [truthy]. destruct (String.eqb_spec s ""); cbn [negb]; split; congruence.
Qed.

(** X9: [getContainerNameFromNativeId] always resolves and changes
    nothing.  A name it gives is the name of a container whose native id is
    the id asked for, and the menu and mobile containers are only named for
    an id that is not empty.  It gives no name only when the id is neither
    the one of the other nor the one of the toolbar container, and is the
    one of the menu or mobile container at most as an empty or missing
    id. *)
Theorem getContainerNameFromNativeId_names_the_container_with_that_id
        (nativeBookmarkId : option string) (w : World Host) :
  exists r,
    getContainerNameFromNativeId P nativeBookmarkId w = (Resolved r, w)
    /\ (forall c, r = Some c ->
                  nativeContainerIds P c = nativeBookmarkId
                  /\ (c = Menu \/ c = Mobile -> truthy nativeBookmarkId = true))
    /\ (r = None ->
        forall c, nativeContainerIds P c = nativeBookmarkId ->
                  (c = Menu \/ c = Mobile) /\ truthy nativeBookmarkId = false).
Proof.
  unfold getContainerNameFromNativeId, getNativeContainerIds, bind, ret.
  eexists. split; [reflexivity|].
  cbn [app find fst snd].
  destruct (optEqb (nativeContainerIds P Other) nativeBookmarkId) eqn:Eo.
  { apply optEqb_eq in Eo. split; [|discriminate].
    intros c [= <-]. split; [exact Eo|]. intros [H|H]; discriminate. }
  destruct (optEqb (nativeContainerIds P Toolbar) nativeBookmarkId) eqn:Et.
  { apply optEqb_eq in Et. split; [|discriminate].
    intros c [= <-]. split; [exact Et|]. intros [H|H]; discriminate. }
  assert (Ho : nativeContainerIds P Other <> nativeBookmarkId).
  { intros H. apply optEqb_eq in H. congruence. }
  assert (Ht : nativeContainerIds P Toolbar <> nativeBookmarkId).
  { intros H. apply optEqb_eq in H. congruence. }
  destruct (truthy (nativeContainerIds P Menu)) eqn:Tm; cbn [app find fst snd].
  - destruct (optEqb (nativeContainerIds P Menu) nativeBookmarkId) eqn:Em.
    { apply optEqb_eq in Em. split; [|discriminate].
      intros c [= <-]. split; [exact Em|]. intros _. now rewrite <- Em. }
    assert (Hm : nativeContainerIds P Menu <> nativeBookmarkId).
    { intros H. apply optEqb_eq in H. congruence. }
    destruct (truthy (nativeContainerIds P Mobile)) eqn:Tb; cbn [app find fst snd].
    + destruct (optEqb (nativeContainerIds P Mobile) nativeBookmarkId) eqn:Eb.
      { apply optEqb_eq in Eb. split; [|discriminate].
        intros c [= <-]. split; [exact Eb|]. intros _. now rewrite <- Eb. }
      assert (Hb : nativeContainerIds P Mobile <> nativeBookmarkId).
      { intros H. apply optEqb_eq in H. congruence. }
      split; [discriminate|]. intros _ [] E; congruence.
    + split; [discriminate|]. intros _ [] E; try congruence.
      split; [now right|]. now rewrite <- E.
  - destruct (truthy (nativeContainerIds P Mobile)) eqn:Tb; cbn [app find fst snd].
    + destruct (optEqb (nativeContainerIds P Mobile) nativeBookmarkId) eqn:Eb.
      { apply optEqb_eq in Eb. split; [|discriminate].
        intros c [= <-]. split; [exact Eb|]. intros _. now rewrite <- Eb. }
      assert (Hb : nativeContainerIds P Mobile <> nativeBookmarkId).
      { intros H. apply optEqb_eq in H. congruence. }
      split; [discriminate|]. intros _ [] E; try congruence.
      split; [now left|]. now rewrite <- E.
    + split; [discriminate|]. intros _ [] E; try congruence.
      * split; [now left|]. now rewrite <- E.
      * split; [now right|]. now rewrite <- E.
Qed.

End Containers.

Lemma filteri_past {A} (f : A -> bool) index (l : list A) :
  forall i, index <= Z.of_nat i ->
            filteri (fun child childIndex => (Z.of_nat childIndex <? index) && f child) l i = [].
Proof.
  induction l as [|x r IH]; intros i Hi; [reflexivity|]. cbn [filteri].
  assert (E : (Z.of_nat i <? index) = false) by (apply Z.ltb_ge; lia).
  rewrite E. cbn [andb]. apply IH. lia.
Qed.

Lemma filteri_before {A} (f : A -> bool) index (l : list A) :
  forall i,
    filteri (fun child childIndex => (Z.of_nat childIndex <? index) && f child) l i
    = filter f (firstn (Z.to_nat (index - Z.of_nat i)) l).
Proof.
  induction l as [|x r IH]; intros i.
  - now rewrite firstn_nil.
  - destruct (Z.ltb_spec (Z.of_nat i) index) as [Hlt|Hge].
    + cbn [filteri]. assert (E : (Z.of_nat i <? index) = true) by (apply Z.ltb_lt; lia).
      rewrite E. cbn [andb].
      replace (Z.to_nat (index - Z.of_nat i))
        with (S (Z.to_nat (index - Z.of_nat (S i)))) by lia.
      cbn [firstn filter]. rewrite IH. reflexivity.
    + rewrite filteri_past by lia.
      replace (Z.to_nat (index - Z.of_nat i)) with 0%nat by lia. reflexivity.
Qed.

Section CountContainers.

Variable Host : Type.
Variable api : HostApi Host.
Variable P : Platform.

(** X10: for a parent that is the native root of the other container,
    [countNativeContainersBeforeIndex] resolves, without changing anything,
    to the number of children of that root that stand before [index] and
    carry the title of a container; the number is at least 0, at most
    [index] (0 for a negative index) and at most the number of children. *)
Theorem countNativeContainersBeforeIndex_counts_containers_before_index
        (parentId : string) (index : Z) (w : World Host)
        (root : NativeBookmark) (rest kids : list NativeBookmark) :
  nativeContainerIds P Other = Some parentId ->
  host_getSubTree api parentId (w_host w) = Resolved (root :: rest) ->
  n_children root = Some kids ->
  let numContainers :=
    Z.of_nat (List.length (filter Helper.bookmarkIsContainer
                                  (firstn (Z.to_nat index) kids))) in
  countNativeContainersBeforeIndex api P parentId index w = (Resolved numContainers, w)
  /\ 0 <= numContainers <= Z.max 0 index
  /\ numContainers <= Z.of_nat (List.length kids).
Proof.
  intros Ho Hs Hk numContainers. subst numContainers.
  unfold countNativeContainersBeforeIndex, getNativeContainerIds, bind, ret,
    browser_getSubTree.
  rewrite Ho. cbn [optEqb]. rewrite String.eqb_refl. cbn [negb].
  rewrite Hs, Hk. rewrite filteri_before. cbn [Z.of_nat]. rewrite Z.sub_0_r.
  split; [reflexivity|].
  pose proof (filter_length_le Helper.bookmarkIsContainer (firstn (Z.to_nat index) kids)).
  pose proof (firstn_le_length (Z.to_nat index) kids).
  rewrite length_firstn in *. lia.
Qed.

End CountContainers.

(** The menu folder stands before index 2 under the other root. *)
Lemma countNativeContainersBeforeIndex_witness :
  countNativeContainersBeforeIndex Sample.subTreeApi Sample.platform "2" 2
                                   (Sample.world [] true true)
  = (Resolved 1, Sample.world [] true true).
Proof.
  destruct (@countNativeContainersBeforeIndex_counts_containers_before_index
              Sample.TableHost Sample.subTreeApi Sample.platform "2" 2
              (Sample.world [] true true)
              (mkNative "2" (Some "0") (Some 1) "Other bookmarks" None
                        (Some Sample.otherChildren))
              [] Sample.otherChildren eq_refl eq_refl eq_refl) as [H _].
  exact H.
Defined.

(* ================================================================== *)
(** ** Reordering the unsupported containers *)

Section ReorderContainers.

Variable Host : Type.
Variable api : HostApi Host.
Variable P : Platform.

Lemma all_searches_resolve (titles : list string) (w : World Host) :
  Forall (fun t => t = "" \/ exists results, host_search api t (w_host w) = Resolved results)
         titles ->
  all (map (getNativeBookmarkByTitle api) titles) w
  = (Resolved (map (fun t =>
                      if String.eqb t "" then None
                      else match host_search api t (w_host w) with
                           | Resolved results => hd_error results
                           | Rejected _ => None
                           end) titles), w).
Proof.
  induction 1 as [|t r Ht Hr IH]; [reflexivity|].
  cbn [map all].
  assert (E : getNativeBookmarkByTitle api t w
              = (Resolved (if String.eqb t "" then None
                           else match host_search api t (w_host w) with
                                | Resolved results => hd_error results
                                | Rejected _ => None
                                end), w)).
  { unfold getNativeBookmarkByTitle, bind, ret, browser_search.
    destruct (String.eqb_spec t "") as [->|Hne]; [reflexivity|].
    destruct Ht as [->|[results E]]; [congruence|]. now rewrite E. }
  rewrite E, IH. reflexivity.
Qed.

Lemma all_moves_are_sent (l : list NativeBookmark) :
  forall i (w : World Host),
    nativeWrites
      (w_events
         (snd (all (mapi (fun container index =>
                            browser_move api (n_id container)
                                         (mkDest (Some (Z.of_nat index))
                                                 (n_parentId container))) l i) w)))
    = nativeWrites (w_events w)
      ++ mapi (fun container index =>
                 EvMove (n_id container)
                        (mkDest (Some (Z.of_nat index)) (n_parentId container))) l i.
Proof.
  induction l as [|c r IH]; intros i w; cbn [mapi all].
  - now rewrite app_nil_r.
  - unfold browser_move at 1.
    destruct (host_move api (n_id c) (mkDest (Some (Z.of_nat i)) (n_parentId c)) (w_host w))
      as [[n|e] h].
    + match goal with
      | |- context [all ?ms ?w1] =>
          specialize (IH (S i) w1); destruct (all ms w1) as [[ns|e] w2]
      end; cbn [snd] in *; rewrite IH; cbn [w_events setHost emit];
        rewrite nativeWrites_app; cbn [nativeWrites filter isNativeWrite];
        now rewrite <- app_assoc.
    + cbn [snd]. rewrite IH. cbn [w_events setHost emit].
      rewrite nativeWrites_app. cbn [nativeWrites filter isNativeWrite].
      now rewrite <- app_assoc.
Qed.

(** X11: when every title search of [reorderUnsupportedContainers]
    resolves, the writes sent to the host are one move for each unsupported
    container that was found (the first hit of its title), in the order of
    the list of unsupported containers, to the indexes 0, 1, 2, ... of the
    parent it already has; a container that is not found takes no index,
    and every move is sent even when an earlier one fails. *)
Theorem reorderUnsupportedContainers_moves_found_containers_to_the_front
        (w : World Host) :
  Forall (fun t => t = "" \/ exists results, host_search api t (w_host w) = Resolved results)
         (unsupportedContainers P) ->
  nativeWrites (w_events (snd (reorderUnsupportedContainers api P w)))
  = nativeWrites (w_events w)
    ++ mapi (fun container index =>
               EvMove (n_id container)
                      (mkDest (Some (Z.of_nat index)) (n_parentId container)))
            (foundUnsupportedContainers api P w) 0%nat.
Proof.
  intros H. unfold reorderUnsupportedContainers.
  unfold bind at 1. rewrite (@all_searches_resolve (unsupportedContainers P) w H).
  unfold bind, ret.
  pose proof (all_moves_are_sent (foundUnsupportedContainers api P w) 0%nat w) as Hm.
  unfold foundUnsupportedContainers in *.
  match goal with
  | |- context [all ?ms w] => destruct (all ms w) as [[ns|e] w2]
  end; exact Hm.
Qed.

End ReorderContainers.


(** The menu folder is found and moved to index 0 of its parent; there is
    no mobile folder. *)
Lemma reorderUnsupportedContainers_witness :
  nativeWrites
    (w_events (snd (reorderUnsupportedContainers Sample.tableApi Sample.platform
                                                 (Sample.world [] true true))))
  = [EvMove "m" (mkDest (Some 0) (Some "2"))].
Proof.
  apply (@reorderUnsupportedContainers_moves_found_containers_to_the_front
           Sample.TableHost Sample.tableApi Sample.platform (Sample.world [] true true)).
  apply Forall_cons; [right; eexists; reflexivity|].
  apply Forall_cons; [right; eexists; reflexivity|apply Forall_nil].
Defined.

(* ================================================================== *)
(** ** What the handlers of native changes leave alone *)

Section Frame.

Variable Host : Type.
Variable api : HostApi Host.
Variable P : Platform.

Lemma nw_ret {A} (a : A) : neverWritesNatively (ret (Host := Host) a).
Proof. intros w. now repeat split. Qed.

Lemma nw_throw {A} e : neverWritesNatively (throw (Host := Host) (A := A) e).
Proof. intros w. now repeat split. Qed.

Lemma nw_lift {A} (r : Result A) : neverWritesNatively (lift (Host := Host) r).
Proof. intros w. now repeat split. Qed.

Lemma nw_bind {A B} (m : M Host A) (k : A -> M Host B) :
  neverWritesNatively m -> (forall a, neverWritesNatively (k a)) ->
  neverWritesNatively (bind m k).
Proof.
  intros Hm Hk w. unfold bind. destruct (Hm w) as [H1 [H2 H3]].
  destruct (m w) as [[a|e] w1]; cbn [snd] in *; [|now repeat split].
  destruct (Hk a w1) as [H4 [H5 H6]]. repeat split; congruence.
Qed.

Lemma nw_all {A} (ms : list (M Host A)) :
  Forall neverWritesNatively ms -> neverWritesNatively (all ms).
Proof.
  induction 1 as [|m r Hm Hr IH]; intros w; cbn [all]; [now repeat split|].
  destruct (Hm w) as [H1 [H2 H3]]. destruct (m w) as [[a|e] w1]; cbn [snd] in *.
  - destruct (IH w1) as [H4 [H5 H6]].
    destruct (all r w1) as [[l|e] w2]; cbn [snd] in *; repeat split; congruence.
  - destruct (IH w1) as [H4 [H5 H6]]. repeat split; congruence.
Qed.

Lemma nw_logInfo msg : neverWritesNatively (logInfo (Host := Host) msg).
Proof.
  intros w. unfold logInfo. cbn [snd w_host w_events w_listeners emit].
  rewrite nativeWrites_app. cbn [nativeWrites filter isNativeWrite].
  now rewrite app_nil_r.
Qed.

Lemma nw_syncBookmarksToolbar : neverWritesNatively (syncBookmarksToolbar (Host := Host)).
Proof. intros w. now repeat split. Qed.

Lemma nw_idMapper_get n s : neverWritesNatively (idMapper_get (Host := Host) n s).
Proof. intros w. now repeat split. Qed.

Lemma nw_idMapper_add m : neverWritesNatively (idMapper_add (Host := Host) m).
Proof. intros w. now repeat split. Qed.

Lemma nw_idMapper_remove l : neverWritesNatively (idMapper_remove (Host := Host) l).
Proof. intros w. now repeat split. Qed.

Lemma nw_browser_get i : neverWritesNatively (browser_get api i).
Proof. intros w. now repeat split. Qed.

Lemma nw_browser_getSubTree i : neverWritesNatively (browser_getSubTree api i).
Proof. intros w. now repeat split. Qed.

Lemma nw_getNativeContainerIds : neverWritesNatively (getNativeContainerIds (Host := Host) P).
Proof. intros w. now repeat split. Qed.

Ltac frame :=
  repeat first
    [ apply nw_ret | apply nw_throw | apply nw_lift | apply nw_logInfo
    | apply nw_syncBookmarksToolbar | apply nw_idMapper_get | apply nw_idMapper_add
    | apply nw_idMapper_remove | apply nw_browser_get | apply nw_browser_getSubTree
    | apply nw_getNativeContainerIds
    | apply nw_bind; [|intros ?]
    | match goal with
      | |- neverWritesNatively (match ?x with _ => _ end) => destruct x
      | |- neverWritesNatively (if ?x then _ else _) => destruct x
      end ].

Lemma nw_getContainerNameFromNativeId i :
  neverWritesNatively (getContainerNameFromNativeId (Host := Host) P i).
Proof. unfold getContainerNameFromNativeId. frame. Qed.

Lemma nw_checkIfBookmarkChangeShouldBeSynced b bookmarks :
  neverWritesNatively (checkIfBookmarkChangeShouldBeSynced (Host := Host) b bookmarks).
Proof. unfold checkIfBookmarkChangeShouldBeSynced. frame. Qed.

Lemma nw_countNativeContainersBeforeIndex parentId index :
  neverWritesNatively (countNativeContainersBeforeIndex api P parentId index).
Proof. unfold countNativeContainersBeforeIndex. frame. Qed.

Lemma nw_createBookmarkFromNativeBookmarkId i bookmarks :
  neverWritesNatively (createBookmarkFromNativeBookmarkId api i bookmarks).
Proof. unfold createBookmarkFromNativeBookmarkId. frame. Qed.

Ltac frame2 :=
  repeat first
    [ apply nw_getContainerNameFromNativeId | apply nw_checkIfBookmarkChangeShouldBeSynced
    | apply nw_countNativeContainersBeforeIndex | apply nw_createBookmarkFromNativeBookmarkId
    | progress frame ].

(** X12: processing a native change on the canonical tree, whatever the
    change, the tree and the world, sends no write to the native host,
    leaves the host as it is and does not touch the listeners: the four
    handlers only read the host, the settings and the mappings, log, and
    add or remove mappings. *)
Theorem native_changes_are_processed_without_native_writes
        (bookmarks : list Bookmark)
        (added : AddNativeBookmarkChangeData) (removed : RemoveNativeBookmarkChangeData)
        (moved : MoveNativeBookmarkChangeData) (reordered : ReorderNativeBookmarkChangeData) :
  neverWritesNatively (processChangeTypeAddOnBookmarks (Host := Host) P bookmarks added)
  /\ neverWritesNatively
       (processChangeTypeRemoveOnBookmarks (Host := Host) P bookmarks removed)
  /\ neverWritesNatively (processChangeTypeMoveOnBookmarks api P bookmarks moved)
  /\ neverWritesNatively
       (processChangeTypeChildrenReorderedOnBookmarks (Host := Host) P bookmarks reordered).
Proof.
  split; [|split; [|split]].
  - unfold processChangeTypeAddOnBookmarks, resolveAddParent. frame2.
  - unfold processChangeTypeRemoveOnBookmarks. frame2.
  - unfold processChangeTypeMoveOnBookmarks. frame2.
  - unfold processChangeTypeChildrenReorderedOnBookmarks, resolveReorderParent. frame2.
    apply nw_all. apply Forall_forall. intros m Hm.
    apply in_map_iff in Hm. destruct Hm as [c [<- _]]. apply nw_idMapper_get.
Qed.

End Frame.

(* ================================================================== *)
(** ** Changes that are not synced *)

Section UnmappedChanges.

Variable Host : Type.
Variable api : HostApi Host.
Variable P : Platform.

Lemma getContainerNameFromNativeId_of_other_ids (nativeBookmarkId : option string)
      (w : World Host) :
  (forall c, nativeContainerIds P c <> nativeBookmarkId) ->
  getContainerNameFromNativeId P nativeBookmarkId w = (Resolved None, w).
Proof.
  intros H. unfold getContainerNameFromNativeId, getNativeContainerIds, bind, ret.
  assert (E : forall c, optEqb (nativeContainerIds P c) nativeBookmarkId = false).
  { intros c. destruct (optEqb (nativeContainerIds P c) nativeBookmarkId) eqn:E; auto.
    apply optEqb_eq in E. now apply H in E. }
  cbn [app find fst snd]. rewrite (E Other), (E Toolbar).
  destruct (truthy (nativeContainerIds P Menu)), (truthy (nativeContainerIds P Mobile));
    cbn [app find fst snd]; rewrite ?(E Menu), ?(E Mobile); reflexivity.
Qed.

(** X13: a native Add that is no container change, under a parent that is
    neither the native root of a container nor mapped, is dropped:
    [processChangeTypeAddOnBookmarks] resolves without a tree to sync, and
    the only trace is one line of the log; it is no error. *)
Theorem processChangeTypeAddOnBookmarks_drops_a_bookmark_under_an_unmapped_parent
        (bookmarks : list Bookmark) (changeData : AddNativeBookmarkChangeData)
        (w : World Host) :
  let nativeBookmark := add_nativeBookmark changeData in
  wasContainerChanged P nativeBookmark bookmarks = false ->
  (forall c, nativeContainerIds P c <> n_parentId nativeBookmark) ->
  IdMapper.get (n_parentId nativeBookmark) None (w_idMappings w) = None ->
  processChangeTypeAddOnBookmarks P bookmarks changeData w
  = (Resolved None, emit (EvLogInfo (MsgText "No id mapping found, skipping sync")) w).
Proof.
  intros nativeBookmark Hc Hn Hm. subst nativeBookmark.
  unfold processChangeTypeAddOnBookmarks, resolveAddParent.
  rewrite !bind_run. cbn [ret]. rewrite Hc.
  rewrite !bind_run. rewrite (getContainerNameFromNativeId_of_other_ids _ Hn).
  rewrite !bind_run. unfold idMapper_get. rewrite Hm.
  reflexivity.
Qed.

(** X14: a native Remove of a node that has no mapping (and is no container
    change) is dropped: [processChangeTypeRemoveOnBookmarks] resolves
    without a tree to sync, and the only trace is one line of the log. *)
Theorem processChangeTypeRemoveOnBookmarks_drops_an_unmapped_node
        (bookmarks : list Bookmark) (changeData : RemoveNativeBookmarkChangeData)
        (w : World Host) :
  let nativeBookmark := remove_nativeBookmark changeData in
  wasContainerChanged P nativeBookmark bookmarks = false ->
  IdMapper.get (Some (n_id nativeBookmark)) None (w_idMappings w) = None ->
  processChangeTypeRemoveOnBookmarks P bookmarks changeData w
  = (Resolved None, emit (EvLogInfo (MsgText "No id mapping found, skipping sync")) w).
Proof.
  intros nativeBookmark Hc Hm. subst nativeBookmark.
  unfold processChangeTypeRemoveOnBookmarks.
  rewrite !bind_run. cbn [ret]. rewrite Hc.
  rewrite !bind_run. unfold idMapper_get. rewrite Hm.
  reflexivity.
Qed.

(** X15: a native Move of a node that is no container and has no mapping,
    into a parent that is neither the native root of a container nor mapped,
    is dropped: [processChangeTypeMoveOnBookmarks] resolves without a tree
    to sync and creates no mapping; the only trace is one line of the
    log. *)
Theorem processChangeTypeMoveOnBookmarks_drops_a_move_between_unmapped_places
        (bookmarks : list Bookmark) (changeData : MoveNativeBookmarkChangeData)
        (w : World Host) (movedBookmark : NativeBookmark) (others : list NativeBookmark) :
  host_get api (move_id changeData) (w_host w) = Resolved (movedBookmark :: others) ->
  Helper.bookmarkIsContainer movedBookmark = false ->
  IdMapper.get (Some (move_id changeData)) None (w_idMappings w) = None ->
  (forall c, nativeContainerIds P c <> Some (move_parentId changeData)) ->
  IdMapper.get (Some (move_parentId changeData)) None (w_idMappings w) = None ->
  processChangeTypeMoveOnBookmarks api P bookmarks changeData w
  = (Resolved None, emit (EvLogInfo (MsgText "No id mappings found, skipping sync")) w).
Proof.
  intros Hg Hk Hm Hn Hp.
  unfold processChangeTypeMoveOnBookmarks.
  rewrite !bind_run. unfold browser_get. rewrite Hg, Hk.
  rewrite !bind_run. unfold idMapper_get at 1. rewrite Hm.
  rewrite !bind_run. rewrite (getContainerNameFromNativeId_of_other_ids _ Hn).
  rewrite !bind_run. unfold idMapper_get. rewrite Hp.
  reflexivity.
Qed.

(** X16: unlike the other handlers, [processChangeTypeChildrenReorderedOnBookmarks]
    does not drop a change whose parent is neither the native root of a
    container nor mapped: it reads [syncedId] of the mapping it did not
    find and fails with a [TypeError]; nothing is changed. *)
Theorem processChangeTypeChildrenReorderedOnBookmarks_rejects_an_unmapped_parent
        (bookmarks : list Bookmark) (changeData : ReorderNativeBookmarkChangeData)
        (w : World Host) :
  (forall c, nativeContainerIds P c <> Some (reorder_parentId changeData)) ->
  IdMapper.get (Some (reorder_parentId changeData)) None (w_idMappings w) = None ->
  processChangeTypeChildrenReorderedOnBookmarks P bookmarks changeData w
  = (Rejected TypeError, w).
Proof.
  intros Hn Hm.
  unfold processChangeTypeChildrenReorderedOnBookmarks, resolveReorderParent.
  rewrite !bind_run. cbn [getNativeContainerIds ret].
  assert (E : find (fun x => optEqb (nativeContainerIds P x)
                                    (Some (reorder_parentId changeData))) allContainers
              = None).
  { destruct (find (fun x => optEqb (nativeContainerIds P x)
                                     (Some (reorder_parentId changeData))) allContainers)
      as [c|] eqn:E; [|reflexivity].
    apply find_some in E. destruct E as [_ E]. apply optEqb_eq in E. now apply Hn in E. }
  rewrite E. rewrite !bind_run. unfold idMapper_get. rewrite Hm. reflexivity.
Qed.

(** X17: with the toolbar not synced, a native Remove of a mapped bookmark
    that lies in the toolbar container yields no tree to sync and keeps
    every mapping: [processChangeTypeRemoveOnBookmarks] resolves with
    nothing and only logs that the toolbar is not synced. *)
Theorem processChangeTypeRemoveOnBookmarks_skips_the_unsynced_toolbar
        (bookmarks : list Bookmark) (changeData : RemoveNativeBookmarkChangeData)
        (w : World Host) (mapping : BookmarkIdMapping) (toRemove container : Bookmark) :
  let nativeBookmark := remove_nativeBookmark changeData in
  wasContainerChanged P nativeBookmark bookmarks = false ->
  IdMapper.get (Some (n_id nativeBookmark)) None (w_idMappings w) = Some mapping ->
  Helper.findBookmarkById (syncedId mapping) bookmarks = Some toRemove ->
  Helper.getContainerByBookmarkId (id toRemove) bookmarks = Some container ->
  title container = Some (containerTitle Toolbar) ->
  w_syncBookmarksToolbar w = false ->
  processChangeTypeRemoveOnBookmarks P bookmarks changeData w
  = (Resolved None, emit (EvLogInfo (MsgText "Not syncing toolbar")) w).
Proof.
  intros nativeBookmark Hc Hm Hf Hg Ht Hs. subst nativeBookmark.
  unfold processChangeTypeRemoveOnBookmarks.
  rewrite !bind_run. cbn [ret]. rewrite Hc.
  rewrite !bind_run. unfold idMapper_get. rewrite Hm, Hf.
  rewrite !bind_run. unfold checkIfBookmarkChangeShouldBeSynced.
  rewrite !bind_run. unfold syncBookmarksToolbar. rewrite Hs, Hg, Ht.
  cbn [optEqb]. rewrite String.eqb_refl. cbn [andb negb].
  rewrite !bind_run. reflexivity.
Qed.

End UnmappedChanges.

(** A bookmark created, removed, moved and a folder reordered under the
    native folder ["zz"], which no container and no mapping knows. *)
Lemma processChangeTypeAddOnBookmarks_drop_witness :
  processChangeTypeAddOnBookmarks
    Sample.platform Sample.tree
    (Build_AddNativeBookmarkChangeData
       (mkNative "z" (Some "zz") (Some 0) "Z" (Some "https://z.example") None))
    (Sample.world Sample.fullMappings true true)
  = (Resolved None,
     emit (EvLogInfo (MsgText "No id mapping found, skipping sync"))
          (Sample.world Sample.fullMappings true true)).
Proof.
  apply (@processChangeTypeAddOnBookmarks_drops_a_bookmark_under_an_unmapped_parent
           Sample.TableHost Sample.platform Sample.tree
           (Build_AddNativeBookmarkChangeData
              (mkNative "z" (Some "zz") (Some 0) "Z" (Some "https://z.example") None))
           (Sample.world Sample.fullMappings true true));
    [reflexivity | intros []; discriminate | reflexivity].
Defined.

Lemma processChangeTypeRemoveOnBookmarks_drop_witness :
  processChangeTypeRemoveOnBookmarks
    Sample.platform Sample.tree
    (Build_RemoveNativeBookmarkChangeData
       (mkNative "z" (Some "zz") (Some 0) "Z" (Some "https://z.example") None))
    (Sample.world Sample.fullMappings true true)
  = (Resolved None,
     emit (EvLogInfo (MsgText "No id mapping found, skipping sync"))
          (Sample.world Sample.fullMappings true true)).
Proof.
  apply (@processChangeTypeRemoveOnBookmarks_drops_an_unmapped_node
           Sample.TableHost Sample.platform Sample.tree
           (Build_RemoveNativeBookmarkChangeData
              (mkNative "z" (Some "zz") (Some 0) "Z" (Some "https://z.example") None))
           (Sample.world Sample.fullMappings true true)); reflexivity.
Defined.

Lemma processChangeTypeMoveOnBookmarks_drop_witness :
  processChangeTypeMoveOnBookmarks
    Sample.tableApi Sample.platform Sample.tree (mkMove "a" 0 0 "1" "zz")
    (Sample.world Sample.fullMappings true true)
  = (Resolved None,
     emit (EvLogInfo (MsgText "No id mappings found, skipping sync"))
          (Sample.world Sample.fullMappings true true)).
Proof.
  apply (@processChangeTypeMoveOnBookmarks_drops_a_move_between_unmapped_places
           Sample.TableHost Sample.tableApi Sample.platform Sample.tree
           (mkMove "a" 0 0 "1" "zz") (Sample.world Sample.fullMappings true true)
           (mkNative "a" (Some "1") (Some 0) "A" (Some "https://a.example") None) []);
    [reflexivity | reflexivity | reflexivity | intros []; discriminate | reflexivity].
Defined.

Lemma processChangeTypeChildrenReorderedOnBookmarks_reject_witness :
  processChangeTypeChildrenReorderedOnBookmarks
    Sample.platform Sample.tree (mkReorder ["x"] "zz")
    (Sample.world Sample.fullMappings true true)
  = (Rejected TypeError, Sample.world Sample.fullMappings true true).
Proof.
  apply (@processChangeTypeChildrenReorderedOnBookmarks_rejects_an_unmapped_parent
           Sample.TableHost Sample.platform Sample.tree (mkReorder ["x"] "zz")
           (Sample.world Sample.fullMappings true true));
    [intros []; discriminate | reflexivity].
Defined.

(** The bookmark A of the toolbar is removed natively while the toolbar is
    not synced. *)
Lemma processChangeTypeRemoveOnBookmarks_toolbar_witness :
  processChangeTypeRemoveOnBookmarks
    Sample.platform Sample.tree
    (Build_RemoveNativeBookmarkChangeData
       (mkNative "a" (Some "1") (Some 0) "A" (Some "https://a.example") None))
    (Sample.world [mkMapping 10 "a"] false true)
  = (Resolved None,
     emit (EvLogInfo (MsgText "Not syncing toolbar"))
          (Sample.world [mkMapping 10 "a"] false true)).
Proof.
  apply (@processChangeTypeRemoveOnBookmarks_skips_the_unsynced_toolbar
           Sample.TableHost Sample.platform Sample.tree
           (Build_RemoveNativeBookmarkChangeData
              (mkNative "a" (Some "1") (Some 0) "A" (Some "https://a.example") None))
           (Sample.world [mkMapping 10 "a"] false true)
           (mkMapping 10 "a") Sample.bookmarkA
           (Sample.folder 1 "[xbs] Toolbar"
                          [Sample.bookmarkA; Sample.bookmarkB; Sample.bookmarkC]));
    reflexivity.
Defined.

(* ================================================================== *)
(** ** Moves between mapped places *)

(** A tree whose roots are all containers: every bookmark of it has one. *)
Lemma getContainerByBookmarkId_of_an_id_of_the_tree target l :
  forallb Helper.isContainer l = true ->
  In target (Helper.allIds l) ->
  exists container, Helper.getContainerByBookmarkId target l = Some container.
Proof.
  intros Hroots H. unfold Helper.getContainerByBookmarkId.
  destruct (find (fun root => Helper.isContainer root
                              && memZ target (map id (Helper.flatten root))) l)
    as [c|] eqn:E; [now exists c|].
  exfalso. unfold Helper.allIds, Helper.eachBookmark in H.
  apply in_map_iff in H. destruct H as [b [Hb Hin]].
  apply in_flat_map in Hin. destruct Hin as [root [Hr Hf]].
  pose proof (find_none _ _ E root Hr) as Hn. cbn beta in Hn.
  rewrite forallb_forall in Hroots. rewrite (Hroots root Hr) in Hn. cbn [andb] in Hn.
  apply memZ_false in Hn. apply Hn. rewrite <- Hb. now apply in_map.
Qed.

Lemma deref_In_allIds p l b :
  Helper.deref l p = Some b -> In (id b) (Helper.allIds l).
Proof.
  intros H. destruct (deref_segment _ _ H) as [l1 [l2 E]].
  unfold Helper.allIds. rewrite E, !map_app.
  apply in_or_app. right. apply in_or_app. left.
  rewrite getIdsFromDescendants_flatten. now left.
Qed.

(** Removing a bookmark and writing through a reference keep the roots'
    titles, so the roots stay containers. *)
Lemma isContainer_removeIn target b :
  Helper.isContainer (Helper.removeIn target b) = Helper.isContainer b.
Proof. now destruct b. Qed.

Lemma removeBookmarkById_roots target l :
  forallb Helper.isContainer l = true ->
  forallb Helper.isContainer (Helper.removeBookmarkById target l) = true.
Proof.
  induction l as [|k r IH]; [reflexivity|].
  cbn [forallb Helper.removeBookmarkById]. intros H.
  apply andb_true_iff in H. destruct H as [Hk Hr].
  destruct (id k =? target); [now apply IH|].
  cbn [forallb]. now rewrite isContainer_removeIn, Hk, IH.
Qed.

Lemma mapNth_roots (g : Bookmark -> Bookmark) :
  (forall b, Helper.isContainer (g b) = Helper.isContainer b) ->
  forall n l, forallb Helper.isContainer (Helper.mapNth n g l)
              = forallb Helper.isContainer l.
Proof.
  intros Hg n. induction n as [|n IH]; intros [|x r]; cbn [Helper.mapNth forallb];
    try reflexivity.
  - now rewrite Hg.
  - now rewrite IH.
Qed.

Lemma updateAt_roots (f : Bookmark -> Bookmark) p l :
  (forall b, Helper.isContainer (f b) = Helper.isContainer b) ->
  forallb Helper.isContainer (Helper.updateAt f l p) = forallb Helper.isContainer l.
Proof.
  intros Hf. destruct p as [|n q]; [reflexivity|].
  cbn [Helper.updateAt]. apply mapNth_roots.
  intros b. destruct q; [apply Hf|].
  destruct (children b); [now destruct b|reflexivity].
Qed.

Lemma isContainer_setId i b : Helper.isContainer (setId i b) = Helper.isContainer b.
Proof. now destruct b. Qed.

Lemma isContainer_setChildren c b :
  Helper.isContainer (setChildren c b) = Helper.isContainer b.
Proof. now destruct b. Qed.

(** Two writes, to a node and then to one of its new children, are one
    write to the node. *)
Lemma mapNth_mapNth_at {A} (g h k : A -> A) :
  forall n l x, nth_error l n = Some x -> g (h x) = k x ->
                Helper.mapNth n g (Helper.mapNth n h l) = Helper.mapNth n k l.
Proof.
  induction n as [|n IH]; intros [|y r] x Hn E; cbn [nth_error Helper.mapNth] in *;
    try discriminate.
  - injection Hn as ->. now rewrite E.
  - f_equal. eapply IH; eauto.
Qed.

Lemma mapNth_ext {A} (g h : A -> A) :
  (forall x, g x = h x) -> forall n l, Helper.mapNth n g l = Helper.mapNth n h l.
Proof.
  intros E n. induction n as [|n IH]; intros [|y r]; cbn [Helper.mapNth];
    try reflexivity.
  - now rewrite E.
  - now rewrite IH.
Qed.

Lemma updateAt_then_child (f : Bookmark -> Bookmark) (k : nat) (ks : list Bookmark) :
  forall p l b,
    Helper.deref l p = Some b ->
    Helper.updateAt f (Helper.updateAt (setChildren (Some ks)) l p) (p ++ [k])
    = Helper.updateAt (setChildren (Some (Helper.mapNth k f ks))) l p.
Proof.
  induction p as [|n q IH]; intros l b Hd; [discriminate|].
  cbn [Helper.deref] in Hd.
  destruct (nth_error l n) as [x|] eqn:En; [|discriminate].
  destruct q as [|m q'].
  - cbn [app Helper.updateAt]. eapply mapNth_mapNth_at; [exact En|].
    destruct x as [i t u d g c]. reflexivity.
  - change ((n :: m :: q') ++ [k]) with (n :: m :: (q' ++ [k])).
    cbn [Helper.updateAt]. eapply mapNth_mapNth_at; [exact En|].
    destruct (children x) as [xs|] eqn:Ex; [|discriminate].
    destruct x as [i t u d g c]. cbn [children] in Ex. subst c.
    cbn [setChildren children]. f_equal. f_equal.
    change (m :: q' ++ [k]) with ((m :: q') ++ [k]).
    eapply IH. exact Hd.
Qed.

Lemma mapNth_app_length {A} (f : A -> A) (l1 : list A) x l2 :
  Helper.mapNth (List.length l1) f (l1 ++ x :: l2) = l1 ++ f x :: l2.
Proof.
  induction l1 as [|y r IH]; cbn [app Helper.mapNth List.length]; [reflexivity|].
  now rewrite IH.
Qed.

Lemma mapNth_splice {A} (f : A -> A) index (x : A) l :
  Helper.mapNth (spliceStart index l) f (splice index x l) = splice index (f x) l.
Proof.
  unfold splice. pose proof (spliceStart_le index l) as Hle.
  set (n := spliceStart index l) in *.
  assert (E : List.length (firstn n l) = n) by (rewrite length_firstn; lia).
  rewrite <- E at 1. apply mapNth_app_length.
Qed.

(** The bookmark [addBookmark] has spliced in, given another id: the tree is
    the one in which the bookmark with that id was spliced in. *)
Lemma updateAt_spliced (f : Bookmark -> Bookmark) index (created : Bookmark) :
  forall p l parent kids,
    Helper.deref l p = Some parent ->
    Helper.updateAt f
      (Helper.updateAt (setChildren (Some (splice index created kids))) l p)
      (p ++ [spliceStart index kids])
    = Helper.updateAt (setChildren (Some (splice index (f created) kids))) l p.
Proof.
  intros p l parent kids Hd.
  rewrite (updateAt_then_child f _ _ _ _ Hd). now rewrite mapNth_splice.
Qed.

Section MoveOfMapped.

Variable Host : Type.
Variable api : HostApi Host.
Variable P : Platform.

Lemma checkIfBookmarkChangeShouldBeSynced_when_toolbar_is_synced
      (changed : Bookmark) (bookmarks : list Bookmark) (w : World Host) :
  w_syncBookmarksToolbar w = true ->
  forallb Helper.isContainer bookmarks = true ->
  In (id changed) (Helper.allIds bookmarks) ->
  checkIfBookmarkChangeShouldBeSynced (Some changed) bookmarks w = (Resolved true, w).
Proof.
  intros Ht Hroots Hin. unfold checkIfBookmarkChangeShouldBeSynced.
  rewrite bind_run. unfold syncBookmarksToolbar. rewrite Ht.
  destruct (getContainerByBookmarkId_of_an_id_of_the_tree _ _ Hroots Hin) as [c ->].
  cbn [negb]. now rewrite andb_false_r.
Qed.

Lemma countNativeContainersBeforeIndex_below_a_folder
      (parentId : string) (index : Z) (w : World Host) :
  (forall c, nativeContainerIds P c <> Some parentId) ->
  countNativeContainersBeforeIndex api P parentId index w = (Resolved 0, w).
Proof.
  intros Hn. unfold countNativeContainersBeforeIndex, getNativeContainerIds, bind, ret.
  destruct (optEqb (Some parentId) (nativeContainerIds P Other)) eqn:E; [|reflexivity].
  apply optEqb_eq in E. symmetry in E. now apply Hn in E.
Qed.

(** X18: a native Move of a mapped bookmark into a mapped folder, in a tree
    whose roots are all containers, the toolbar being synced.  The call
    resolves to the tree from which the bookmark (with its subtree) is
    removed and in which nothing else differs but the children of the
    folder: a bookmark made of the title, url, description and tags of the
    removed one is spliced into them at the index of the move; it carries
    the id of the removed bookmark and none of the children it had.  The
    mappings and the rest of the world are left as they were. *)
Theorem processChangeTypeMoveOnBookmarks_keeps_the_id_and_drops_the_children
        (bookmarks : list Bookmark) (changeData : MoveNativeBookmarkChangeData)
        (w : World Host) (movedBookmark : NativeBookmark) (others : list NativeBookmark)
        (movedMapping parentMapping : BookmarkIdMapping)
        (toRemove parent : Bookmark) (kids : list Bookmark) (p : Helper.Ref) :
  let afterRemoval := Helper.removeBookmarkById (syncedId movedMapping) bookmarks in
  let moved :=
    mkBookmark (id toRemove) (title toRemove) (url toRemove) (description toRemove)
               (tags toRemove)
               (match url toRemove with Some _ => None | None => Some [] end) in
  forallb Helper.isContainer bookmarks = true ->
  host_get api (move_id changeData) (w_host w) = Resolved (movedBookmark :: others) ->
  Helper.bookmarkIsContainer movedBookmark = false ->
  IdMapper.get (Some (move_id changeData)) None (w_idMappings w) = Some movedMapping ->
  (forall c, nativeContainerIds P c <> Some (move_parentId changeData)) ->
  IdMapper.get (Some (move_parentId changeData)) None (w_idMappings w)
  = Some parentMapping ->
  w_syncBookmarksToolbar w = true ->
  Helper.findBookmarkById (syncedId movedMapping) bookmarks = Some toRemove ->
  Helper.findBookmarkRef (syncedId parentMapping) afterRemoval = Some p ->
  Helper.deref afterRemoval p = Some parent ->
  children parent = Some kids ->
  processChangeTypeMoveOnBookmarks api P bookmarks changeData w
  = (Resolved
       (Some (Helper.updateAt
                (setChildren (Some (splice (move_index changeData) moved kids)))
                afterRemoval p)),
     w).
Proof.
  intros afterRemoval moved Hroots Hg Hk Hm Hn Hp Ht Hr Eref Hpar Hkids.
  assert (Hin : In (id toRemove) (Helper.allIds bookmarks)).
  { eapply findBookmarkById_In; [exact Hr|].
    rewrite getIdsFromDescendants_flatten. now left. }
  unfold processChangeTypeMoveOnBookmarks.
  rewrite !bind_run. unfold browser_get. rewrite Hg, Hk.
  rewrite !bind_run. unfold idMapper_get at 1. rewrite Hm.
  rewrite !bind_run. rewrite (@getContainerNameFromNativeId_of_other_ids Host P _ w Hn).
  rewrite !bind_run. unfold idMapper_get. rewrite Hp. cbn [ret option_map].
  rewrite !bind_run. cbn [ret]. rewrite Hr.
  rewrite !bind_run.
  rewrite (@checkIfBookmarkChangeShouldBeSynced_when_toolbar_is_synced
             toRemove bookmarks w Ht Hroots Hin).
  cbn [negb ret].
  rewrite !bind_run.
  rewrite (countNativeContainersBeforeIndex_below_a_folder _ w Hn).
  rewrite !bind_run.
  fold afterRemoval.
  unfold addBookmark, angular_copy. rewrite Eref, Hpar, Hkids.
  unfold lift. cbn [r_bookmark r_bookmarks r_ref].
  rewrite Z.sub_0_r.
  cbn [Helper.extractBookmarkMetadata m_title m_url m_description m_tags m_isSeparator].
  set (created := Helper.newBookmark _ _ _ _ _ afterRemoval).
  assert (Em : setId (id toRemove) created = moved).
  { subst created moved. unfold Helper.newBookmark, Helper.newBookmarkWithId.
    destruct (url toRemove); reflexivity. }
  rewrite (updateAt_spliced (setId (id toRemove)) _ _ _ _ _ Hpar). rewrite Em.
  set (updated := Helper.updateAt _ afterRemoval p).
  assert (Hd : Helper.deref updated (p ++ [spliceStart (move_index changeData) kids])
               = Some moved).
  { subst updated. erewrite deref_snoc.
    - apply splice_nth.
    - rewrite deref_updateAt, Hpar. reflexivity.
    - now destruct parent. }
  rewrite !bind_run.
  rewrite (@checkIfBookmarkChangeShouldBeSynced_when_toolbar_is_synced moved updated w Ht).
  - reflexivity.
  - subst updated. rewrite updateAt_roots by apply isContainer_setChildren.
    now apply removeBookmarkById_roots.
  - eapply deref_In_allIds. exact Hd.
Qed.

Lemma convertNativeBookmarkToBookmark_root (nativeBookmark : NativeBookmark)
      (bookmarks : list Bookmark) (takenIds : list Z) :
  let converted := fst (convertNativeBookmarkToBookmark nativeBookmark bookmarks takenIds) in
  id converted = Helper.getNewBookmarkId bookmarks takenIds
  /\ title converted = Some (n_title nativeBookmark)
  /\ url converted = n_url nativeBookmark
  /\ description converted = None
  /\ tags converted = None.
Proof.
  destruct nativeBookmark as [i p x t u c].
  rewrite convertNativeBookmarkToBookmark_unfold. cbv zeta.
  rewrite newBookmarkWithId_folder_or_leaf.
  destruct c as [[|k r]|]; cbn [fst]; try (now repeat split).
  destruct (convertNativeBookmarks (k :: r) bookmarks
              (takenIds ++ [Helper.getNewBookmarkId bookmarks takenIds])) as [kids t2].
  now repeat split.
Qed.

(** X19: a native Move of a node without a mapping into a mapped folder, in
    a tree whose roots are all containers, the toolbar being synced.  The
    call resolves to the given tree in which nothing differs but the
    children of the folder: a bookmark with a new id and the title and url
    of the native node, and none of its children, is spliced into them at
    the index of the move.  Nothing is removed, and one mapping from the new
    id to the native node is appended to the table. *)
Theorem processChangeTypeMoveOnBookmarks_maps_a_bookmark_that_enters_a_mapped_folder
        (bookmarks : list Bookmark) (changeData : MoveNativeBookmarkChangeData)
        (w : World Host) (movedBookmark : NativeBookmark) (others : list NativeBookmark)
        (parentMapping : BookmarkIdMapping) (parent : Bookmark) (kids : list Bookmark)
        (p : Helper.Ref) :
  let newId := Helper.getNewBookmarkId bookmarks [] in
  let created :=
    mkBookmark newId (Some (n_title movedBookmark)) (n_url movedBookmark) None None
               (match n_url movedBookmark with Some _ => None | None => Some [] end) in
  forallb Helper.isContainer bookmarks = true ->
  host_get api (move_id changeData) (w_host w) = Resolved (movedBookmark :: others) ->
  Helper.bookmarkIsContainer movedBookmark = false ->
  IdMapper.get (Some (move_id changeData)) None (w_idMappings w) = None ->
  (forall c, nativeContainerIds P c <> Some (move_parentId changeData)) ->
  IdMapper.get (Some (move_parentId changeData)) None (w_idMappings w)
  = Some parentMapping ->
  w_syncBookmarksToolbar w = true ->
  Helper.findBookmarkRef (syncedId parentMapping) bookmarks = Some p ->
  Helper.deref bookmarks p = Some parent ->
  children parent = Some kids ->
  processChangeTypeMoveOnBookmarks api P bookmarks changeData w
  = (Resolved
       (Some (Helper.updateAt
                (setChildren (Some (splice (move_index changeData) created kids)))
                bookmarks p)),
     setIdMappings (w_idMappings w ++ [mkMapping newId (move_id changeData)]) w).
Proof.
  intros newId created Hroots Hg Hk Hm Hn Hp Ht Eref Hpar Hkids.
  destruct (convertNativeBookmarkToBookmark_root movedBookmark bookmarks [])
    as [Ci [Ct [Cu [Cd Cg]]]].
  unfold processChangeTypeMoveOnBookmarks.
  rewrite !bind_run. unfold browser_get. rewrite Hg, Hk.
  rewrite !bind_run. unfold idMapper_get at 1. rewrite Hm.
  rewrite !bind_run. rewrite (@getContainerNameFromNativeId_of_other_ids Host P _ w Hn).
  rewrite !bind_run. unfold idMapper_get. rewrite Hp. cbn [ret option_map].
  rewrite !bind_run. unfold createBookmarkFromNativeBookmarkId.
  rewrite !bind_run. unfold browser_get. rewrite Hg. cbn [ret].
  rewrite !bind_run. cbn [ret]. rewrite !bind_run.
  rewrite (countNativeContainersBeforeIndex_below_a_folder _ w Hn).
  rewrite !bind_run.
  unfold addBookmark, angular_copy. rewrite Eref, Hpar, Hkids.
  unfold lift. cbn [r_bookmark r_bookmarks r_ref].
  rewrite Z.sub_0_r.
  cbn [Helper.extractBookmarkMetadata m_title m_url m_description m_tags m_isSeparator].
  rewrite Ci, Ct, Cu, Cd, Cg. fold newId.
  set (made := Helper.newBookmark _ _ _ _ _ bookmarks).
  assert (Em : made = created).
  { subst made created newId. unfold Helper.newBookmark, Helper.newBookmarkWithId.
    destruct (n_url movedBookmark); reflexivity. }
  assert (Es : setId newId made = created).
  { rewrite Em. reflexivity. }
  rewrite (updateAt_spliced (setId newId) _ _ _ _ _ Hpar). rewrite Es.
  set (updated := Helper.updateAt _ bookmarks p).
  assert (Hd : Helper.deref updated (p ++ [spliceStart (move_index changeData) kids])
               = Some created).
  { subst updated. erewrite deref_snoc.
    - apply splice_nth.
    - rewrite deref_updateAt, Hpar. reflexivity.
    - now destruct parent. }
  rewrite !bind_run.
  rewrite (@checkIfBookmarkChangeShouldBeSynced_when_toolbar_is_synced created updated w Ht).
  - cbn [negb ret]. rewrite !bind_run. reflexivity.
  - subst updated. now rewrite updateAt_roots by apply isContainer_setChildren.
  - eapply deref_In_allIds. exact Hd.
Qed.

End MoveOfMapped.

(** The bookmark Example (id 3) is moved from the other container into the
    folder (id 4), at its front: it leaves the children of the container and
    the rest of the tree is as it was. *)
Lemma processChangeTypeMoveOnBookmarks_mapped_witness :
  processChangeTypeMoveOnBookmarks
    Sample.tableApi Sample.platform Sample.tree (mkMove "x" 0 1 "2" "f")
    (Sample.world Sample.fullMappings true true)
  = (Resolved
       (Some [ Sample.folder 1 "[xbs] Toolbar"
                             [Sample.bookmarkA; Sample.bookmarkB; Sample.bookmarkC];
               Sample.folder 2 "[xbs] Other"
                 [Sample.folder 4 "Folder"
                    [ Sample.leaf 3 "Example" "http://example.com";
                      Sample.leaf 5 "P" "https://p.example";
                      Sample.leaf 6 "Q" "https://q.example" ]] ]),
     Sample.world Sample.fullMappings true true).
Proof.
  apply (@processChangeTypeMoveOnBookmarks_keeps_the_id_and_drops_the_children
           Sample.TableHost Sample.tableApi Sample.platform Sample.tree
           (mkMove "x" 0 1 "2" "f") (Sample.world Sample.fullMappings true true)
           (mkNative "x" (Some "1") (Some 3) "Example" (Some "http://example.com") None)
           [] (mkMapping 3 "x") (mkMapping 4 "f") Sample.bookmarkX
           (Sample.folder 4 "Folder"
              [Sample.leaf 5 "P" "https://p.example"; Sample.leaf 6 "Q" "https://q.example"])
           [Sample.leaf 5 "P" "https://p.example"; Sample.leaf 6 "Q" "https://q.example"]
           [1%nat; 0%nat]);
    [reflexivity | reflexivity | reflexivity | reflexivity | intros []; discriminate
     | reflexivity | reflexivity | reflexivity | reflexivity | reflexivity | reflexivity].
Defined.

(** The native bookmark A, which has no mapping, is moved into the folder
    (id 4), at its front: the folder gets a bookmark with the new id 13 and
    the rest of the tree is as it was. *)
Lemma processChangeTypeMoveOnBookmarks_unmapped_witness :
  processChangeTypeMoveOnBookmarks
    Sample.tableApi Sample.platform Sample.tree (mkMove "a" 0 0 "1" "f")
    (Sample.world Sample.fullMappings true true)
  = (Resolved
       (Some [ Sample.folder 1 "[xbs] Toolbar"
                             [Sample.bookmarkA; Sample.bookmarkB; Sample.bookmarkC];
               Sample.folder 2 "[xbs] Other"
                 [ Sample.bookmarkX;
                   Sample.folder 4 "Folder"
                     [ Sample.leaf 13 "A" "https://a.example";
                       Sample.leaf 5 "P" "https://p.example";
                       Sample.leaf 6 "Q" "https://q.example" ]] ]),
     setIdMappings (Sample.fullMappings ++ [mkMapping 13 "a"])
                   (Sample.world Sample.fullMappings true true)).
Proof.
  apply (@processChangeTypeMoveOnBookmarks_maps_a_bookmark_that_enters_a_mapped_folder
           Sample.TableHost Sample.tableApi Sample.platform Sample.tree
           (mkMove "a" 0 0 "1" "f") (Sample.world Sample.fullMappings true true)
           (mkNative "a" (Some "1") (Some 0) "A" (Some "https://a.example") None)
           [] (mkMapping 4 "f") Sample.folderF
           [Sample.leaf 5 "P" "https://p.example"; Sample.leaf 6 "Q" "https://q.example"]
           [1%nat; 1%nat]);
    [reflexivity | reflexivity | reflexivity | reflexivity | intros []; discriminate
     | reflexivity | reflexivity | reflexivity | reflexivity | reflexivity].
Defined.


(* ================================================================== *)
(** ** The queue of native events *)

Section Debounce.

Variable Args : Type.

Lemma timeout_cancel_owned (s : QueueState Args) handle :
  ownsItsTimers s -> processNativeBookmarkEventsTimeout s = Some handle ->
  timeout_cancel handle (pendingTimeouts s) = [].
Proof.
  intros Ho Hh. unfold timeout_cancel.
  apply filter_drop_all. intros p Hp. specialize (Ho p Hp).
  rewrite Hh in Ho. injection Ho as ->. now rewrite Nat.eqb_refl.
Qed.

Lemma queueNativeBookmarkEvent_one_timer changeType eventArgs (s : QueueState Args) :
  ownsItsTimers s ->
  let s1 := queueNativeBookmarkEvent changeType eventArgs s in
  pendingTimeouts s1 = [(nextTimeout s, 200)]
  /\ processNativeBookmarkEventsTimeout s1 = Some (nextTimeout s)
  /\ ownsItsTimers s1.
Proof.
  intros Ho s1. subst s1. unfold queueNativeBookmarkEvent.
  cbn [pendingTimeouts processNativeBookmarkEventsTimeout].
  assert (E : match processNativeBookmarkEventsTimeout s with
              | Some handle => timeout_cancel handle (pendingTimeouts s)
              | None => pendingTimeouts s
              end = []).
  { destruct (processNativeBookmarkEventsTimeout s) as [h|] eqn:Eh.
    - now apply timeout_cancel_owned.
    - destruct (pendingTimeouts s) as [|p r] eqn:Ep; [reflexivity|].
      specialize (Ho p). rewrite Ep in Ho. specialize (Ho (or_introl eq_refl)).
      congruence. }
  rewrite E. cbn [app]. repeat split.
  intros p [<-|[]]. reflexivity.
Qed.

(** X20: after any burst of calls of [queueNativeBookmarkEvent] (at least
    one), on a state in which no timer of an earlier call was left running,
    the queue holds what it held followed by the events of the burst in the
    order of their arrival, each with its change type and arguments, and
    exactly one timer is pending: the one of the last call, with a delay of
    200 ms; the timers of the calls before were cancelled. *)
Theorem queueNativeBookmarkEvent_keeps_arrival_order_and_one_timer
        (events : list (BookmarkChangeType.t * Args)) (last : BookmarkChangeType.t * Args)
        (s : QueueState Args) :
  ownsItsTimers s ->
  let queueAll :=
    fold_left (fun q e => queueNativeBookmarkEvent (fst e) (snd e) q) in
  let s1 := queueAll (events ++ [last]) s in
  nativeBookmarkEventsQueue s1
  = nativeBookmarkEventsQueue s
    ++ map (fun e => mkQueued (fst e) (snd e)) (events ++ [last])
  /\ exists handle,
       processNativeBookmarkEventsTimeout s1 = Some handle
       /\ pendingTimeouts s1 = [(handle, 200)].
Proof.
  intros Ho queueAll s1. subst s1 queueAll.
  rewrite fold_left_app. cbn [fold_left].
  assert (H : forall l (q : QueueState Args),
             ownsItsTimers q ->
             ownsItsTimers
               (fold_left (fun q e => queueNativeBookmarkEvent (fst e) (snd e) q) l q)
             /\ nativeBookmarkEventsQueue
                  (fold_left (fun q e => queueNativeBookmarkEvent (fst e) (snd e) q) l q)
                = nativeBookmarkEventsQueue q
                  ++ map (fun e => mkQueued (fst e) (snd e)) l).
  { induction l as [|e l IH]; intros q Hq; cbn [fold_left map].
    - split; [exact Hq|now rewrite app_nil_r].
    - destruct (queueNativeBookmarkEvent_one_timer (fst e) (snd e) Hq) as [_ [_ Hq1]].
      destruct (IH _ Hq1) as [H1 H2]. split; [exact H1|].
      rewrite H2. cbn [queueNativeBookmarkEvent nativeBookmarkEventsQueue].
      now rewrite <- app_assoc. }
  destruct (H events s Ho) as [H1 H2].
  destruct (queueNativeBookmarkEvent_one_timer (fst last) (snd last) H1) as [H3 [H4 _]].
  split.
  - cbn [queueNativeBookmarkEvent nativeBookmarkEventsQueue].
    rewrite H2, map_app, <- app_assoc. reflexivity.
  - eexists. split; [exact H4|exact H3].
Qed.

End Debounce.

(** Three events on the state a service starts with. *)
Lemma queueNativeBookmarkEvent_witness :
  let s1 :=
    fold_left (fun q e => queueNativeBookmarkEvent (fst e) (snd e) q)
              ([(BookmarkChangeType.Add, "n1"); (BookmarkChangeType.Move, "n1")]
                 ++ [(BookmarkChangeType.Remove, "n2")])
              (mkQueueState [] None [] 0) in
  nativeBookmarkEventsQueue s1
  = [mkQueued BookmarkChangeType.Add "n1"; mkQueued BookmarkChangeType.Move "n1";
     mkQueued BookmarkChangeType.Remove "n2"]
  /\ exists handle,
       processNativeBookmarkEventsTimeout s1 = Some handle
       /\ pendingTimeouts s1 = [(handle, 200)].
Proof.
  apply (@queueNativeBookmarkEvent_keeps_arrival_order_and_one_timer
           string [(BookmarkChangeType.Add, "n1"); (BookmarkChangeType.Move, "n1")]
           (BookmarkChangeType.Remove, "n2") (mkQueueState [] None [] 0)).
  intros p [].
Defined.

(* ================================================================== *)
(** ** Click handlers of notifications *)

Section NotificationHandlers.

Variable Handler : Type.

Lemma findIndexFrom_shift {A} (f : A -> bool) l :
  forall n, Helper.findIndexFrom f l (S n) = option_map S (Helper.findIndexFrom f l n).
Proof.
  induction l as [|x r IH]; intros n; cbn [Helper.findIndexFrom]; [reflexivity|].
  destruct (f x); [reflexivity|]. apply IH.
Qed.

Lemma onNotificationClosed_cons notificationId (h : NotificationClickHandler Handler) r :
  onNotificationClosed notificationId (h :: r)
  = if String.eqb (h_id h) notificationId then r
    else h :: onNotificationClosed notificationId r.
Proof.
  unfold onNotificationClosed. cbn [Helper.findIndexFrom].
  destruct (String.eqb (h_id h) notificationId); [reflexivity|].
  rewrite findIndexFrom_shift.
  destruct (Helper.findIndexFrom _ r 0%nat); reflexivity.
Qed.

(** X21: when the notifications that have a click handler have different
    ids, [onNotificationClosed] forgets the handler of the notification that
    was closed, so that a later click on it runs nothing, and keeps the
    handler of every other notification. *)
Theorem onNotificationClosed_forgets_the_handler_of_the_notification
        (notificationId : string) (handlers : list (NotificationClickHandler Handler)) :
  NoDup (map (@h_id Handler) handlers) ->
  onNotificationClicked notificationId (onNotificationClosed notificationId handlers)
  = None
  /\ forall other,
       other <> notificationId ->
       onNotificationClicked other (onNotificationClosed notificationId handlers)
       = onNotificationClicked other handlers.
Proof.
  intros Hnd. induction handlers as [|h r IH].
  - split; [reflexivity|]. intros other _. reflexivity.
  - cbn [map] in Hnd. inversion Hnd as [|i l Hi Hr]; subst.
    specialize (IH Hr). destruct IH as [IH1 IH2].
    rewrite onNotificationClosed_cons.
    destruct (String.eqb_spec (h_id h) notificationId) as [E|E].
    + split.
      * unfold onNotificationClicked.
        destruct (find (fun x => String.eqb (h_id x) notificationId) r) as [x|] eqn:Ef;
          [|reflexivity].
        apply find_some in Ef. destruct Ef as [Hin Hx]. apply String.eqb_eq in Hx.
        exfalso. apply Hi. rewrite E, <- Hx. now apply in_map.
      * intros other Ho. unfold onNotificationClicked. cbn [find].
        destruct (String.eqb_spec (h_id h) other); [congruence|reflexivity].
    + split.
      * unfold onNotificationClicked in *. cbn [find].
        destruct (String.eqb_spec (h_id h) notificationId); [congruence|]. exact IH1.
      * intros other Ho. specialize (IH2 other Ho).
        unfold onNotificationClicked in *. cbn [find].
        destruct (String.eqb (h_id h) other); [reflexivity|exact IH2].
Qed.

End NotificationHandlers.

Lemma onNotificationClosed_witness :
  let handlers := [mkClickHandler "n1" 1%nat; mkClickHandler "n2" 2%nat] in
  onNotificationClicked "n1" (onNotificationClosed "n1" handlers) = None
  /\ forall other,
       other <> "n1" ->
       onNotificationClicked other (onNotificationClosed "n1" handlers)
       = onNotificationClicked other handlers.
Proof.
  apply (@onNotificationClosed_forgets_the_handler_of_the_notification
           nat "n1" [mkClickHandler "n1" 1%nat; mkClickHandler "n2" 2%nat]).
  repeat constructor; cbn; intuition discriminate.
Defined.

(* ================================================================== *)
(** ** Restoring bookmarks *)

Section RestoreListeners.

Variable Host : Type.
Variable UpgradeContainers : list Bookmark -> M Host (list Bookmark).
Variable CheckBookmarksHaveUniqueIds : list Bookmark -> bool.
Variable AddIds : list Bookmark -> M Host (list Bookmark).
Variable Sync : SyncData -> M Host (list Bookmark).

Lemma syncBookmarks_always_resolves {A} (affects : bool) (sync : M Host A)
      (w : World Host) :
  fst (syncBookmarks affects sync w) = Resolved tt.
Proof.
  unfold syncBookmarks, finally, catch.
  match goal with
  | |- context [bind ?m ?k w] => destruct (bind m k w) as [[[]|e] w1]
  end; cbn [ret];
    unfold toggleEventListeners, getSyncEnabled, bind, bg_enableEventListeners,
      bg_disableEventListeners;
    destruct (w_syncEnabled w1); reflexivity.
Qed.

(** X22: [restoreBookmarks] detaches the listeners first.  When upgrading
    the containers or adding the ids fails (neither touching the listeners),
    the restore fails and the listeners stay detached, whatever the
    persisted flag says: the sync and its cleanup are never reached.
    Otherwise the restore resolves, whatever the sync did, and the listeners
    end as the persisted flag says.  The restore fails exactly when that
    preparation fails, with the error and in the world the preparation left. *)
Theorem restoreBookmarks_leaves_listeners_off_when_the_preparation_fails
        (restoreData : SyncData) (w : World Host) :
  (forall bookmarks, leavesListeners (UpgradeContainers bookmarks)) ->
  (forall bookmarks, leavesListeners (AddIds bookmarks)) ->
  let out :=
    restoreBookmarks UpgradeContainers CheckBookmarksHaveUniqueIds AddIds Sync
                     restoreData w in
  let prepared :=
    bind (UpgradeContainers (match sd_bookmarks restoreData with
                             | Some b => b
                             | None => []
                             end))
         (fun upgradedBookmarks =>
            if negb (CheckBookmarksHaveUniqueIds upgradedBookmarks)
            then AddIds upgradedBookmarks
            else ret upgradedBookmarks)
         (setListeners false (emit EvDisableListeners w)) in
  match fst out with
  | Resolved _ => w_listeners (snd out) = w_syncEnabled (snd out)
  | Rejected _ => w_listeners (snd out) = false
  end
  /\ match fst prepared with
     | Resolved _ => fst out = Resolved tt
     | Rejected e => out = (Rejected e, snd prepared)
     end.
Proof.
  intros Hu Ha out prepared. split.
  2:{ subst out. unfold restoreBookmarks. rewrite bind_run.
      change (bg_disableEventListeners w)
        with (Resolved tt, setListeners false (emit EvDisableListeners w)).
      cbv iota. rewrite bind_run. fold prepared.
      destruct prepared as [[b|e] w1]; cbn [fst snd];
        [apply syncBookmarks_always_resolves | reflexivity]. }
  clear prepared. subst out. unfold restoreBookmarks.
  rewrite bind_run.
  change (bg_disableEventListeners w)
    with (Resolved tt, setListeners false (emit EvDisableListeners w)).
  cbv iota. set (w0 := setListeners false (emit EvDisableListeners w)).
  rewrite !bind_run.
  set (given := match sd_bookmarks restoreData with Some b => b | None => [] end).
  destruct (Hu given w0) as [H1 _].
  destruct (UpgradeContainers given w0) as [[upgraded|e] w1]; cbn [fst snd] in *;
    [|exact H1].
  destruct (CheckBookmarksHaveUniqueIds upgraded); cbn [negb].
  - cbn [ret].
    pose proof (syncBookmarks_respects_sync_enabled
                  (typeAffectsLocalBookmarks (sd_type restoreData))
                  (Sync (mkSyncData (sd_type restoreData) (Some upgraded))) w1) as Hs.
    cbv zeta in Hs. cbn [sd_type].
    match goal with
    | |- context [syncBookmarks ?a ?b w1] =>
        pose proof (syncBookmarks_always_resolves a b w1) as E;
        destruct (syncBookmarks a b w1) as [[u|e] w2]
    end; cbn [fst snd] in *; [exact Hs|discriminate].
  - destruct (Ha upgraded w1) as [H2 _].
    destruct (AddIds upgraded w1) as [[withIds|e] w2]; cbn [fst snd] in *;
      [|now rewrite H2, H1].
    pose proof (syncBookmarks_respects_sync_enabled
                  (typeAffectsLocalBookmarks (sd_type restoreData))
                  (Sync (mkSyncData (sd_type restoreData) (Some withIds))) w2) as Hs.
    cbv zeta in Hs. cbn [sd_type].
    match goal with
    | |- context [syncBookmarks ?a ?b w2] =>
        pose proof (syncBookmarks_always_resolves a b w2) as E;
        destruct (syncBookmarks a b w2) as [[u|e] w3]
    end; cbn [fst snd] in *; [exact Hs|discriminate].
Qed.

(** X23: [syncBookmarks] of the background page always resolves, whatever
    the sync it frames does, and leaves the listeners as the persisted flag
    says: attached when sync is enabled, detached when it is not. *)
Theorem syncBookmarks_resolves_and_follows_the_persisted_flag {A}
        (affectsLocalBookmarks : bool) (sync : M Host A) (w : World Host) :
  let out := syncBookmarks affectsLocalBookmarks sync w in
  fst out = Resolved tt /\ w_listeners (snd out) = w_syncEnabled (snd out).
Proof.
  intros out. subst out. split.
  - apply syncBookmarks_always_resolves.
  - apply syncBookmarks_respects_sync_enabled.
Qed.

End RestoreListeners.

(** A restore whose ids cannot be added, sync being enabled: it fails and
    the listeners stay detached. *)
Lemma restoreBookmarks_witness :
  let out :=
    restoreBookmarks (fun bookmarks => ret bookmarks) (fun _ => false)
                     (fun _ => throw BookmarkNotFoundException)
                     (fun _ => ret [])
                     (mkSyncData SyncType.Pull (Some Sample.tree))
                     (Sample.world [] true true) in
  fst out = Rejected BookmarkNotFoundException
  /\ w_syncEnabled (snd out) = true
  /\ w_listeners (snd out) = false.
Proof.
  intros out. split; [reflexivity|]. split; [reflexivity|].
  exact (proj1
           (@restoreBookmarks_leaves_listeners_off_when_the_preparation_fails
              Sample.TableHost (fun bookmarks => ret bookmarks) (fun _ => false)
              (fun _ => throw BookmarkNotFoundException) (fun _ => ret [])
              (mkSyncData SyncType.Pull (Some Sample.tree)) (Sample.world [] true true)
              (fun bookmarks w => conj eq_refl eq_refl)
              (fun bookmarks w => conj eq_refl eq_refl))).
Defined.

(* ================================================================== *)
(** ** The sync-worthiness predicate and the separator codec *)

(** A root is a container when its title is one of the reserved names. *)
Lemma isContainer_reserved (root : Bookmark) :
  Helper.isContainer root = true <-> exists c, title root = Some (containerTitle c).
Proof.
  unfold Helper.isContainer, Helper.isContainerTitle. split.
  - destruct (title root) as [t|]; [|discriminate]. intros H.
    apply existsb_exists in H. destruct H as [c [_ E]].
    apply String.eqb_eq in E. exists c. now rewrite E.
  - intros [c ->]. apply existsb_exists. exists c.
    split; [destruct c; cbn; tauto | apply String.eqb_refl].
Qed.

Section SyncWorthiness.

Variable Host : Type.

(** X24: [checkIfBookmarkChangeShouldBeSynced] decides by the container of
    the bookmark, a root with a reserved title whose subtree holds the
    bookmark's id.  It resolves exactly when such a root exists and fails
    otherwise, with [ContainerNotFoundException] and without any trace: so
    it fails for an id the tree does not carry and for a bookmark below a
    root that is no container.  With the toolbar synced it resolves to true.
    It resolves to false only when the toolbar is not synced and a root
    titled as the toolbar container holds the bookmark; this is then
    logged. *)
Theorem checkIfBookmarkChangeShouldBeSynced_decides_by_the_container
        (changedBookmark : Bookmark) (bookmarks : list Bookmark) (w : World Host) :
  let out := checkIfBookmarkChangeShouldBeSynced (Some changedBookmark) bookmarks w in
  let inContainer :=
    exists root,
      In root bookmarks
      /\ (exists c, title root = Some (containerTitle c))
      /\ In (id changedBookmark) (map id (Helper.flatten root)) in
  (inContainer -> exists syncThisChange, fst out = Resolved syncThisChange)
  /\ (~ inContainer -> out = (Rejected ContainerNotFoundException, w))
  /\ (~ In (id changedBookmark) (Helper.allIds bookmarks) ->
      out = (Rejected ContainerNotFoundException, w))
  /\ (w_syncBookmarksToolbar w = true -> inContainer -> out = (Resolved true, w))
  /\ (fst out = Resolved false ->
      w_syncBookmarksToolbar w = false
      /\ snd out = emit (EvLogInfo (MsgText "Not syncing toolbar")) w
      /\ exists container,
           In container bookmarks
           /\ title container = Some (containerTitle Toolbar)
           /\ In (id changedBookmark) (map id (Helper.flatten container))).
Proof.
  intros out inContainer. subst out.
  unfold checkIfBookmarkChangeShouldBeSynced. rewrite bind_run.
  unfold syncBookmarksToolbar.
  destruct (Helper.getContainerByBookmarkId (id changedBookmark) bookmarks)
    as [container|] eqn:Ec.
  - assert (Hin : In container bookmarks
                  /\ Helper.isContainer container = true
                  /\ In (id changedBookmark) (map id (Helper.flatten container))).
    { unfold Helper.getContainerByBookmarkId in Ec. apply find_some in Ec.
      destruct Ec as [H1 H2]. apply andb_true_iff in H2. destruct H2 as [H2 H3].
      apply memZ_In in H3. now repeat split. }
    assert (Hc : inContainer).
    { destruct Hin as [H1 [H2 H3]]. exists container.
      split; [exact H1|]. split; [|exact H3]. now apply isContainer_reserved. }
    assert (Hall : In (id changedBookmark) (Helper.allIds bookmarks)).
    { destruct Hin as [H1 [_ H3]]. eapply allIds_In_root; eauto. }
    destruct (optEqb (title container) (Some (containerTitle Toolbar))) eqn:Et;
      destruct (w_syncBookmarksToolbar w) eqn:Es; cbn [andb negb];
      rewrite ?bind_run; cbn [logInfo ret fst snd];
      (split; [intros _; eexists; reflexivity|]);
      (split; [intros H; now apply H in Hc|]);
      (split; [intros H; now apply H in Hall|]);
      (split; [try discriminate; intros _ _; reflexivity|]);
      try discriminate.
    intros _. split; [reflexivity|]. split; [reflexivity|].
    exists container. apply optEqb_eq in Et. destruct Hin as [H1 [_ H3]]. now repeat split.
  - assert (Hout : ~ inContainer).
    { intros [root [H1 [H2 H3]]].
      unfold Helper.getContainerByBookmarkId in Ec.
      pose proof (find_none _ _ Ec root H1) as Hn. cbn beta in Hn.
      apply isContainer_reserved in H2. rewrite H2 in Hn. cbn [andb] in Hn.
      apply memZ_false in Hn. now apply Hn. }
    cbn [fst snd throw].
    split; [intros H; now apply Hout in H|].
    split; [reflexivity|].
    split; [reflexivity|].
    split; [intros _ H; now apply Hout in H|discriminate].
Qed.

End SyncWorthiness.

Section SeparatorLeftAlone.

Variable Host : Type.
Variable api : HostApi Host.
Variable P : Platform.

(** X25: on a native node that carries the new-tab url,
    [convertNativeBookmarkToSeparator] leaves a node alone whose title is
    the separator title of its place (vertical under the toolbar root,
    horizontal elsewhere): the node is returned, nothing is written or
    logged and the listeners are not touched.  A node with the title of the
    other orientation gets one update of its title; any other node is
    removed and, when the host removed it, created again at its index and
    parent with the separator title and the new-tab url. *)
Theorem convertNativeBookmarkToSeparator_on_a_placeholder_node
        (bookmark : NativeBookmark) (w : World Host) :
  n_url bookmark = Some (getNewTabUrl P) ->
  let out := convertNativeBookmarkToSeparator api P bookmark w in
  (n_title bookmark = orientedTitle P bookmark -> out = (Resolved bookmark, w))
  /\ nativeWrites (w_events (snd out)) =
     nativeWrites (w_events w) ++
     if String.eqb (n_title bookmark) (orientedTitle P bookmark) then []
     else if String.eqb (n_title bookmark) (staleTitle P bookmark)
          then [EvUpdate (n_id bookmark) (mkUpdate (Some (orientedTitle P bookmark)) None)]
          else [EvRemove (n_id bookmark)]
               ++ match fst (host_remove api (n_id bookmark) (w_host w)) with
                  | Resolved _ =>
                      [EvCreate (mkCreate (n_index bookmark) (n_parentId bookmark)
                                          (Some (orientedTitle P bookmark))
                                          (Some (getNewTabUrl P)))]
                  | Rejected _ => []
                  end.
Proof.
  intros Hurl out. subst out. split.
  - intros Ht.
    unfold convertNativeBookmarkToSeparator, isNativeBookmarkInToolbarContainer,
      getNativeContainerIds, bind, ret.
    rewrite Hurl. cbn [optEqb]. rewrite String.eqb_refl.
    unfold orientedTitle, inToolbar in Ht.
    destruct (optEqb (n_parentId bookmark) (nativeContainerIds P Toolbar));
      rewrite Ht, String.eqb_refl; cbn [andb orb negb]; reflexivity.
  - exact (@convertNativeBookmarkToSeparator_on_new_tab_url Host api P bookmark w Hurl).
Qed.

End SeparatorLeftAlone.

(** A horizontal separator under the other root, and a node titled "-"
    there. *)
Lemma convertNativeBookmarkToSeparator_placeholder_witness :
  let proper := mkNative "s" (Some "2") (Some 1) "--------" (Some "chrome://newtab/") None in
  let other := mkNative "s" (Some "2") (Some 1) "-" (Some "chrome://newtab/") None in
  let w := Sample.world [] true true in
  convertNativeBookmarkToSeparator Sample.tableApi Sample.platform proper w
  = (Resolved proper, w)
  /\ nativeWrites
       (w_events (snd (convertNativeBookmarkToSeparator Sample.tableApi Sample.platform
                                                        other w)))
     = [EvRemove "s";
        EvCreate (mkCreate (Some 1) (Some "2") (Some "--------") (Some "chrome://newtab/"))].
Proof.
  intros proper other w. split.
  - destruct (@convertNativeBookmarkToSeparator_on_a_placeholder_node
                Sample.TableHost Sample.tableApi Sample.platform proper w eq_refl)
      as [H _].
    exact (H eq_refl).
  - destruct (@convertNativeBookmarkToSeparator_on_a_placeholder_node
                Sample.TableHost Sample.tableApi Sample.platform other w eq_refl)
      as [_ H].
    exact H.
Defined.

(* ================================================================== *)
(** ** Adding under a container *)

Lemma findRefIn_None target b :
  ~ In target (map id (Helper.flatten b)) -> Helper.findRefIn target b = None.
Proof.
  intros H.
  assert (E : Helper.findBookmarkRef target [b] = None).
  { apply findBookmarkRef_None. now rewrite allIds_single. }
  cbn [Helper.findBookmarkRef] in E.
  destruct (Helper.findRefIn target b); [discriminate|reflexivity].
Qed.

Lemma findBookmarkRef_root (l : list Bookmark) :
  NoDup (Helper.allIds l) ->
  forall n root, nth_error l n = Some root ->
                 Helper.findBookmarkRef (id root) l = Some [n].
Proof.
  induction l as [|k r IH]; intros Hnd n root Hn; [now destruct n|].
  rewrite allIds_cons in Hnd. cbn [Helper.findBookmarkRef].
  destruct n as [|n]; cbn [nth_error] in Hn.
  - injection Hn as ->. destruct root as [i t u d g c].
    rewrite findRefIn_unfold. cbn [id]. now rewrite Z.eqb_refl.
  - assert (Hin : In (id root) (Helper.allIds r)).
    { apply nth_error_In in Hn. eapply allIds_In_root; [exact Hn|].
      rewrite getIdsFromDescendants_flatten. now left. }
    rewrite findRefIn_None.
    + rewrite (IH (NoDup_app_remove_l _ _ Hnd) n root Hn). reflexivity.
    + intros H. exact (NoDup_app_disjoint _ _ Hnd _ H Hin).
Qed.

Lemma find_mapNth {A} (pred : A -> bool) (f : A -> A) (l : list A) :
  forall n c,
    nth_error l n = Some c ->
    (forall x, In x l -> pred x = false) ->
    pred (f c) = true ->
    find pred (Helper.mapNth n f l) = Some (f c).
Proof.
  induction l as [|x r IH]; intros n c Hn Hall Hc; [now destruct n|].
  destruct n as [|n]; cbn [nth_error Helper.mapNth find] in *.
  - injection Hn as ->. now rewrite Hc.
  - rewrite (Hall x (or_introl eq_refl)). apply IH; auto.
    intros y Hy. apply Hall. now right.
Qed.

Section AddUnderContainer.

Variable Host : Type.
Variable P : Platform.

(** X26: a native Add that is no container change, under the native root
    of the other container, in a tree with unique ids whose other container
    has a list of children: whatever the toolbar preference,
    [processChangeTypeAddOnBookmarks] resolves to the tree in which one
    bookmark, with a new id and the title and url of the native node, is
    spliced into the children of the other container at the index of the
    native node, and appends one mapping from the new id to the native node.
    Nothing else of the world changes. *)
Theorem processChangeTypeAddOnBookmarks_adds_under_the_other_container
        (bookmarks : list Bookmark) (changeData : AddNativeBookmarkChangeData)
        (w : World Host) (n : nat) (container : Bookmark) (kids : list Bookmark) :
  let nativeBookmark := add_nativeBookmark changeData in
  let newId := Helper.getNewBookmarkId bookmarks [] in
  let created :=
    Helper.newBookmarkWithId newId (Some (n_title nativeBookmark))
                             (n_url nativeBookmark) None None false in
  let index := toInteger (n_index nativeBookmark) in
  wasContainerChanged P nativeBookmark bookmarks = false ->
  nativeContainerIds P Other = n_parentId nativeBookmark ->
  NoDup (Helper.allIds bookmarks) ->
  Helper.findContainer Other bookmarks = Some container ->
  nth_error bookmarks n = Some container ->
  children container = Some kids ->
  id container <> 0 ->
  processChangeTypeAddOnBookmarks P bookmarks changeData w
  = (Resolved
       (Some (Helper.mapNth n (setChildren (Some (splice index created kids))) bookmarks)),
     setIdMappings (w_idMappings w ++ [mkMapping newId (n_id nativeBookmark)]) w).
Proof.
  intros nativeBookmark newId created index Hc Ho Hnd Hf Hn Hk Hz.
  subst nativeBookmark index.
  assert (Href : Helper.findBookmarkRef (id container) bookmarks = Some [n])
    by now apply findBookmarkRef_root.
  unfold processChangeTypeAddOnBookmarks, resolveAddParent.
  rewrite !bind_run. cbn [ret]. rewrite Hc.
  rewrite !bind_run.
  assert (En : getContainerNameFromNativeId P (n_parentId (add_nativeBookmark changeData)) w
               = (Resolved (Some Other), w)).
  { unfold getContainerNameFromNativeId, getNativeContainerIds, bind, ret.
    cbn [app find fst snd]. rewrite Ho.
    assert (E : optEqb (n_parentId (add_nativeBookmark changeData))
                       (n_parentId (add_nativeBookmark changeData)) = true)
      by now apply optEqb_eq.
    now rewrite E. }
  rewrite En. unfold Helper.getContainer. rewrite Hf. cbn [ret].
  apply Z.eqb_neq in Hz. rewrite Hz.
  rewrite !bind_run.
  unfold addBookmark, angular_copy. rewrite Href.
  cbn [Helper.deref]. rewrite Hn, Hk.
  unfold lift. cbn [r_bookmark r_bookmarks r_ref Helper.updateAt
                    Helper.extractNativeBookmarkMetadata m_title m_url m_description
                    m_tags m_isSeparator].
  fold newId. change (Helper.newBookmark (Some (n_title (add_nativeBookmark changeData)))
                        (n_url (add_nativeBookmark changeData)) None None false bookmarks)
    with created.
  set (updated := Helper.mapNth n _ bookmarks).
  assert (Hid : id created = newId).
  { subst created. unfold Helper.newBookmarkWithId.
    destruct (n_url (add_nativeBookmark changeData)); reflexivity. }
  assert (Hg : Helper.getContainerByBookmarkId (id created) updated
               = Some (setChildren
                         (Some (splice (toInteger (n_index (add_nativeBookmark changeData)))
                                       created kids)) container)).
  { unfold Helper.getContainerByBookmarkId. subst updated.
    apply find_mapNth; [exact Hn| |].
    - intros x Hx. apply andb_false_iff. right.
      apply memZ_false. intros Hin. rewrite Hid in Hin.
      assert (Hlt : newId < newId); [|lia].
      apply getNewBookmarkId_fresh. left. eapply allIds_In_root; eauto.
    - apply andb_true_iff. split.
      { rewrite isContainer_setChildren. apply isContainer_reserved. exists Other.
        unfold Helper.findContainer in Hf. apply find_some in Hf.
        destruct Hf as [_ Hf]. now apply optEqb_eq in Hf. }
      apply memZ_In. destruct container as [i t u d g c]. cbn [setChildren].
      rewrite flatten_ids. right. unfold splice, Helper.allIds.
      rewrite eachBookmark_app, map_app. apply in_or_app. right.
      unfold Helper.eachBookmark. cbn [flat_map]. rewrite map_app.
      apply in_or_app. left. rewrite getIdsFromDescendants_flatten. now left. }
  rewrite !bind_run. unfold checkIfBookmarkChangeShouldBeSynced.
  rewrite !bind_run. unfold syncBookmarksToolbar. rewrite Hg.
  assert (Et : optEqb (title (setChildren
                                (Some (splice (toInteger (n_index (add_nativeBookmark
                                                                     changeData)))
                                              created kids)) container))
                      (Some (containerTitle Toolbar)) = false).
  { unfold Helper.findContainer in Hf. apply find_some in Hf. destruct Hf as [_ Hf].
    apply optEqb_eq in Hf. destruct container as [i t u d g c].
    cbn [setChildren title] in *. rewrite Hf. reflexivity. }
  rewrite Et. cbn [andb negb ret].
  rewrite !bind_run. unfold idMapper_add, IdMapper.add, IdMapper.createMapping.
  rewrite Hid. reflexivity.
Qed.

End AddUnderContainer.

(** A bookmark is created under the native other root at index 1 while
    the toolbar is not synced. *)
Lemma processChangeTypeAddOnBookmarks_other_witness :
  processChangeTypeAddOnBookmarks
    Sample.platform Sample.tree
    (Build_AddNativeBookmarkChangeData
       (mkNative "y" (Some "2") (Some 1) "Example" (Some "http://example.com") None))
    (Sample.world Sample.fullMappings false true)
  = (Resolved
       (Some [ Sample.folder 1 "[xbs] Toolbar"
                             [Sample.bookmarkA; Sample.bookmarkB; Sample.bookmarkC];
               Sample.folder 2 "[xbs] Other"
                             [Sample.bookmarkX;
                              Sample.leaf 13 "Example" "http://example.com";
                              Sample.folderF] ]),
     setIdMappings (Sample.fullMappings ++ [mkMapping 13 "y"])
                   (Sample.world Sample.fullMappings false true)).
Proof.
  apply (@processChangeTypeAddOnBookmarks_adds_under_the_other_container
           Sample.TableHost Sample.platform Sample.tree
           (Build_AddNativeBookmarkChangeData
              (mkNative "y" (Some "2") (Some 1) "Example" (Some "http://example.com") None))
           (Sample.world Sample.fullMappings false true) 1%nat
           (Sample.folder 2 "[xbs] Other" [Sample.bookmarkX; Sample.folderF])
           [Sample.bookmarkX; Sample.folderF]);
    try reflexivity; [|discriminate].
  repeat constructor; cbn; intuition discriminate.
Defined.

(* ================================================================== *)
(** ** A mapping without its bookmark *)

Section StaleMapping.

Variable Host : Type.
Variable P : Platform.

(** X27: a native Remove of a node whose mapping names a synced id that no
    bookmark of the tree carries does not fail with
    [BookmarkNotFoundException] and is not dropped:
    [processChangeTypeRemoveOnBookmarks] reads the id of the bookmark it did
    not find and fails with a [TypeError]; the mapping stays in the table
    and nothing else changes. *)
Theorem processChangeTypeRemoveOnBookmarks_rejects_a_mapping_without_bookmark
        (bookmarks : list Bookmark) (changeData : RemoveNativeBookmarkChangeData)
        (w : World Host) (mapping : BookmarkIdMapping) :
  let nativeBookmark := remove_nativeBookmark changeData in
  wasContainerChanged P nativeBookmark bookmarks = false ->
  IdMapper.get (Some (n_id nativeBookmark)) None (w_idMappings w) = Some mapping ->
  ~ In (syncedId mapping) (Helper.allIds bookmarks) ->
  processChangeTypeRemoveOnBookmarks P bookmarks changeData w = (Rejected TypeError, w).
Proof.
  intros nativeBookmark Hc Hm Hn. subst nativeBookmark.
  apply findBookmarkById_None in Hn.
  unfold processChangeTypeRemoveOnBookmarks.
  rewrite !bind_run. cbn [ret]. rewrite Hc.
  rewrite !bind_run. unfold idMapper_get. rewrite Hm, Hn.
  rewrite !bind_run. unfold checkIfBookmarkChangeShouldBeSynced.
  rewrite !bind_run. reflexivity.
Qed.

End StaleMapping.

(** The native node ["z"] is mapped to the id 99, which is not in the tree. *)
Lemma processChangeTypeRemoveOnBookmarks_stale_witness :
  processChangeTypeRemoveOnBookmarks
    Sample.platform Sample.tree
    (Build_RemoveNativeBookmarkChangeData
       (mkNative "z" (Some "2") (Some 0) "Z" (Some "https://z.example") None))
    (Sample.world [mkMapping 99 "z"] true true)
  = (Rejected TypeError, Sample.world [mkMapping 99 "z"] true true).
Proof.
  apply (@processChangeTypeRemoveOnBookmarks_rejects_a_mapping_without_bookmark
           Sample.TableHost Sample.platform Sample.tree
           (Build_RemoveNativeBookmarkChangeData
              (mkNative "z" (Some "2") (Some 0) "Z" (Some "https://z.example") None))
           (Sample.world [mkMapping 99 "z"] true true) (mkMapping 99 "z"));
    [reflexivity | reflexivity |].
  cbn. intuition discriminate.
Defined.
